(** * Telemetry cache and streaming sessions of talos

    A shallow embedding of the ROS2 topic subscriber plugin
    ([system_manager/plugins/ros2_topic_subscriber.py]), of the agent's log
    endpoint ([talos/agent/routers/logs.py]) and of the WebSocket and HTTP
    routers that serve them ([talos/routers/websocket.py],
    [talos/routers/ros2.py]).

    Conventions.
    - A reading of [time.time()] is a rational number of seconds; every
      function that reads the clock takes the reading as an argument.
      Subtraction and comparison of readings are exact.
    - A Python [dict] used as a map is a [gmap]; [k in d] is [is_Some (d !! k)],
      [d[k]] is the lookup, with [None] standing for [KeyError].  A loop over
      a dict visits its keys once each, in the order of [map_to_list] rather
      than in insertion order; nothing below depends on that order.
    - A method that mutates [self] returns the new plugin state next to its
      result. *)

From Stdlib Require Import QArith Lqa.
From stdpp Require Import gmap strings list fin_maps sorting.

(** Decidable order on clock readings, so that the guards read as in the
    source: [if decide (age > DYNAMIC_TOPIC_STALE_TIME)%Q then ...]. *)
#[global] Instance Qlt_decision (x y : Q) : Decision (x < y)%Q.
Proof.
  destruct (Qlt_le_dec x y) as [Hlt | Hle].
  - left. exact Hlt.
  - right. apply Qle_not_lt. exact Hle.
Defined.

#[global] Instance Qle_decision (x y : Q) : Decision (x <= y)%Q.
Proof.
  destruct (Qlt_le_dec y x) as [Hlt | Hle].
  - right. apply Qlt_not_le. exact Hlt.
  - left. exact Hle.
Defined.

(** Case analysis on the first guard of the goal. *)
Ltac split_guard H :=
  match goal with
  | |- context [decide ?P] => destruct (decide P) as [H | H]
  end.

(** ** The subscriber plugin *)
Module Subscriber.

Definition STATUS_CHECK_INTERVAL : Q := 10.
Definition DYNAMIC_TOPIC_STALE_TIME : Q := 3.

(** The part of [zenoh_ros2_sdk] the plugin touches: a subscriber handle is
    the keyword arguments it was built from. *)
Inductive QosDurability := VOLATILE | TRANSIENT_LOCAL.

Record QosProfile := {
  durability : QosDurability;
  history_depth : Z
}.

Record ROS2Subscriber := {
  sub_topic : string;
  sub_msg_type : string;
  sub_domain_id : Z;
  sub_router_ip : option string;
  sub_router_port : option Z;
  sub_qos : option QosProfile
}.

(** One value of [msg_cache]: the dict [{"raw_message": .., "received_at": ..}].
    Both are read with [.get], so either may be absent. *)
Record CacheEntry (Msg : Type) := {
  raw_message : option Msg;
  received_at : option Q
}.
Arguments raw_message {Msg} _.
Arguments received_at {Msg} _.
Arguments Build_CacheEntry {Msg} _ _.

(** The attributes of [ROS2TopicSubscriber]. *)
Record ROS2TopicSubscriber (Msg : Type) := {
  container_name : string;
  topics : gmap string string;
  static_topics : gmap string string;
  domain_id : Z;
  router_ip : option string;
  router_port : option Z;
  subscribers : gmap string ROS2Subscriber;
  msg_cache : gmap string (CacheEntry Msg);
  is_running : bool;
  status_thread : bool
}.
Arguments container_name {Msg} _.
Arguments topics {Msg} _.
Arguments static_topics {Msg} _.
Arguments domain_id {Msg} _.
Arguments router_ip {Msg} _.
Arguments router_port {Msg} _.
Arguments subscribers {Msg} _.
Arguments msg_cache {Msg} _.
Arguments is_running {Msg} _.
Arguments status_thread {Msg} _.
Arguments Build_ROS2TopicSubscriber {Msg} _ _ _ _ _ _ _ _ _ _.

(** The value [get_topic_data] returns: [{"data": .., "received_at": ..}]. *)
Record TopicData (Data : Type) := {
  data : Data;
  td_received_at : option Q
}.
Arguments data {Data} _.
Arguments td_received_at {Data} _.
Arguments Build_TopicData {Data} _ _.

(** One value of the dict [get_all_topics_status] returns. *)
Record TopicStatus := {
  configured : bool;
  available : bool;
  msg_type : string;
  subscribed : bool;
  st_received_at : option Q;
  seconds_since_last_message : option Q
}.

(** What [start] did: returned early, returned normally, or re-raised the
    [RuntimeError].  The list is [failed_topics]. *)
Inductive StartOutcome :=
  | AlreadyRunning
  | Started (failed_topics : list string)
  | StartFailed (failed_topics : list string).

Definition failed_topics_of (o : StartOutcome) : list string :=
  match o with
  | AlreadyRunning => []
  | Started l | StartFailed l => l
  end.

Definition raised (o : StartOutcome) : bool :=
  match o with StartFailed _ => true | _ => false end.

Section Plugin.
Context {Msg Data : Type}.

(** [_convert_message_to_dict]: the message is opaque here. *)
Variable convert_message_to_dict : Msg → Data.

(** Whether the SDK's [ROS2Subscriber(...)] constructor returns for a
    topic and type (it raises otherwise). *)
Variable create_ok : string → string → bool.

Local Abbreviation plugin := (ROS2TopicSubscriber Msg).

Definition set_msg_cache (p : plugin) (c : gmap string (CacheEntry Msg)) : plugin :=
  {| container_name := container_name p; topics := topics p;
     static_topics := static_topics p; domain_id := domain_id p;
     router_ip := router_ip p; router_port := router_port p;
     subscribers := subscribers p; msg_cache := c;
     is_running := is_running p; status_thread := status_thread p |}.

Definition set_subscribers (p : plugin) (s : gmap string ROS2Subscriber) : plugin :=
  {| container_name := container_name p; topics := topics p;
     static_topics := static_topics p; domain_id := domain_id p;
     router_ip := router_ip p; router_port := router_port p;
     subscribers := s; msg_cache := msg_cache p;
     is_running := is_running p; status_thread := status_thread p |}.

Definition set_running (p : plugin) (r th : bool) : plugin :=
  {| container_name := container_name p; topics := topics p;
     static_topics := static_topics p; domain_id := domain_id p;
     router_ip := router_ip p; router_port := router_port p;
     subscribers := subscribers p; msg_cache := msg_cache p;
     is_running := r; status_thread := th |}.

(** [__init__] *)
Definition init (container : string) (dyn : gmap string string)
    (static : option (gmap string string)) (dom_id : Z)
    (ip : option string) (port : option Z) : plugin :=
  {| container_name := container; topics := dyn;
     static_topics := default ∅ static; domain_id := dom_id;
     router_ip := ip; router_port := port;
     subscribers := ∅; msg_cache := ∅;
     is_running := false; status_thread := false |}.

(** [_create_subscriber]: [None] when the constructor raised (the plugin
    is then unchanged).  Static topics ask for TRANSIENT_LOCAL. *)
Definition _create_subscriber (p : plugin) (topic ty : string) : option plugin :=
  let qos :=
    if decide (is_Some (static_topics p !! topic))
    then Some {| durability := TRANSIENT_LOCAL; history_depth := 1 |}
    else None in
  if create_ok topic ty
  then Some (set_subscribers p
               (<[topic := {| sub_topic := topic; sub_msg_type := ty;
                              sub_domain_id := domain_id p;
                              sub_router_ip := router_ip p;
                              sub_router_port := router_port p;
                              sub_qos := qos |}]> (subscribers p)))
  else None.

(** The callback the subscriber for [topic] runs on every message. *)
Definition msg_callback (p : plugin) (topic : string) (msg : Msg) (now : Q) : plugin :=
  set_msg_cache p
    (<[topic := {| raw_message := Some msg; received_at := Some now |}]> (msg_cache p)).

(** [_cleanup_subscribers]: every handle is closed (a failing [close] is
    logged and skipped) and the dict is cleared. *)
Definition _cleanup_subscribers (p : plugin) : plugin := set_subscribers p ∅.

(** One [try: self._create_subscriber(..) except: failed_topics.append(..)]. *)
Definition try_subscribe (acc : plugin * list string) (item : string * string)
    : plugin * list string :=
  match _create_subscriber acc.1 item.1 item.2 with
  | Some p' => (p', acc.2)
  | None => (acc.1, acc.2 ++ [item.1])
  end.

Definition subscribe_all (acc : plugin * list string)
    (items : list (string * string)) : plugin * list string :=
  foldl try_subscribe acc items.

(** [start] *)
Definition start (p : plugin) : plugin * StartOutcome :=
  if is_running p then (p, AlreadyRunning)
  else
    let after_dynamic := subscribe_all (p, []) (map_to_list (topics p)) in
    let after_static := subscribe_all after_dynamic (map_to_list (static_topics p)) in
    let p2 := after_static.1 in
    let failed_topics := after_static.2 in
    let total_topics := (size (topics p) + size (static_topics p))%nat in
    if decide (subscribers p2 = ∅ ∧ (0 < total_topics)%nat)
    then (_cleanup_subscribers (set_running p2 false (status_thread p2)),
          StartFailed failed_topics)
    else (set_running p2 true true, Started failed_topics).

(** [stop] *)
Definition stop (p : plugin) : plugin :=
  if is_running p
  then set_msg_cache (_cleanup_subscribers (set_running p false (status_thread p))) ∅
  else p.

(** The dict [get_topic_data] builds from an entry, [None] when the entry
    holds no message. *)
Definition entry_data (cached : CacheEntry Msg) : option (TopicData Data) :=
  match raw_message cached with
  | Some m => Some {| data := convert_message_to_dict m;
                      td_received_at := received_at cached |}
  | None => None
  end.

(** [get_topic_data] *)
Definition get_topic_data (p : plugin) (topic : string) (now : Q)
    : plugin * option (TopicData Data) :=
  match msg_cache p !! topic with
  | None => (p, None)
  | Some cached =>
      if decide (is_Some (topics p !! topic)) then
        match received_at cached with
        | Some r =>
            let age := (now - r)%Q in
            if decide (age > DYNAMIC_TOPIC_STALE_TIME)%Q
            then (set_msg_cache p (delete topic (msg_cache p)), None)
            else (p, entry_data cached)
        | None => (p, entry_data cached)
        end
      else (p, entry_data cached)
  end.

(** [list_topics] *)
Definition list_topics (p : plugin) : list string :=
  (map_to_list (topics p)).*1 ++ (map_to_list (static_topics p)).*1.

(** [is_topic_available] *)
Definition is_topic_available (p : plugin) (topic : string) (now : Q) : plugin * bool :=
  if decide (¬ is_Some (topics p !! topic) ∧ ¬ is_Some (static_topics p !! topic))
  then (p, false)
  else
    match msg_cache p !! topic with
    | None => (p, false)
    | Some cached =>
        if decide (is_Some (topics p !! topic)) then
          match received_at cached with
          | Some r =>
              let age := (now - r)%Q in
              if decide (age > DYNAMIC_TOPIC_STALE_TIME)%Q
              then (set_msg_cache p (delete topic (msg_cache p)), false)
              else (p, true)
          | None => (p, true)
          end
        else (p, true)
    end.

(** [clear_topic_cache] and [clear_all_cache] *)
Definition clear_topic_cache (p : plugin) (topic : string) : plugin :=
  set_msg_cache p (delete topic (msg_cache p)).

Definition clear_all_cache (p : plugin) : plugin := set_msg_cache p ∅.

(** [get_all_topics_status]: the body of the loop over the dynamic
    topics.  The accumulator is the cache and the status dict. *)
Definition status_dynamic (p : plugin) (now : Q)
    (acc : gmap string (CacheEntry Msg) * gmap string TopicStatus)
    (item : string * string)
    : gmap string (CacheEntry Msg) * gmap string TopicStatus :=
  let topic := item.1 in
  let record avail recv secs :=
    {| configured := true; available := avail; msg_type := item.2;
       subscribed := bool_decide (is_Some (subscribers p !! topic));
       st_received_at := recv; seconds_since_last_message := secs |} in
  match acc.1 !! topic with
  | None => (acc.1, <[topic := record false None None]> acc.2)
  | Some cached =>
      match received_at cached with
      | Some r =>
          if decide (r > 0)%Q then
            let seconds_since_received := (now - r)%Q in
            if decide (seconds_since_received <= DYNAMIC_TOPIC_STALE_TIME)%Q
            then (acc.1,
                  <[topic := record true (Some r) (Some seconds_since_received)]> acc.2)
            else (delete topic acc.1,
                  <[topic := record false (Some r) None]> acc.2)
          else (acc.1, <[topic := record true (Some r) None]> acc.2)
      | None => (acc.1, <[topic := record true None None]> acc.2)
      end
  end.

(** The body of the loop over the static topics. *)
Definition status_static (p : plugin) (now : Q)
    (acc : gmap string (CacheEntry Msg) * gmap string TopicStatus)
    (item : string * string)
    : gmap string (CacheEntry Msg) * gmap string TopicStatus :=
  let topic := item.1 in
  let record avail recv secs :=
    {| configured := true; available := avail; msg_type := item.2;
       subscribed := bool_decide (is_Some (subscribers p !! topic));
       st_received_at := recv; seconds_since_last_message := secs |} in
  match acc.1 !! topic with
  | None => (acc.1, <[topic := record false None None]> acc.2)
  | Some cached =>
      match received_at cached with
      | Some r =>
          if decide (r > 0)%Q
          then (acc.1, <[topic := record true (Some r) (Some (now - r)%Q)]> acc.2)
          else (acc.1, <[topic := record true (Some r) None]> acc.2)
      | None => (acc.1, <[topic := record true None None]> acc.2)
      end
  end.

Definition get_all_topics_status (p : plugin) (now : Q)
    : plugin * gmap string TopicStatus :=
  let after_dynamic :=
    foldl (status_dynamic p now) (msg_cache p, ∅) (map_to_list (topics p)) in
  let after_static :=
    foldl (status_static p now) after_dynamic (map_to_list (static_topics p)) in
  (set_msg_cache p after_static.1, after_static.2).

(** [_periodic_status_check]: the eviction loop of one iteration, over
    the keys the cache had when the loop started.  The accumulator is the
    cache and [stale_topics]. *)
Definition sweep_topic (p : plugin) (now : Q)
    (acc : gmap string (CacheEntry Msg) * list string) (topic_name : string)
    : gmap string (CacheEntry Msg) * list string :=
  if decide (is_Some (topics p !! topic_name)) then
    match acc.1 !! topic_name with
    | Some cached =>
        match received_at cached with
        | Some r =>
            let age := (now - r)%Q in
            if decide (age > DYNAMIC_TOPIC_STALE_TIME)%Q
            then (delete topic_name acc.1, acc.2 ++ [topic_name])
            else acc
        | None => acc
        end
    | None => acc
    end
  else acc.

(** One iteration of [_periodic_status_check] past the sleep: the new
    plugin state, [stale_topics] and the topics warned about. *)
Definition periodic_status_check_once (p : plugin) (now : Q)
    : plugin * list string * list string :=
  let swept := foldl (sweep_topic p now) (msg_cache p, []) (map_to_list (msg_cache p)).*1 in
  let warned :=
    filter (λ topic_name, swept.1 !! topic_name = None) (map_to_list (topics p)).*1 in
  (set_msg_cache p swept.1, swept.2, warned).

(** The age test that [get_topic_data], [is_topic_available] and the
    periodic check apply to a dynamic topic's entry. *)
Definition read_evicts (now : Q) (cached : CacheEntry Msg) : bool :=
  match received_at cached with
  | Some r => bool_decide (now - r > DYNAMIC_TOPIC_STALE_TIME)%Q
  | None => false
  end.

(** The test that the dynamic loop of [get_all_topics_status] applies. *)
Definition status_evicts (now : Q) (cached : CacheEntry Msg) : bool :=
  match received_at cached with
  | Some r =>
      bool_decide (r > 0)%Q
      && negb (bool_decide (now - r <= DYNAMIC_TOPIC_STALE_TIME)%Q)
  | None => false
  end.

(** The operations on the cache that look at the age of an entry. *)
Inductive CacheOp :=
  | OpGet (topic : string) (now : Q)
  | OpIsAvailable (topic : string) (now : Q)
  | OpStatus (now : Q)
  | OpSweep (now : Q).

Definition run_op (p : plugin) (op : CacheOp) : plugin :=
  match op with
  | OpGet topic now => (get_topic_data p topic now).1
  | OpIsAvailable topic now => (is_topic_available p topic now).1
  | OpStatus now => (get_all_topics_status p now).1
  | OpSweep now => (periodic_status_check_once p now).1.1
  end.

(** An entry that was in the cache before an operation and is not after. *)
Definition evicted (before after : gmap string (CacheEntry Msg)) (topic : string) : Prop :=
  is_Some (before !! topic) ∧ after !! topic = None.

(** One status pass and one [get_topic_data] at the same instant treat
    [topic] alike: the pass evicts the entry exactly when the read does, and
    reports [available] exactly when the read returns a value. *)
Definition status_mirrors_get (p : plugin) (topic : string) (now : Q) : Prop :=
  let g := get_topic_data p topic now in
  let s := get_all_topics_status p now in
  (evicted (msg_cache p) (msg_cache s.1) topic
     ↔ evicted (msg_cache p) (msg_cache g.1) topic)
  ∧ ∃ record, s.2 !! topic = Some record
             ∧ (available record = true ↔ is_Some g.2).

(** An accumulator of the status loops in which a record says [available]
    exactly when the cache holds an entry for the topic. *)
Definition status_sound
    (acc : gmap string (CacheEntry Msg) * gmap string TopicStatus) : Prop :=
  ∀ topic record, acc.2 !! topic = Some record →
    (available record = true ↔ is_Some (acc.1 !! topic)).

(** [topic] is configured with type [ty], as a dynamic or a static topic. *)
Definition configured_as (p : plugin) (topic ty : string) : Prop :=
  topics p !! topic = Some ty ∨ static_topics p !! topic = Some ty.

(** *** Reads of a single entry *)

Lemma get_topic_data_absent (p : plugin) topic now :
  msg_cache p !! topic = None → get_topic_data p topic now = (p, None).
Proof. intros Hnone. unfold get_topic_data. by rewrite Hnone. Qed.

Lemma get_topic_data_not_dynamic (p : plugin) topic cached now :
  topics p !! topic = None →
  msg_cache p !! topic = Some cached →
  get_topic_data p topic now = (p, entry_data cached).
Proof.
  intros Hdyn Hc. unfold get_topic_data. rewrite Hc.
  destruct (decide (is_Some (topics p !! topic))) as [[ty Hty] | _]; [congruence | done].
Qed.

Lemma is_topic_available_static (p : plugin) topic cached now :
  topics p !! topic = None →
  is_Some (static_topics p !! topic) →
  msg_cache p !! topic = Some cached →
  is_topic_available p topic now = (p, true).
Proof.
  intros Hdyn Hst Hc. unfold is_topic_available.
  destruct (decide _) as [[_ Hno] | _]; [contradiction |].
  rewrite Hc.
  destruct (decide (is_Some (topics p !! topic))) as [[ty Hty] | _]; [congruence | done].
Qed.

(** C1. For a dynamic topic with a cache entry received at [r], a
    [get_topic_data] at a time [now] with [now - r > 3.0] deletes the entry
    and returns [None]; one at [now - r <= 3.0] returns the cached message,
    converted, with its timestamp, and leaves the plugin as it was.  The
    deletion is done by the read. *)
Theorem get_topic_data_staleness (p : plugin) topic cached r now :
  is_Some (topics p !! topic) →
  msg_cache p !! topic = Some cached →
  received_at cached = Some r →
  ((now - r > DYNAMIC_TOPIC_STALE_TIME)%Q →
     get_topic_data p topic now
       = (set_msg_cache p (delete topic (msg_cache p)), None)
     ∧ msg_cache (get_topic_data p topic now).1 !! topic = None)
  ∧ ((now - r <= DYNAMIC_TOPIC_STALE_TIME)%Q →
       ∀ m, raw_message cached = Some m →
         get_topic_data p topic now
           = (p, Some {| data := convert_message_to_dict m;
                         td_received_at := Some r |})).
Proof.
  intros Hdyn Hc Hr. unfold get_topic_data. rewrite Hc, Hr.
  destruct (decide (is_Some (topics p !! topic))) as [_ | Hno]; [| contradiction].
  cbv zeta. split.
  - intros Hstale. destruct (decide _) as [_ | Hfresh]; [| contradiction].
    split; [done |]. simpl. apply lookup_delete_eq.
  - intros Hfresh m Hm. destruct (decide _) as [Hstale | _].
    + exfalso. apply (Qlt_not_le _ _ Hstale). exact Hfresh.
    + unfold entry_data. by rewrite Hm, Hr.
Qed.

(** *** Keys of a dict *)

Lemma elem_of_keys {V} (m : gmap string V) (k : string) :
  k ∈ (map_to_list m).*1 ↔ is_Some (m !! k).
Proof.
  rewrite list_elem_of_fmap. split.
  - intros [[k' v] [-> Hin]]. apply elem_of_map_to_list in Hin. by exists v.
  - intros [v Hv]. exists (k, v). split; [done |]. by apply elem_of_map_to_list.
Qed.

(** *** The periodic check *)

Lemma sweep_topic_not_dynamic (p : plugin) now acc topic_name topic :
  topics p !! topic = None →
  (sweep_topic p now acc topic_name).1 !! topic = acc.1 !! topic.
Proof.
  intros Hdyn. unfold sweep_topic.
  destruct (decide (is_Some (topics p !! topic_name))) as [[ty Hty] | _]; [| done].
  destruct (acc.1 !! topic_name) as [cached |]; [| done].
  destruct (received_at cached) as [r |]; [| done].
  cbv zeta. destruct (decide _); [| done].
  simpl. apply lookup_delete_ne. congruence.
Qed.

Lemma sweep_not_dynamic (p : plugin) now keys acc topic :
  topics p !! topic = None →
  (foldl (sweep_topic p now) acc keys).1 !! topic = acc.1 !! topic.
Proof.
  intros Hdyn. revert acc.
  induction keys as [| k keys IH]; intros acc; [done |].
  simpl. rewrite IH. by apply sweep_topic_not_dynamic.
Qed.

(** *** The status pass *)

Lemma status_dynamic_cache (p : plugin) now acc item :
  (status_dynamic p now acc item).1
    = match acc.1 !! item.1 with
      | Some cached =>
          if status_evicts now cached then delete item.1 acc.1 else acc.1
      | None => acc.1
      end.
Proof.
  unfold status_dynamic, status_evicts.
  destruct (acc.1 !! item.1) as [cached |]; [| done].
  destruct (received_at cached) as [r |]; [| done].
  cbv zeta. destruct (decide (r > 0)%Q) as [Hpos | Hneg].
  - rewrite (bool_decide_eq_true_2 _ Hpos).
    destruct (decide (now - r <= DYNAMIC_TOPIC_STALE_TIME)%Q) as [Hle | Hgt].
    + by rewrite (bool_decide_eq_true_2 _ Hle).
    + by rewrite (bool_decide_eq_false_2 _ Hgt).
  - by rewrite (bool_decide_eq_false_2 _ Hneg).
Qed.

Lemma status_static_cache (p : plugin) now acc item :
  (status_static p now acc item).1 = acc.1.
Proof.
  unfold status_static.
  destruct (acc.1 !! item.1) as [cached |]; [| done].
  destruct (received_at cached) as [r |]; [| done].
  by destruct (decide (r > 0)%Q).
Qed.

Lemma foldl_status_static_cache (p : plugin) now items acc :
  (foldl (status_static p now) acc items).1 = acc.1.
Proof.
  revert acc. induction items as [| item items IH]; intros acc; [done |].
  simpl. rewrite IH. apply status_static_cache.
Qed.

(** After the dynamic loop an entry is gone exactly when its topic was
    visited and the status test fired. *)
Lemma foldl_status_dynamic_cache (p : plugin) now items acc topic :
  (foldl (status_dynamic p now) acc items).1 !! topic
    = match acc.1 !! topic with
      | Some cached =>
          if decide (topic ∈ items.*1 ∧ status_evicts now cached = true)
          then None else Some cached
      | None => None
      end.
Proof.
  revert acc. induction items as [| item items IH]; intros acc.
  - cbn [foldl]. destruct (acc.1 !! topic) as [cached |]; [| done].
    split_guard Hd; [| done]. destruct Hd as [Hin _]. by apply elem_of_nil in Hin.
  - cbn [foldl]. rewrite IH, status_dynamic_cache, fmap_cons.
    destruct (decide (item.1 = topic)) as [<- | Hne].
    + destruct (acc.1 !! item.1) as [cached |] eqn:Hc; rewrite ?Hc; [| done].
      destruct (status_evicts now cached) eqn:Hev.
      * rewrite lookup_delete_eq.
        split_guard Hno; [done |].
        exfalso. apply Hno. split; [apply list_elem_of_here | done].
      * rewrite Hc. rewrite Hev.
        split_guard Hd1; [destruct Hd1; congruence |].
        split_guard Hd2; [destruct Hd2; congruence | done].
    + assert (Hsame :
        match acc.1 !! item.1 with
        | Some cached =>
            if status_evicts now cached then delete item.1 acc.1 else acc.1
        | None => acc.1
        end !! topic = acc.1 !! topic).
      { destruct (acc.1 !! item.1) as [cached |]; [| done].
        destruct (status_evicts now cached); [| done].
        by apply lookup_delete_ne. }
      rewrite Hsame. destruct (acc.1 !! topic) as [cached |]; [| done].
      split_guard Hd1; split_guard Hd2; try done.
      * exfalso. apply Hd2. destruct Hd1 as [Hin Hev].
        split; [by apply list_elem_of_further | done].
      * exfalso. apply Hd1. destruct Hd2 as [Hin Hev]. split; [| done].
        apply elem_of_cons in Hin as [-> | Hin]; [congruence | done].
Qed.

(** The cache that [get_all_topics_status] leaves. *)
Lemma get_all_topics_status_cache (p : plugin) now topic :
  msg_cache (get_all_topics_status p now).1 !! topic
    = match msg_cache p !! topic with
      | Some cached =>
          if decide (is_Some (topics p !! topic) ∧ status_evicts now cached = true)
          then None else Some cached
      | None => None
      end.
Proof.
  unfold get_all_topics_status. cbn [fst snd msg_cache set_msg_cache].
  rewrite foldl_status_static_cache, foldl_status_dynamic_cache.
  cbn [fst snd].
  destruct (msg_cache p !! topic) as [cached |]; [| done].
  split_guard Hd1; split_guard Hd2; try done.
  - exfalso. apply Hd2. destruct Hd1 as [Hin Hev].
    split; [by apply elem_of_keys | done].
  - exfalso. apply Hd1. destruct Hd2 as [Hin Hev].
    split; [by apply elem_of_keys | done].
Qed.

Lemma get_all_topics_status_config (p : plugin) now :
  topics (get_all_topics_status p now).1 = topics p
  ∧ static_topics (get_all_topics_status p now).1 = static_topics p.
Proof. done. Qed.

Lemma status_dynamic_insert (p : plugin) now acc item :
  ∃ record, (status_dynamic p now acc item).2 = <[item.1 := record]> acc.2
            ∧ (available record = true
                 ↔ is_Some ((status_dynamic p now acc item).1 !! item.1)).
Proof.
  unfold status_dynamic.
  destruct (acc.1 !! item.1) as [cached |] eqn:Hc.
  - destruct (received_at cached) as [r |].
    + cbv zeta. destruct (decide (r > 0)%Q).
      * destruct (decide (now - r <= DYNAMIC_TOPIC_STALE_TIME)%Q);
          eexists; (split; [reflexivity |]); cbn [fst snd available].
        -- rewrite Hc. split; [by eexists | done].
        -- rewrite lookup_delete_eq. split; [done | by intros [? ?]].
      * eexists; (split; [reflexivity |]); cbn [fst snd available].
        rewrite Hc. split; [by eexists | done].
    + eexists; (split; [reflexivity |]); cbn [fst snd available].
      rewrite Hc. split; [by eexists | done].
  - eexists; (split; [reflexivity |]); cbn [fst snd available].
    rewrite Hc. split; [done | by intros [? ?]].
Qed.

Lemma status_static_insert (p : plugin) now acc item :
  ∃ record, (status_static p now acc item).2 = <[item.1 := record]> acc.2
            ∧ (available record = true ↔ is_Some (acc.1 !! item.1)).
Proof.
  unfold status_static.
  destruct (acc.1 !! item.1) as [cached |] eqn:Hc.
  - destruct (received_at cached) as [r |].
    + destruct (decide (r > 0)%Q);
        eexists; (split; [reflexivity |]); cbn [available];
        (split; [by eexists | done]).
    + eexists; (split; [reflexivity |]); cbn [available].
      split; [by eexists | done].
  - eexists; (split; [reflexivity |]); cbn [available].
    split; [done | by intros [? ?]].
Qed.

(** The status dict has a record for a topic once the loop has visited it. *)
Lemma foldl_insert_keys {C : Type}
    (step : C * gmap string TopicStatus → string * string → C * gmap string TopicStatus)
    (Hstep : ∀ acc item, ∃ record, (step acc item).2 = <[item.1 := record]> acc.2)
    items acc topic :
  is_Some ((foldl step acc items).2 !! topic)
    ↔ is_Some (acc.2 !! topic) ∨ topic ∈ items.*1.
Proof.
  revert acc. induction items as [| item items IH]; intros acc.
  - cbn [foldl]. rewrite fmap_nil. split; [by left |].
    intros [? | Hin]; [done | by apply elem_of_nil in Hin].
  - cbn [foldl]. rewrite IH, fmap_cons, elem_of_cons.
    destruct (Hstep acc item) as [record ->].
    rewrite lookup_insert. destruct (decide (item.1 = topic)) as [-> | Hne].
    + split; [intros _; right; by left | intros _; left; by eexists].
    + split; (intros [? | ?]; [by left |]); [right; by right | ].
      destruct H as [-> | ?]; [done | by right].
Qed.

Lemma status_dynamic_sound (p : plugin) now acc item :
  status_sound acc → status_sound (status_dynamic p now acc item).
Proof.
  intros Hacc topic record Hrec.
  destruct (status_dynamic_insert p now acc item) as (record' & Heq & Hav).
  rewrite Heq, lookup_insert in Hrec.
  destruct (decide (item.1 = topic)) as [<- | Hne].
  - by simplify_eq.
  - rewrite status_dynamic_cache.
    assert (Hsame :
      match acc.1 !! item.1 with
      | Some cached =>
          if status_evicts now cached then delete item.1 acc.1 else acc.1
      | None => acc.1
      end !! topic = acc.1 !! topic).
    { destruct (acc.1 !! item.1) as [cached |]; [| done].
      destruct (status_evicts now cached); [| done].
      by apply lookup_delete_ne. }
    rewrite Hsame. by apply Hacc.
Qed.

Lemma status_static_sound (p : plugin) now acc item :
  status_sound acc → status_sound (status_static p now acc item).
Proof.
  intros Hacc topic record Hrec.
  destruct (status_static_insert p now acc item) as (record' & Heq & Hav).
  rewrite Heq, lookup_insert in Hrec. rewrite status_static_cache.
  destruct (decide (item.1 = topic)) as [<- | Hne].
  - by simplify_eq.
  - by apply Hacc.
Qed.

Lemma foldl_sound
    (step : gmap string (CacheEntry Msg) * gmap string TopicStatus
            → string * string
            → gmap string (CacheEntry Msg) * gmap string TopicStatus)
    (Hstep : ∀ acc item, status_sound acc → status_sound (step acc item))
    items acc :
  status_sound acc → status_sound (foldl step acc items).
Proof.
  revert acc. induction items as [| item items IH]; intros acc Hacc; [done |].
  cbn [foldl]. apply IH, Hstep, Hacc.
Qed.

(** [status()] never reports [available] for a topic with no entry, and
    always does for one with an entry. *)
Lemma get_all_topics_status_sound (p : plugin) now topic record :
  (get_all_topics_status p now).2 !! topic = Some record →
  (available record = true
     ↔ is_Some (msg_cache (get_all_topics_status p now).1 !! topic)).
Proof.
  unfold get_all_topics_status. cbn [fst snd msg_cache set_msg_cache].
  apply (foldl_sound (status_static p now) (status_static_sound p now)).
  apply (foldl_sound (status_dynamic p now) (status_dynamic_sound p now)).
  intros topic' record' Hempty. cbn [snd] in Hempty.
  by rewrite lookup_empty in Hempty.
Qed.

(** The status dict lists the configured topics and nothing else. *)
Lemma get_all_topics_status_keys (p : plugin) now topic :
  is_Some ((get_all_topics_status p now).2 !! topic)
    ↔ is_Some (topics p !! topic) ∨ is_Some (static_topics p !! topic).
Proof.
  unfold get_all_topics_status. cbn [snd].
  rewrite (foldl_insert_keys (status_static p now)).
  2: { intros acc item.
       destruct (status_static_insert p now acc item) as (record & ? & _).
       by exists record. }
  rewrite (foldl_insert_keys (status_dynamic p now)).
  2: { intros acc item.
       destruct (status_dynamic_insert p now acc item) as (record & ? & _).
       by exists record. }
  cbn [snd]. rewrite lookup_empty, !elem_of_keys.
  split.
  - intros [[[? ?] | ?] | ?]; [done | by left | by right].
  - intros [? | ?]; [left; by right | by right].
Qed.

(** *** Reads and the status pass, compared *)

Lemma get_topic_data_dynamic (p : plugin) topic now :
  is_Some (topics p !! topic) →
  get_topic_data p topic now
    = match msg_cache p !! topic with
      | Some cached =>
          if read_evicts now cached
          then (set_msg_cache p (delete topic (msg_cache p)), None)
          else (p, entry_data cached)
      | None => (p, None)
      end.
Proof.
  intros Hdyn. unfold get_topic_data, read_evicts.
  destruct (msg_cache p !! topic) as [cached |]; [| done].
  destruct (decide (is_Some (topics p !! topic))) as [_ | Hno]; [| contradiction].
  destruct (received_at cached) as [r |]; [| done].
  cbv zeta. split_guard Hage.
  - by rewrite (bool_decide_eq_true_2 _ Hage).
  - by rewrite (bool_decide_eq_false_2 _ Hage).
Qed.

(** On a timestamp that is positive the two tests are the same test. *)
Lemma status_evicts_positive now (cached : CacheEntry Msg) :
  (∀ r, received_at cached = Some r → (r > 0)%Q) →
  status_evicts now cached = read_evicts now cached.
Proof.
  intros Hpos. unfold status_evicts, read_evicts.
  destruct (received_at cached) as [r |]; [| done].
  rewrite (bool_decide_eq_true_2 _ (Hpos r eq_refl)). cbn [andb].
  destruct (decide (now - r <= DYNAMIC_TOPIC_STALE_TIME)%Q) as [Hle | Hgt].
  - rewrite (bool_decide_eq_true_2 _ Hle). symmetry.
    apply bool_decide_eq_false_2. by apply Qle_not_lt.
  - rewrite (bool_decide_eq_false_2 _ Hgt). symmetry.
    apply bool_decide_eq_true_2. by apply Qnot_le_lt.
Qed.

(** C5, as the code has it.  For a dynamic topic whose entry, if there is
    one, holds a message and has a timestamp that is missing or positive,
    one pass of [get_all_topics_status] evicts the entry exactly when a
    [get_topic_data] at the same instant does, and reports [available]
    exactly when that read returns a value. *)
Theorem status_mirrors_get_on_stamped_entries (p : plugin) topic now :
  is_Some (topics p !! topic) →
  (∀ cached, msg_cache p !! topic = Some cached →
     is_Some (raw_message cached)
     ∧ ∀ r, received_at cached = Some r → (r > 0)%Q) →
  status_mirrors_get p topic now.
Proof.
  intros Hdyn Hentry. unfold status_mirrors_get, evicted. cbv zeta.
  assert (Hrec : is_Some ((get_all_topics_status p now).2 !! topic)).
  { apply get_all_topics_status_keys. by left. }
  destruct Hrec as [record Hrec].
  pose proof (get_all_topics_status_sound p now topic record Hrec) as Hav.
  rewrite get_all_topics_status_cache in Hav |- *.
  rewrite (get_topic_data_dynamic p topic now Hdyn).
  destruct (msg_cache p !! topic) as [cached |] eqn:Hc.
  - destruct (Hentry cached eq_refl) as [[m Hm] Hpos].
    rewrite <- (status_evicts_positive now cached Hpos).
    destruct (status_evicts now cached) eqn:Hev.
    + destruct (decide _) as [_ | Hno].
      2: { exfalso. apply Hno. by split. }
      cbn [fst snd msg_cache set_msg_cache]. rewrite lookup_delete_eq.
      split; [done |]. exists record. split; [done |].
      rewrite Hav. split; by intros [? ?].
    + destruct (decide _) as [[_ ?] | _]; [congruence |].
      cbn [fst snd]. rewrite Hc.
      split; [done |]. exists record. split; [done |].
      rewrite Hav. unfold entry_data. rewrite Hm.
      split; intros _; by eexists.
  - cbn [fst snd]. rewrite Hc.
    split; [done |]. exists record. split; [done |].
    rewrite Hav. split; by intros [? ?].
Qed.

(** *** Entries of topics that are not dynamic *)

Lemma run_op_config (p : plugin) op :
  topics (run_op p op) = topics p ∧ static_topics (run_op p op) = static_topics p.
Proof.
  destruct op as [topic now | topic now | now | now]; cbn [run_op].
  - unfold get_topic_data.
    destruct (msg_cache p !! topic) as [cached |]; [| done].
    destruct (decide _); [| done].
    destruct (received_at cached) as [r |]; [| done].
    cbv zeta. by destruct (decide _).
  - unfold is_topic_available.
    destruct (decide _); [done |].
    destruct (msg_cache p !! topic) as [cached |]; [| done].
    destruct (decide _); [| done].
    destruct (received_at cached) as [r |]; [| done].
    cbv zeta. by destruct (decide _).
  - done.
  - done.
Qed.

Lemma run_op_not_dynamic (p : plugin) op topic :
  topics p !! topic = None →
  msg_cache (run_op p op) !! topic = msg_cache p !! topic.
Proof.
  intros Hdyn.
  destruct op as [topic' now | topic' now | now | now]; cbn [run_op].
  - unfold get_topic_data.
    destruct (msg_cache p !! topic') as [cached |]; [| done].
    destruct (decide _) as [[ty Hty] |]; [| done].
    destruct (received_at cached) as [r |]; [| done].
    cbv zeta. destruct (decide _); [| done].
    cbn [fst msg_cache set_msg_cache]. apply lookup_delete_ne. congruence.
  - unfold is_topic_available.
    destruct (decide _); [done |].
    destruct (msg_cache p !! topic') as [cached |]; [| done].
    destruct (decide _) as [[ty Hty] |]; [| done].
    destruct (received_at cached) as [r |]; [| done].
    cbv zeta. destruct (decide _); [| done].
    cbn [fst msg_cache set_msg_cache]. apply lookup_delete_ne. congruence.
  - rewrite get_all_topics_status_cache.
    destruct (msg_cache p !! topic) as [cached |]; [| done].
    destruct (decide _) as [[[ty Hty] _] | _]; [congruence | done].
  - unfold periodic_status_check_once. cbn [fst msg_cache set_msg_cache].
    by rewrite sweep_not_dynamic.
Qed.

Lemma foldl_run_op_not_dynamic ops (p : plugin) topic :
  topics p !! topic = None →
  topics (foldl run_op p ops) = topics p
  ∧ static_topics (foldl run_op p ops) = static_topics p
  ∧ msg_cache (foldl run_op p ops) !! topic = msg_cache p !! topic.
Proof.
  revert p. induction ops as [| op ops IH]; intros p Hdyn; [done |].
  cbn [foldl]. destruct (run_op_config p op) as [Ht Hs].
  destruct (IH (run_op p op)) as (Ht' & Hs' & Hc'); [by rewrite Ht |].
  rewrite Ht', Hs', Hc', Ht, Hs. by rewrite run_op_not_dynamic.
Qed.

(** C7. The entry of a static topic survives every sequence of reads,
    availability checks, status passes and periodic checks, whatever their
    times: once a message has been received, [get_topic_data] returns it
    (and [is_topic_available] says yes) at any later time. *)
Theorem static_entry_never_evicted (p : plugin) topic ops :
  topics p !! topic = None →
  is_Some (static_topics p !! topic) →
  msg_cache (foldl run_op p ops) !! topic = msg_cache p !! topic
  ∧ ∀ m received now,
      let p' := foldl run_op (msg_callback p topic m received) ops in
      get_topic_data p' topic now
        = (p', Some {| data := convert_message_to_dict m;
                       td_received_at := Some received |})
      ∧ is_topic_available p' topic now = (p', true).
Proof.
  intros Hdyn Hst. split.
  - by apply foldl_run_op_not_dynamic.
  - intros m received now p'.
    destruct (foldl_run_op_not_dynamic ops (msg_callback p topic m received) topic Hdyn)
      as (Ht & Hs & Hc).
    fold p' in Ht, Hs, Hc.
    cbn [msg_callback msg_cache set_msg_cache topics static_topics] in Ht, Hs, Hc.
    rewrite lookup_insert_eq in Hc.
    split.
    + assert (Hdyn' : topics p' !! topic = None) by (by rewrite Ht).
      by rewrite (get_topic_data_not_dynamic p' topic _ now Hdyn' Hc).
    + eapply is_topic_available_static; [| | exact Hc].
      * by rewrite Ht.
      * by rewrite Hs.
Qed.

(** C9. The callback stores a message for any topic name.  For a name
    that is in neither [topics] nor [static_topics] the stored value is
    returned by [get_topic_data] at any time, and the name is in neither the
    status dict nor [list_topics]. *)
Theorem unconfigured_topic_stored_not_listed (p : plugin) topic m received :
  topics p !! topic = None →
  static_topics p !! topic = None →
  let p' := msg_callback p topic m received in
  msg_cache p' !! topic
    = Some {| raw_message := Some m; received_at := Some received |}
  ∧ (∀ now, get_topic_data p' topic now
              = (p', Some {| data := convert_message_to_dict m;
                             td_received_at := Some received |}))
  ∧ (∀ now, (get_all_topics_status p' now).2 !! topic = None)
  ∧ topic ∉ list_topics p'.
Proof.
  intros Hdyn Hst p'.
  assert (Hc : msg_cache p' !! topic
               = Some {| raw_message := Some m; received_at := Some received |}).
  { unfold p', msg_callback. cbn [msg_cache set_msg_cache].
    apply lookup_insert_eq. }
  split; [exact Hc |]. split; [| split].
  - intros now. by rewrite (get_topic_data_not_dynamic p' topic _ now Hdyn Hc).
  - intros now. apply eq_None_not_Some. rewrite get_all_topics_status_keys.
    cbn [msg_callback topics static_topics set_msg_cache p'].
    rewrite Hdyn, Hst. by intros [[? ?] | [? ?]].
  - unfold list_topics. rewrite elem_of_app, !elem_of_keys.
    cbn [msg_callback topics static_topics set_msg_cache p'].
    rewrite Hdyn, Hst. by intros [[? ?] | [? ?]].
Qed.

(** *** Start-up *)

Lemma try_subscribe_frame acc item :
  topics (try_subscribe acc item).1 = topics acc.1
  ∧ static_topics (try_subscribe acc item).1 = static_topics acc.1
  ∧ msg_cache (try_subscribe acc item).1 = msg_cache acc.1
  ∧ is_running (try_subscribe acc item).1 = is_running acc.1
  ∧ status_thread (try_subscribe acc item).1 = status_thread acc.1.
Proof.
  unfold try_subscribe, _create_subscriber.
  by destruct (create_ok item.1 item.2).
Qed.

Lemma try_subscribe_subscribers acc item topic :
  is_Some (subscribers (try_subscribe acc item).1 !! topic)
    ↔ is_Some (subscribers acc.1 !! topic)
      ∨ (item.1 = topic ∧ create_ok item.1 item.2 = true).
Proof.
  unfold try_subscribe, _create_subscriber.
  destruct (create_ok item.1 item.2); cbn [fst subscribers set_subscribers].
  - rewrite lookup_insert. destruct (decide (item.1 = topic)) as [-> | Hne].
    + split; [intros _; by right | intros _; by eexists].
    + split; [by left | by intros [? | [? _]]].
  - split; [by left | by intros [? | [_ ?]]].
Qed.

Lemma try_subscribe_failed acc item topic :
  topic ∈ (try_subscribe acc item).2
    ↔ topic ∈ acc.2 ∨ (item.1 = topic ∧ create_ok item.1 item.2 = false).
Proof.
  unfold try_subscribe, _create_subscriber.
  destruct (create_ok item.1 item.2); cbn [snd].
  - split; [by left | by intros [? | [_ ?]]].
  - rewrite elem_of_app, list_elem_of_singleton.
    split; (intros [? | ?]; [by left | right]); [done | by destruct H].
Qed.

Lemma subscribe_all_frame items acc :
  topics (subscribe_all acc items).1 = topics acc.1
  ∧ static_topics (subscribe_all acc items).1 = static_topics acc.1
  ∧ msg_cache (subscribe_all acc items).1 = msg_cache acc.1
  ∧ is_running (subscribe_all acc items).1 = is_running acc.1
  ∧ status_thread (subscribe_all acc items).1 = status_thread acc.1.
Proof.
  unfold subscribe_all. revert acc.
  induction items as [| item items IH]; intros acc; [done |].
  cbn [foldl]. destruct (IH (try_subscribe acc item)) as (-> & -> & -> & -> & ->).
  apply try_subscribe_frame.
Qed.

(** The pass attempts every item: each one ends up subscribed or failed. *)
Lemma subscribe_all_subscribers items acc topic :
  is_Some (subscribers (subscribe_all acc items).1 !! topic)
    ↔ is_Some (subscribers acc.1 !! topic)
      ∨ ∃ ty, (topic, ty) ∈ items ∧ create_ok topic ty = true.
Proof.
  unfold subscribe_all. revert acc.
  induction items as [| item items IH]; intros acc.
  - cbn [foldl]. split; [by left |].
    intros [? | (ty & Hin & _)]; [done | by apply elem_of_nil in Hin].
  - cbn [foldl]. rewrite IH, try_subscribe_subscribers. split.
    + intros [[? | [<- Hok]] | (ty & Hin & Hok)].
      * by left.
      * right. exists item.2. split; [| done].
        destruct item. apply list_elem_of_here.
      * right. exists ty. split; [by apply list_elem_of_further | done].
    + intros [? | (ty & Hin & Hok)].
      * left. by left.
      * apply elem_of_cons in Hin as [<- | Hin].
        -- left. right. by split.
        -- right. by exists ty.
Qed.

Lemma subscribe_all_failed items acc topic :
  topic ∈ (subscribe_all acc items).2
    ↔ topic ∈ acc.2 ∨ ∃ ty, (topic, ty) ∈ items ∧ create_ok topic ty = false.
Proof.
  unfold subscribe_all. revert acc.
  induction items as [| item items IH]; intros acc.
  - cbn [foldl]. split; [by left |].
    intros [? | (ty & Hin & _)]; [done | by apply elem_of_nil in Hin].
  - cbn [foldl]. rewrite IH, try_subscribe_failed. split.
    + intros [[? | [<- Hok]] | (ty & Hin & Hok)].
      * by left.
      * right. exists item.2. split; [| done].
        destruct item. apply list_elem_of_here.
      * right. exists ty. split; [by apply list_elem_of_further | done].
    + intros [? | (ty & Hin & Hok)].
      * left. by left.
      * apply elem_of_cons in Hin as [<- | Hin].
        -- left. right. by split.
        -- right. by exists ty.
Qed.

(** C2. [start] on a plugin that is not running and holds no
    subscriber tries every configured topic, dynamic ones first: a topic
    whose subscriber cannot be created goes to [failed_topics] and the pass
    goes on.  [start] raises exactly when topics are configured and no
    subscriber at all could be created; otherwise the plugin runs with
    exactly the subscribers that could be created. *)
Theorem start_isolates_failures (p : plugin) :
  is_running p = false →
  subscribers p = ∅ →
  let result := start p in
  (∀ topic, topic ∈ failed_topics_of result.2
     ↔ ∃ ty, configured_as p topic ty ∧ create_ok topic ty = false)
  ∧ (raised result.2 = true
       ↔ (0 < size (topics p) + size (static_topics p))%nat
         ∧ ∀ topic ty, configured_as p topic ty → create_ok topic ty = false)
  ∧ (raised result.2 = false →
       is_running result.1 = true
       ∧ ∀ topic, is_Some (subscribers result.1 !! topic)
           ↔ ∃ ty, configured_as p topic ty ∧ create_ok topic ty = true)
  ∧ (raised result.2 = true →
       is_running result.1 = false ∧ subscribers result.1 = ∅).
Proof.
  intros Hrun Hsubs result.
  set (dyn := subscribe_all (p, []) (map_to_list (topics p))).
  set (all := subscribe_all dyn (map_to_list (static_topics p))).
  assert (Hcreated : ∀ topic, is_Some (subscribers all.1 !! topic)
            ↔ ∃ ty, configured_as p topic ty ∧ create_ok topic ty = true).
  { intros topic. unfold all, dyn, configured_as.
    rewrite !subscribe_all_subscribers. cbn [fst]. rewrite Hsubs, lookup_empty.
    setoid_rewrite elem_of_map_to_list. split.
    - intros [[[? ?] | (ty & ? & ?)] | (ty & ? & ?)]; [done | |];
        exists ty; (split; [| done]); [by left | by right].
    - intros (ty & [? | ?] & ?); [left; right | right]; by exists ty. }
  assert (Hfailed : ∀ topic, topic ∈ all.2
            ↔ ∃ ty, configured_as p topic ty ∧ create_ok topic ty = false).
  { intros topic. unfold all, dyn, configured_as.
    rewrite !subscribe_all_failed. cbn [snd].
    setoid_rewrite elem_of_map_to_list. split.
    - intros [[Hin | (ty & ? & ?)] | (ty & ? & ?)];
        [by apply elem_of_nil in Hin | |];
        exists ty; (split; [| done]); [by left | by right].
    - intros (ty & [? | ?] & ?); [left; right | right]; by exists ty. }
  assert (Hnone : subscribers all.1 = ∅
            ↔ ∀ topic ty, configured_as p topic ty → create_ok topic ty = false).
  { rewrite map_empty. split.
    - intros Hempty topic ty Hcfg.
      destruct (create_ok topic ty) eqn:Hok; [| done].
      assert (is_Some (subscribers all.1 !! topic)) as [? Hsome]
        by (apply Hcreated; by exists ty).
      by rewrite Hempty in Hsome.
    - intros Hall topic. apply eq_None_not_Some.
      intros (ty & Hcfg & Hok)%Hcreated. by rewrite (Hall topic ty Hcfg) in Hok. }
  assert (Hresult : result
            = if decide (subscribers all.1 = ∅
                         ∧ (0 < size (topics p) + size (static_topics p))%nat)
              then (_cleanup_subscribers (set_running all.1 false (status_thread all.1)),
                    StartFailed all.2)
              else (set_running all.1 true true, Started all.2)).
  { unfold result, start. by rewrite Hrun. }
  rewrite Hresult. clear Hresult.
  destruct (decide _) as [[Hempty Htotal] | Hsome];
    cbn [fst snd raised failed_topics_of].
  - split; [exact Hfailed |]. split.
    + split; [intros _ | done]. split; [done | by apply Hnone].
    + split; [done |]. intros _. done.
  - split; [exact Hfailed |]. split.
    + split; [done |]. intros [Htotal Hall]. exfalso. apply Hsome.
      split; [by apply Hnone | done].
    + split; [| done]. intros _. split; [done |]. exact Hcreated.
Qed.

End Plugin.

(** *** Scenarios

    A container with one dynamic topic [/a] and one static topic [/b];
    messages are strings and are sent as they are. *)

Definition demo_plugin : ROS2TopicSubscriber string :=
  init "robot" {[ "/a" := "sensor_msgs/msg/JointState" ]}
    (Some {[ "/b" := "std_msgs/msg/String" ]}) 30 None None.

Definition demo_convert (m : string) : string := m.

(** [/a] has received ["hello"] at clock reading 0. *)
Definition demo_received_a : ROS2TopicSubscriber string :=
  msg_callback demo_plugin "/a" "hello" 0.

(** [/b] has received ["urdf"] at 0, and the cache has since seen a periodic
    check, a status pass, reads of both topics and an availability check. *)
Definition demo_ops : list CacheOp :=
  [OpSweep 10; OpStatus 50; OpGet "/a" 60; OpGet "/b" 60; OpIsAvailable "/b" 99].

Definition demo_later_b : ROS2TopicSubscriber string :=
  foldl (run_op demo_convert) (msg_callback demo_plugin "/b" "urdf" 0) demo_ops.

(** A value has arrived for [/other], which is not configured. *)
Definition demo_other : ROS2TopicSubscriber string :=
  msg_callback demo_plugin "/other" "x" 5.

(** Feeds [x], [y], [z], of which only [y] cannot be subscribed to. *)
Definition xyz_plugin : ROS2TopicSubscriber string :=
  init "robot" {[ "x" := "T"; "y" := "T" ]} (Some {[ "z" := "T" ]}) 30 None None.

Definition xyz_create_ok (topic ty : string) : bool :=
  negb (String.eqb topic "y").

Definition xyz_started : ROS2TopicSubscriber string * StartOutcome :=
  start xyz_create_ok xyz_plugin.

(** [/a] receives a value at 0: a read at 1s returns it, a read at 4s
    evicts it and returns nothing. *)
Lemma get_topic_data_staleness_scenario :
  get_topic_data demo_convert demo_received_a "/a" 1
    = (demo_received_a, Some {| data := "hello"; td_received_at := Some 0%Q |})
  ∧ get_topic_data demo_convert demo_received_a "/a" 4
    = (set_msg_cache demo_received_a (delete "/a" (msg_cache demo_received_a)), None).
Proof.
  split.
  - apply (get_topic_data_staleness demo_convert demo_received_a "/a"
             {| raw_message := Some "hello"; received_at := Some 0%Q |} 0 1).
    + by eexists.
    + reflexivity.
    + reflexivity.
    + by vm_compute.
    + reflexivity.
  - apply (get_topic_data_staleness demo_convert demo_received_a "/a"
             {| raw_message := Some "hello"; received_at := Some 0%Q |} 0 4).
    + by eexists.
    + reflexivity.
    + reflexivity.
    + by vm_compute.
Defined.

(** [/b] receives a value at 0; a periodic check, a status pass, reads of
    both topics and an availability check later, a read at 100s still
    returns it. *)
Lemma static_entry_never_evicted_scenario :
  get_topic_data demo_convert demo_later_b "/b" 100
    = (demo_later_b, Some {| data := "urdf"; td_received_at := Some 0%Q |}).
Proof.
  apply (static_entry_never_evicted demo_convert demo_plugin "/b" demo_ops).
  - reflexivity.
  - by eexists.
Defined.

(** A value put for [/other], which is not configured, can be read but is
    not listed. *)
Lemma unconfigured_topic_scenario :
  get_topic_data demo_convert demo_other "/other" 1000
    = (demo_other, Some {| data := "x"; td_received_at := Some 5%Q |})
  ∧ (get_all_topics_status demo_other 1000).2 !! "/other" = None
  ∧ "/other" ∉ list_topics demo_other.
Proof.
  destruct (unconfigured_topic_stored_not_listed demo_convert demo_plugin
              "/other" "x" 5 eq_refl eq_refl) as (_ & Hget & Hstatus & Hlist).
  split; [apply Hget |]. split; [apply Hstatus | apply Hlist].
Defined.

(** With feeds [x], [y], [z] where only [y]'s creation throws, [start]
    returns normally with [x] and [z] subscribed, [y] not, and [y] as the
    only failed topic. *)
Lemma start_isolates_failures_scenario :
  raised xyz_started.2 = false
  ∧ is_running xyz_started.1 = true
  ∧ is_Some (subscribers xyz_started.1 !! "x")
  ∧ is_Some (subscribers xyz_started.1 !! "z")
  ∧ subscribers xyz_started.1 !! "y" = None
  ∧ "y" ∈ failed_topics_of xyz_started.2.
Proof.
  destruct (start_isolates_failures xyz_create_ok xyz_plugin eq_refl eq_refl)
    as (Hfailed & _ & Hstarted & _).
  fold xyz_started in Hfailed, Hstarted.
  assert (Hok : raised xyz_started.2 = false) by reflexivity.
  destruct (Hstarted Hok) as [Hrun Hsubs].
  split; [exact Hok |]. split; [exact Hrun |].
  split; [| split; [| split]].
  - apply Hsubs. exists "T". split; [left |]; reflexivity.
  - apply Hsubs. exists "T". split; [right |]; reflexivity.
  - apply eq_None_not_Some. intros (ty & _ & Hcreate)%Hsubs. discriminate Hcreate.
  - apply Hfailed. exists "T". split; [left |]; reflexivity.
Defined.

(** C5 does not hold for an entry stamped 0: at time 10 the read evicts
    it, the status pass keeps it (and reports it available). *)
Lemma status_keeps_entry_stamped_zero :
  is_Some (topics demo_received_a !! "/a")
  ∧ ¬ status_mirrors_get demo_convert demo_received_a "/a" 10.
Proof.
  split; [by eexists |].
  intros [[_ Hkept] _].
  assert (Hread : evicted (msg_cache demo_received_a)
                    (msg_cache (get_topic_data demo_convert demo_received_a "/a" 10).1)
                    "/a").
  { split; [by eexists | reflexivity]. }
  destruct (Hkept Hread) as [_ Hgone].
  vm_compute in Hgone. discriminate Hgone.
Qed.

(** On entries with a positive timestamp the two agree: stamped 1 and
    read at 10, the entry is evicted by both. *)
Lemma status_mirrors_get_scenario :
  status_mirrors_get demo_convert (msg_callback demo_plugin "/a" "hello" 1) "/a" 10.
Proof.
  apply status_mirrors_get_on_stamped_entries.
  - by eexists.
  - intros cached Hc. vm_compute in Hc. injection Hc as <-.
    split; [by eexists |]. intros r Hr. injection Hr as <-. reflexivity.
Defined.

End Subscriber.

(** ** Response models ([talos/models.py]) *)
Module Models.

Record ROS2TopicDataResponse (Data : Type) := {
  container : string;
  topic : string;
  msg_type : string;
  data : option Data;
  available : bool;
  domain_id : Z
}.
Arguments container {Data} _.
Arguments topic {Data} _.
Arguments msg_type {Data} _.
Arguments data {Data} _.
Arguments available {Data} _.
Arguments domain_id {Data} _.
Arguments Build_ROS2TopicDataResponse {Data} _ _ _ _ _ _.

End Models.

(** ** Application state ([state.py]) *)
Module State.

(** [_config] (of which only the container names matter here) and
    [_ros2_plugins]. *)
Record AppState (Msg : Type) := {
  _config : option (gset string);
  _ros2_plugins : gmap string (Subscriber.ROS2TopicSubscriber Msg)
}.
Arguments _config {Msg} _.
Arguments _ros2_plugins {Msg} _.
Arguments Build_AppState {Msg} _ _.

Definition get_ros2_plugin {Msg : Type} (st : AppState Msg) (container_name : string)
    : option (Subscriber.ROS2TopicSubscriber Msg) :=
  match _config st with
  | None => None
  | Some containers =>
      if decide (container_name ∈ containers)
      then _ros2_plugins st !! container_name
      else None
  end.

(** The plugin object is shared: what a handler does to it is seen by the
    registry. *)
Definition update_plugin {Msg : Type} (st : AppState Msg) (container_name : string)
    (p : Subscriber.ROS2TopicSubscriber Msg) : AppState Msg :=
  {| _config := _config st;
     _ros2_plugins := <[container_name := p]> (_ros2_plugins st) |}.

End State.

(** ** The HTTP router ([talos/routers/ros2.py]) *)
Module Ros2Router.

(** How a handler ends: with a response, with an [HTTPException], or with
    an uncaught [KeyError]. *)
Inductive Outcome (A : Type) :=
  | Returned (response : A)
  | HTTPException (status_code : Z)
  | KeyError (key : string).
Arguments Returned {A} _.
Arguments HTTPException {A} _.
Arguments KeyError {A} _.

Section Router.
Context {Msg Data : Type}.
Variable convert_message_to_dict : Msg → Data.

(** [get_ros2_topic_data]; the two clock readings are those of
    [get_topic_data] and [is_topic_available]. *)
Definition get_ros2_topic_data (st : State.AppState Msg) (container topic : string)
    (t_get t_available : Q)
    : State.AppState Msg * Outcome (Models.ROS2TopicDataResponse Data) :=
  match State._config st with
  | None => (st, HTTPException 503)
  | Some containers =>
      if decide (container ∉ containers) then (st, HTTPException 404)
      else
        match State.get_ros2_plugin st container with
        | None => (st, HTTPException 503)
        | Some plugin =>
            if decide (topic ∉ Subscriber.list_topics plugin)
            then (st, HTTPException 404)
            else
              let got :=
                Subscriber.get_topic_data convert_message_to_dict plugin topic t_get in
              let checked := Subscriber.is_topic_available got.1 topic t_available in
              let data := Subscriber.data <$> got.2 in
              let st' := State.update_plugin st container checked.1 in
              match Subscriber.topics checked.1 !! topic with
              | Some ty =>
                  (st', Returned {| Models.container := container;
                                    Models.topic := topic;
                                    Models.msg_type := ty;
                                    Models.data := data;
                                    Models.available := checked.2;
                                    Models.domain_id := Subscriber.domain_id checked.1 |})
              | None => (st', KeyError topic)
              end
        end
  end.

Lemma is_topic_available_config (p : Subscriber.ROS2TopicSubscriber Msg) topic now :
  Subscriber.topics (Subscriber.is_topic_available p topic now).1 = Subscriber.topics p
  ∧ Subscriber.static_topics (Subscriber.is_topic_available p topic now).1
    = Subscriber.static_topics p.
Proof.
  apply (Subscriber.run_op_config convert_message_to_dict p
           (Subscriber.OpIsAvailable topic now)).
Qed.

Lemma get_topic_data_config (p : Subscriber.ROS2TopicSubscriber Msg) topic now :
  Subscriber.topics (Subscriber.get_topic_data convert_message_to_dict p topic now).1
    = Subscriber.topics p
  ∧ Subscriber.static_topics
      (Subscriber.get_topic_data convert_message_to_dict p topic now).1
    = Subscriber.static_topics p.
Proof.
  apply (Subscriber.run_op_config convert_message_to_dict p
           (Subscriber.OpGet topic now)).
Qed.

(** C10. A configured static topic passes the endpoint's validation
    ([list_topics] has it) and then [plugin.topics[topic]] raises [KeyError]:
    the handler returns a response only for dynamic topics. *)
Theorem get_ros2_topic_data_static_key_error
    (st : State.AppState Msg) containers container plugin topic t_get t_available :
  State._config st = Some containers →
  container ∈ containers →
  State._ros2_plugins st !! container = Some plugin →
  (Subscriber.topics plugin !! topic = None →
   is_Some (Subscriber.static_topics plugin !! topic) →
     topic ∈ Subscriber.list_topics plugin
     ∧ (get_ros2_topic_data st container topic t_get t_available).2 = KeyError topic)
  ∧ (is_Some (Subscriber.topics plugin !! topic) →
       topic ∈ Subscriber.list_topics plugin
       ∧ ∃ response,
           (get_ros2_topic_data st container topic t_get t_available).2
             = Returned response).
Proof.
  intros Hcfg Hin Hplugin.
  assert (Hget : State.get_ros2_plugin st container = Some plugin).
  { unfold State.get_ros2_plugin. rewrite Hcfg.
    by destruct (decide (container ∈ containers)). }
  assert (Htopics :
    Subscriber.topics
      (Subscriber.is_topic_available
         (Subscriber.get_topic_data convert_message_to_dict plugin topic t_get).1
         topic t_available).1 = Subscriber.topics plugin).
  { destruct (is_topic_available_config
                (Subscriber.get_topic_data convert_message_to_dict plugin topic t_get).1
                topic t_available) as [-> _].
    apply get_topic_data_config. }
  unfold get_ros2_topic_data. rewrite Hcfg, Hget.
  destruct (decide (container ∉ containers)) as [Hno | _]; [contradiction |].
  split.
  - intros Hdyn Hstatic.
    assert (Hlisted : topic ∈ Subscriber.list_topics plugin).
    { unfold Subscriber.list_topics. rewrite elem_of_app, !Subscriber.elem_of_keys.
      by right. }
    split; [exact Hlisted |].
    destruct (decide (topic ∉ Subscriber.list_topics plugin)) as [Hno | _];
      [contradiction |].
    cbv zeta. by rewrite Htopics, Hdyn.
  - intros [ty Hty].
    assert (Hlisted : topic ∈ Subscriber.list_topics plugin).
    { unfold Subscriber.list_topics. rewrite elem_of_app, !Subscriber.elem_of_keys.
      left. by exists ty. }
    split; [exact Hlisted |].
    destruct (decide (topic ∉ Subscriber.list_topics plugin)) as [Hno | _];
      [contradiction |].
    cbv zeta. rewrite Htopics, Hty. by eexists.
Qed.

End Router.

(** The demo container: [/b] is static and has a cached value, yet the
    endpoint ends in [KeyError]; [/a] is dynamic and is answered. *)
Definition demo_state : State.AppState string :=
  {| State._config := Some {[ "robot" ]};
     State._ros2_plugins :=
       {[ "robot" := Subscriber.msg_callback Subscriber.demo_plugin "/b" "urdf" 0 ]} |}.

Lemma get_ros2_topic_data_scenario :
  (get_ros2_topic_data Subscriber.demo_convert demo_state "robot" "/b" 1 1).2
    = KeyError "/b"
  ∧ ∃ response,
      (get_ros2_topic_data Subscriber.demo_convert demo_state "robot" "/a" 1 1).2
        = Returned response.
Proof.
  split.
  - apply (get_ros2_topic_data_static_key_error Subscriber.demo_convert demo_state
             {[ "robot" ]} "robot"
             (Subscriber.msg_callback Subscriber.demo_plugin "/b" "urdf" 0) "/b" 1 1).
    + reflexivity.
    + by apply elem_of_singleton.
    + reflexivity.
    + reflexivity.
    + by eexists.
  - apply (get_ros2_topic_data_static_key_error Subscriber.demo_convert demo_state
             {[ "robot" ]} "robot"
             (Subscriber.msg_callback Subscriber.demo_plugin "/b" "urdf" 0) "/a" 1 1).
    + reflexivity.
    + by apply elem_of_singleton.
    + reflexivity.
    + by eexists.
Defined.

End Ros2Router.

(** ** The WebSocket router ([talos/routers/websocket.py]): topic sessions *)
Module TopicSession.

Definition LOG_POLL_INTERVAL : Q := 1 # 2.
Definition ROS2_TOPIC_MAX_SEND_RATE : Q := 10.

(** [min_interval] as the handler computes it. *)
Definition min_interval : Q := 1 / ROS2_TOPIC_MAX_SEND_RATE.

(** What the loop sleeps between two passes.  A pass happens when the loop
    wakes up, at the clock reading its tick carries. *)
Definition poll_sleep : Q :=
  if decide (LOG_POLL_INTERVAL <= min_interval)%Q then LOG_POLL_INTERVAL else min_interval.

(** The JSON messages a topic session sends. *)
Inductive TopicFrame (Data : Type) :=
  | ErrorFrame (message : string)
  | DataFrame (response : Models.ROS2TopicDataResponse Data).
Arguments ErrorFrame {Data} _.
Arguments DataFrame {Data} _.

(** What [_poll_and_send_single_topic_data] returns, or the [KeyError] of
    [_get_topic_msg_type]. *)
Inductive PollResult :=
  | Polled (connection_alive : bool) (new_last_send_time : Q)
      (new_last_sent_data_hash : option Z)
  | PollKeyError.

(** What one pass of the poll loop finds: the cache as the other threads
    left it, the three clock readings of the pass (at its start, in
    [get_topic_data], in [is_topic_available]) and whether a send on the
    connection goes through. *)
Record PollTick (Msg : Type) := {
  tick_cache : gmap string (Subscriber.CacheEntry Msg);
  tick_time : Q;
  tick_get_time : Q;
  tick_available_time : Q;
  tick_ws_ok : bool
}.
Arguments tick_cache {Msg} _.
Arguments tick_time {Msg} _.
Arguments tick_get_time {Msg} _.
Arguments tick_available_time {Msg} _.
Arguments tick_ws_ok {Msg} _.
Arguments Build_PollTick {Msg} _ _ _ _ _.

(** What the handler finds when the connection is accepted; [connect_time]
    is the reading taken once the first message has been sent. *)
Record ConnectEnv := {
  connect_get_time : Q;
  connect_available_time : Q;
  connect_ws_ok : bool;
  connect_time : Q
}.

Section Session.
Context {Msg Data : Type}.
Variable convert_message_to_dict : Msg → Data.

(** [hash(str(data))]: the interpreter's string hash. *)
Variable hash_str : Data → Z.

Local Abbreviation plugin := (Subscriber.ROS2TopicSubscriber Msg).
Local Abbreviation frame := (TopicFrame Data).

(** [_send_websocket_data]: [False] when the socket is not connected or
    [send_json] raises; nothing is sent then. *)
Definition _send_websocket_data (ws_ok : bool)
    (response : Models.ROS2TopicDataResponse Data) : bool * list frame :=
  if ws_ok then (true, [DataFrame response]) else (false, []).

(** [_send_websocket_error] *)
Definition _send_websocket_error (ws_ok : bool) (message : string) : bool * list frame :=
  if ws_ok then (true, [ErrorFrame message]) else (false, []).

(** [_get_topic_msg_type]; [None] is the [KeyError]. *)
Definition _get_topic_msg_type (p : plugin) (topic : string) : option string :=
  match Subscriber.topics p !! topic with
  | Some ty => Some ty
  | None => Subscriber.static_topics p !! topic
  end.

(** The block that the source writes out at each of its sends: look up the
    type, build the response, send it, and return the new tracking state. *)
Definition send_update (ws_ok : bool) (container : string) (p : plugin)
    (topic : string) (data : option Data) (available : bool)
    (current_time : Q) (new_hash : option Z) : plugin * list frame * PollResult :=
  match _get_topic_msg_type p topic with
  | Some ty =>
      let sent :=
        _send_websocket_data ws_ok
          {| Models.container := container; Models.topic := topic;
             Models.msg_type := ty; Models.data := data;
             Models.available := available;
             Models.domain_id := Subscriber.domain_id p |} in
      (p, sent.2, Polled sent.1 current_time new_hash)
  | None => (p, [], PollKeyError)
  end.

(** [_poll_and_send_single_topic_data].  The converted message is never
    [None], so [data_hash] is always a hash. *)
Definition _poll_and_send_single_topic_data (ws_ok : bool) (container : string)
    (p : plugin) (topic : string) (last_send_time : Q)
    (last_sent_data_hash : option Z) (min_interval : Q)
    (current_time t_get t_available : Q) : plugin * list frame * PollResult :=
  let time_since_last_send := (current_time - last_send_time)%Q in
  if decide (time_since_last_send < min_interval)%Q
  then (p, [], Polled true last_send_time last_sent_data_hash)
  else
    let got := Subscriber.get_topic_data convert_message_to_dict p topic t_get in
    let checked := Subscriber.is_topic_available got.1 topic t_available in
    let available := checked.2 in
    match got.2 with
    | Some cached_data =>
        let data := Subscriber.data cached_data in
        let data_hash := Some (hash_str data) in
        if decide (data_hash ≠ last_sent_data_hash ∨ available = false)
        then send_update ws_ok container checked.1 topic (Some data) available
               current_time data_hash
        else (checked.1, [], Polled true last_send_time last_sent_data_hash)
    | None =>
        if available
        then (checked.1, [], Polled true last_send_time last_sent_data_hash)
        else
          match last_sent_data_hash with
          | None =>
              send_update ws_ok container checked.1 topic None false
                current_time (Some (-1)%Z)
          | Some h =>
              if decide (h ≠ (-1)%Z)
              then send_update ws_ok container checked.1 topic None false
                     current_time (Some (-1)%Z)
              else (checked.1, [], Polled true last_send_time last_sent_data_hash)
          end
    end.

(** The [while True] loop of [websocket_ros2_topic_data]: the frames it
    sends, each with the clock reading of its pass.  The loop returns when a
    send fails; a [KeyError] is caught around the loop and ends it too. *)
Fixpoint poll_loop (container : string) (p : plugin) (topic : string)
    (min_interval : Q) (ticks : list (PollTick Msg))
    (last_send_time : Q) (last_sent_data_hash : option Z) : list (Q * frame) :=
  match ticks with
  | [] => []
  | tick :: ticks' =>
      let pass :=
        _poll_and_send_single_topic_data (tick_ws_ok tick) container
          (Subscriber.set_msg_cache p (tick_cache tick)) topic
          last_send_time last_sent_data_hash min_interval
          (tick_time tick) (tick_get_time tick) (tick_available_time tick) in
      ((tick_time tick ,.) <$> pass.1.2)
      ++ match pass.2 with
         | Polled true new_last_send_time new_last_sent_data_hash =>
             poll_loop container p topic min_interval ticks'
               new_last_send_time new_last_sent_data_hash
         | Polled false _ _ => []
         | PollKeyError => []
         end
  end.

(** The first send of [websocket_ros2_topic_data], before the loop: the
    frames, [last_send_time] and [last_sent_data_hash]; [None] when
    [_get_topic_msg_type] raised. *)
Definition initial_send (container : string) (p : plugin) (topic : string)
    (env : ConnectEnv) : option (list (Q * frame) * Q * option Z) :=
  let got :=
    Subscriber.get_topic_data convert_message_to_dict p topic (connect_get_time env) in
  let checked :=
    Subscriber.is_topic_available got.1 topic (connect_available_time env) in
  let available := checked.2 in
  let send data new_hash :=
    match send_update (connect_ws_ok env) container checked.1 topic data available
            (connect_time env) new_hash with
    | (_, frames, Polled true t h) => Some ((connect_time env ,.) <$> frames, t, h)
    | (_, _, Polled false _ _) => Some ([], 0%Q, None)
    | (_, _, PollKeyError) => None
    end in
  match got.2 with
  | Some cached_data =>
      let data := Subscriber.data cached_data in
      send (Some data) (Some (hash_str data))
  | None =>
      if available then Some ([], 0%Q, None) else send None (Some (-1)%Z)
  end.

(** [websocket_ros2_topic_data]: every frame of one session. *)
Definition websocket_ros2_topic_data (st : State.AppState Msg)
    (container topic : string) (env : ConnectEnv) (ticks : list (PollTick Msg))
    : list (Q * frame) :=
  match State.get_ros2_plugin st container with
  | None =>
      let error_msg :=
        match State._config st with
        | None => "Container '" +:+ container +:+ "' not found"
        | Some containers =>
            if decide (container ∉ containers)
            then "Container '" +:+ container +:+ "' not found"
            else "ROS2 plugin for container '" +:+ container +:+ "' is not available. "
                 +:+ "Check if ROS2 configuration exists in config.yml and zenoh connection."
        end in
      (connect_time env ,.) <$> (_send_websocket_error (connect_ws_ok env) error_msg).2
  | Some p =>
      if decide (topic ∉ Subscriber.list_topics p)
      then (connect_time env ,.)
             <$> (_send_websocket_error (connect_ws_ok env)
                    ("Topic '" +:+ topic +:+ "' is not configured for container '"
                     +:+ container +:+ "'")).2
      else
        match initial_send container p topic env with
        | None => []
        | Some (frames, last_send_time, last_sent_data_hash) =>
            frames ++ poll_loop container p topic min_interval ticks
                        last_send_time last_sent_data_hash
        end
  end.

(** The frame that says a topic is unavailable. *)
Definition unavailable_notice (container : string) (p : plugin)
    (topic ty : string) : frame :=
  DataFrame {| Models.container := container; Models.topic := topic;
               Models.msg_type := ty; Models.data := None;
               Models.available := false;
               Models.domain_id := Subscriber.domain_id p |}.

(** A pass finds the topic unavailable: the read returns nothing and the
    availability check says no. *)
Definition unavailable_at (p : plugin) (topic : string) (tick : PollTick Msg) : Prop :=
  let got :=
    Subscriber.get_topic_data convert_message_to_dict
      (Subscriber.set_msg_cache p (tick_cache tick)) topic (tick_get_time tick) in
  got.2 = None
  ∧ (Subscriber.is_topic_available got.1 topic (tick_available_time tick)).2 = false.

(** Two frames of a session in the order sent, at least [min_interval]
    apart. *)
Definition spaced (a b : Q * frame) : Prop := (a.1 + min_interval <= b.1)%Q.

(** *** What a pass can do *)

Lemma min_interval_tenth : (min_interval == 1 # 10)%Q.
Proof. reflexivity. Qed.

Lemma get_topic_data_frame (p : plugin) topic now :
  let got := Subscriber.get_topic_data convert_message_to_dict p topic now in
  Subscriber.topics got.1 = Subscriber.topics p
  ∧ Subscriber.static_topics got.1 = Subscriber.static_topics p
  ∧ Subscriber.domain_id got.1 = Subscriber.domain_id p.
Proof.
  unfold Subscriber.get_topic_data.
  destruct (Subscriber.msg_cache p !! topic) as [cached |]; [| done].
  destruct (decide _); [| done].
  destruct (Subscriber.received_at cached) as [r |]; [| done].
  cbv zeta. by destruct (decide _).
Qed.

Lemma is_topic_available_frame (p : plugin) topic now :
  let checked := Subscriber.is_topic_available p topic now in
  Subscriber.topics checked.1 = Subscriber.topics p
  ∧ Subscriber.static_topics checked.1 = Subscriber.static_topics p
  ∧ Subscriber.domain_id checked.1 = Subscriber.domain_id p.
Proof.
  unfold Subscriber.is_topic_available.
  destruct (decide _); [done |].
  destruct (Subscriber.msg_cache p !! topic) as [cached |]; [| done].
  destruct (decide _); [| done].
  destruct (Subscriber.received_at cached) as [r |]; [| done].
  cbv zeta. by destruct (decide _).
Qed.

(** A send block sends one frame and reports the pass's reading, or sends
    nothing and ends the session. *)
Lemma send_update_cases ws_ok container (p : plugin) topic data available now new_hash :
  let sent := send_update ws_ok container p topic data available now new_hash in
  (sent.1.2 = [] ∧ (sent.2 = PollKeyError ∨ sent.2 = Polled false now new_hash))
  ∨ (∃ f, sent.1.2 = [f] ∧ sent.2 = Polled true now new_hash).
Proof.
  unfold send_update, _send_websocket_data.
  destruct (_get_topic_msg_type p topic) as [ty |]; [| left; split; [done | by left]].
  destruct ws_ok; cbn [fst snd].
  - right. by eexists.
  - left. split; [done | by right].
Qed.

(** A pass sends at most one frame.  When it sends none and goes on, the
    tracking state is what it was; when it sends one, the reading of the pass
    becomes [last_send_time], and it is at least [min_interval] past the
    previous one. *)
Lemma poll_cases ws_ok container (p : plugin) topic last h mi now t_get t_available :
  let pass :=
    _poll_and_send_single_topic_data ws_ok container p topic last h mi
      now t_get t_available in
  (pass.1.2 = []
   ∧ (pass.2 = Polled true last h ∨ pass.2 = PollKeyError
      ∨ ∃ h', pass.2 = Polled false now h'))
  ∨ (∃ f h', pass.1.2 = [f] ∧ pass.2 = Polled true now h' ∧ (last + mi <= now)%Q).
Proof.
  unfold _poll_and_send_single_topic_data. cbv zeta.
  destruct (decide (now - last < mi)%Q) as [Hthrottled | Hdue].
  { left. split; [done | by left]. }
  assert (Hgap : (last + mi <= now)%Q).
  { apply Qnot_lt_le in Hdue. lra. }
  set (got := Subscriber.get_topic_data convert_message_to_dict p topic t_get).
  set (checked := Subscriber.is_topic_available got.1 topic t_available).
  assert (Hsend : ∀ data available new_hash,
    let sent := send_update ws_ok container checked.1 topic data available now new_hash in
    (sent.1.2 = []
     ∧ (sent.2 = Polled true last h ∨ sent.2 = PollKeyError
        ∨ ∃ h', sent.2 = Polled false now h'))
    ∨ (∃ f h', sent.1.2 = [f] ∧ sent.2 = Polled true now h' ∧ (last + mi <= now)%Q)).
  { intros data available new_hash.
    destruct (send_update_cases ws_ok container checked.1 topic data available
                now new_hash) as [[Hnil [Hkey | Hdead]] | (f & Hone & Hres)].
    - left. split; [done |]. right. by left.
    - left. split; [done |]. right. right. by eexists.
    - right. by exists f, new_hash. }
  destruct got.2 as [cached_data |].
  - destruct (decide _); [apply Hsend |]. left. split; [done | by left].
  - destruct checked.2; [left; split; [done | by left] |].
    destruct h as [h |]; [| apply Hsend].
    destruct (decide (h ≠ (-1)%Z)); [apply Hsend |]. left. split; [done | by left].
Qed.

(** The throttle: inside [min_interval] of the last send a pass does
    nothing at all. *)
Lemma poll_throttled ws_ok container (p : plugin) topic last h mi now t_get t_available :
  (now - last < mi)%Q →
  _poll_and_send_single_topic_data ws_ok container p topic last h mi
    now t_get t_available = (p, [], Polled true last h).
Proof.
  intros Hthrottled. unfold _poll_and_send_single_topic_data. cbv zeta.
  destruct (decide (now - last < mi)%Q); [done | contradiction].
Qed.

(** *** Spacing of the frames of a session *)

Lemma poll_loop_spaced container (p : plugin) topic ticks last h :
  Forall (λ f, (last + min_interval <= f.1)%Q)
    (poll_loop container p topic min_interval ticks last h)
  ∧ StronglySorted spaced (poll_loop container p topic min_interval ticks last h).
Proof.
  revert last h. induction ticks as [| tick ticks IH]; intros last h.
  { split; constructor. }
  cbn [poll_loop].
  destruct (poll_cases (tick_ws_ok tick) container
              (Subscriber.set_msg_cache p (tick_cache tick)) topic last h min_interval
              (tick_time tick) (tick_get_time tick) (tick_available_time tick))
    as [[Hnil Hres] | (f & h' & Hone & Hres & Hgap)].
  - rewrite Hnil. cbn [fmap list_fmap app].
    destruct Hres as [-> | [-> | [h' ->]]]; [apply IH | |]; split; constructor.
  - rewrite Hone, Hres. cbn [fmap list_fmap app].
    destruct (IH (tick_time tick) h') as [Hafter Hsorted].
    pose proof min_interval_tenth as Hmi.
    split.
    + constructor; [exact Hgap |].
      eapply Forall_impl; [exact Hafter |]. intros g Hg. cbn beta in Hg |- *. lra.
    + constructor; [exact Hsorted |]. exact Hafter.
Qed.

Lemma initial_send_cases container (p : plugin) topic env :
  initial_send container p topic env = None
  ∨ (∃ last h, initial_send container p topic env = Some ([], last, h))
  ∨ (∃ f h, initial_send container p topic env
              = Some ([(connect_time env, f)], connect_time env, h)).
Proof.
  unfold initial_send. cbv zeta.
  set (got := Subscriber.get_topic_data convert_message_to_dict p topic
                (connect_get_time env)).
  set (checked := Subscriber.is_topic_available got.1 topic
                    (connect_available_time env)).
  assert (Hsend : ∀ data available new_hash,
    let sent := send_update (connect_ws_ok env) container checked.1 topic data
                  available (connect_time env) new_hash in
    match sent with
    | (_, frames, Polled true t h0) =>
        Some ((connect_time env ,.) <$> frames, t, h0)
    | (_, _, Polled false _ _) => Some ([], 0%Q, None)
    | (_, _, PollKeyError) => None
    end = None
    ∨ (∃ last h0,
         match sent with
         | (_, frames, Polled true t h0) =>
             Some ((connect_time env ,.) <$> frames, t, h0)
         | (_, _, Polled false _ _) => Some ([], 0%Q, None)
         | (_, _, PollKeyError) => None
         end = Some ([], last, h0))
    ∨ (∃ f h0,
         match sent with
         | (_, frames, Polled true t h0) =>
             Some ((connect_time env ,.) <$> frames, t, h0)
         | (_, _, Polled false _ _) => Some ([], 0%Q, None)
         | (_, _, PollKeyError) => None
         end = Some ([(connect_time env, f)], connect_time env, h0))).
  { intros data available new_hash.
    pose proof (send_update_cases (connect_ws_ok env) container checked.1 topic data
                  available (connect_time env) new_hash) as Hcases.
    cbv zeta in Hcases |- *.
    destruct (send_update _ _ _ _ _ _ _ _) as [[p' frames] res].
    cbn [fst snd] in Hcases.
    destruct Hcases as [[-> [-> | ->]] | (f & -> & ->)].
    - by left.
    - right. left. by eexists _, _.
    - right. right. by exists f, new_hash. }
  destruct got.2 as [cached_data |]; [apply Hsend |].
  destruct checked.2; [| apply Hsend].
  right. left. by eexists _, _.
Qed.

Lemma session_spaced (st : State.AppState Msg) container topic env ticks :
  StronglySorted spaced (websocket_ros2_topic_data st container topic env ticks).
Proof.
  unfold websocket_ros2_topic_data, _send_websocket_error.
  destruct (State.get_ros2_plugin st container) as [p |].
  2: { destruct (connect_ws_ok env); cbn [snd fmap list_fmap]; repeat constructor. }
  destruct (decide _).
  { destruct (connect_ws_ok env); cbn [snd fmap list_fmap]; repeat constructor. }
  destruct (initial_send_cases container p topic env)
    as [-> | [(last & h & ->) | (f & h & ->)]].
  - constructor.
  - cbn [app]. apply poll_loop_spaced.
  - cbn [app]. destruct (poll_loop_spaced container p topic ticks (connect_time env) h)
      as [Hafter Hsorted].
    constructor; [exact Hsorted | exact Hafter].
Qed.

Lemma StronglySorted_lookup {A} (R : relation A) (l : list A) i j a b :
  StronglySorted R l → (i < j)%nat → l !! i = Some a → l !! j = Some b → R a b.
Proof.
  intros Hsorted. revert i j.
  induction Hsorted as [| x l Hsorted IH Hall]; intros i j Hlt Hi Hj; [done |].
  destruct j as [| j]; [lia |]. cbn in Hj.
  destruct i as [| i].
  - cbn in Hi. injection Hi as <-.
    rewrite Forall_forall in Hall. apply Hall. by eapply list_elem_of_lookup_2.
  - cbn in Hi. apply (IH i j); [lia | done | done].
Qed.

Lemma StronglySorted_filter {A} (R : relation A) (P : A → Prop)
    `{!∀ x, Decision (P x)} (l : list A) :
  StronglySorted R l → StronglySorted R (filter P l).
Proof.
  induction 1 as [| x l Hsorted IH Hall]; [constructor |].
  rewrite filter_cons. destruct (decide (P x)); [| done].
  constructor; [done |].
  rewrite Forall_forall in Hall |- *.
  intros y [_ Hy]%list_elem_of_filter. by apply Hall.
Qed.

(** Frames that are [min_interval] apart and all lie in a window of [n]
    intervals are at most [n]. *)
Lemma spaced_frames_count (l : list (Q * frame)) (w : Q) (n : nat) :
  StronglySorted spaced l →
  Forall (λ f, (w <= f.1)%Q ∧ (f.1 < w + inject_Z (Z.of_nat n) * (1 # 10))%Q) l →
  (length l ≤ n)%nat.
Proof.
  intros Hsorted. revert w n.
  induction Hsorted as [| x l Hsorted IH Hall]; intros w n Hwin; [cbn; lia |].
  apply Forall_cons in Hwin as [[Hlo Hhi] Hwin].
  pose proof min_interval_tenth as Hmi.
  destruct n as [| n].
  { exfalso. assert (Hzero : (inject_Z (Z.of_nat 0) == 0)%Q) by reflexivity. lra. }
  assert (Hsucc : (inject_Z (Z.of_nat (S n)) == inject_Z (Z.of_nat n) + 1)%Q).
  { rewrite Nat2Z.inj_succ. unfold Z.succ. rewrite inject_Z_plus. reflexivity. }
  cbn [length]. apply le_n_S. apply (IH (x.1 + min_interval)%Q).
  rewrite Forall_forall in Hall, Hwin |- *.
  intros f Hf. specialize (Hall f Hf). destruct (Hwin f Hf) as [_ Hfhi].
  unfold spaced in Hall. split; [exact Hall | lra].
Qed.

(** C3. A pass that comes less than [1 / ROS2_TOPIC_MAX_SEND_RATE] (a
    tenth of a second) after the last send sends nothing and changes nothing;
    a pass that sends makes its own clock reading the new [last_send_time].
    Hence, in the order sent, any two frames of a poll loop, and of a whole
    session with its first send, are at least a tenth of a second apart, and
    at most 10 of them fall in a window [w, w + 1) of one second, whatever
    the cache holds at each pass. *)
Theorem topic_session_rate_limited :
  (∀ ws_ok container (p : plugin) topic last h now t_get t_available,
     (now - last < 1 / ROS2_TOPIC_MAX_SEND_RATE)%Q →
     _poll_and_send_single_topic_data ws_ok container p topic last h min_interval
       now t_get t_available = (p, [], Polled true last h))
  ∧ (∀ ws_ok container (p : plugin) topic last h mi now t_get t_available,
       (_poll_and_send_single_topic_data ws_ok container p topic last h mi
          now t_get t_available).1.2 ≠ [] →
       ∃ h', (_poll_and_send_single_topic_data ws_ok container p topic last h mi
                now t_get t_available).2 = Polled true now h')
  ∧ (∀ container (p : plugin) topic ticks last h i j a b,
       (i < j)%nat →
       poll_loop container p topic min_interval ticks last h !! i = Some a →
       poll_loop container p topic min_interval ticks last h !! j = Some b →
       (a.1 + (1 # 10) <= b.1)%Q)
  ∧ (∀ (st : State.AppState Msg) container topic env ticks i j a b,
       (i < j)%nat →
       websocket_ros2_topic_data st container topic env ticks !! i = Some a →
       websocket_ros2_topic_data st container topic env ticks !! j = Some b →
       (a.1 + (1 # 10) <= b.1)%Q)
  ∧ (∀ (st : State.AppState Msg) container topic env ticks w,
       (length (filter (λ f, (w <= f.1)%Q ∧ (f.1 < w + 1)%Q)
                  (websocket_ros2_topic_data st container topic env ticks))
        ≤ 10)%nat).
Proof.
  pose proof min_interval_tenth as Hmi.
  split; [| split; [| split; [| split]]].
  - intros. by apply poll_throttled.
  - intros ws_ok container p topic last h mi now t_get t_available Hsent.
    destruct (poll_cases ws_ok container p topic last h mi now t_get t_available)
      as [[Hnil _] | (f & h' & _ & Hres & _)]; [contradiction |].
    by exists h'.
  - intros container p topic ticks last h i j a b Hlt Ha Hb.
    destruct (poll_loop_spaced container p topic ticks last h) as [_ Hsorted].
    pose proof (StronglySorted_lookup _ _ i j a b Hsorted Hlt Ha Hb) as Hab.
    unfold spaced in Hab. lra.
  - intros st container topic env ticks i j a b Hlt Ha Hb.
    pose proof (StronglySorted_lookup _ _ i j a b
                  (session_spaced st container topic env ticks) Hlt Ha Hb) as Hab.
    unfold spaced in Hab. lra.
  - intros st container topic env ticks w.
    apply (spaced_frames_count _ w 10).
    + apply StronglySorted_filter, session_spaced.
    + rewrite Forall_forall. intros f [[Hlo Hhi] _]%list_elem_of_filter.
      split; [exact Hlo |].
      assert (Hten : (inject_Z (Z.of_nat 10) * (1 # 10) == 1)%Q) by reflexivity.
      lra.
Qed.

(** *** Unavailable notices *)

Lemma get_topic_msg_type_frame (p p' : plugin) topic :
  Subscriber.topics p' = Subscriber.topics p →
  Subscriber.static_topics p' = Subscriber.static_topics p →
  _get_topic_msg_type p' topic = _get_topic_msg_type p topic.
Proof. intros Ht Hs. unfold _get_topic_msg_type. by rewrite Ht, Hs. Qed.

(** A pass that is due and finds the topic unavailable: what it sends and
    returns, by the tracked hash and the state of the connection. *)
Lemma poll_unavailable ws_ok container (p : plugin) topic last h mi now t_get t_available :
  ¬ (now - last < mi)%Q →
  (Subscriber.get_topic_data convert_message_to_dict p topic t_get).2 = None →
  (Subscriber.is_topic_available
     (Subscriber.get_topic_data convert_message_to_dict p topic t_get).1
     topic t_available).2 = false →
  let pass :=
    _poll_and_send_single_topic_data ws_ok container p topic last h mi
      now t_get t_available in
  if decide (h = Some (-1)%Z)
  then pass.1.2 = [] ∧ pass.2 = Polled true last h
  else
    match _get_topic_msg_type p topic with
    | Some ty =>
        if ws_ok
        then pass.1.2 = [unavailable_notice container p topic ty]
             ∧ pass.2 = Polled true now (Some (-1)%Z)
        else pass.1.2 = [] ∧ pass.2 = Polled false now (Some (-1)%Z)
    | None => pass.1.2 = [] ∧ pass.2 = PollKeyError
    end.
Proof.
  intros Hdue Hgot Havailable.
  unfold _poll_and_send_single_topic_data. cbv zeta.
  destruct (decide (now - last < mi)%Q) as [? | _]; [contradiction |].
  rewrite Hgot, Havailable.
  set (got := Subscriber.get_topic_data convert_message_to_dict p topic t_get).
  set (checked := Subscriber.is_topic_available got.1 topic t_available).
  destruct (get_topic_data_frame p topic t_get) as (Ht & Hs & Hd).
  destruct (is_topic_available_frame got.1 topic t_available) as (Ht' & Hs' & Hd').
  fold got in Ht, Hs, Hd. fold checked in Ht', Hs', Hd'.
  assert (Hty : _get_topic_msg_type checked.1 topic = _get_topic_msg_type p topic).
  { apply get_topic_msg_type_frame; congruence. }
  assert (Hsend :
    match _get_topic_msg_type p topic with
    | Some ty =>
        if ws_ok
        then (send_update ws_ok container checked.1 topic None false now
                (Some (-1)%Z)).1.2 = [unavailable_notice container p topic ty]
             ∧ (send_update ws_ok container checked.1 topic None false now
                  (Some (-1)%Z)).2 = Polled true now (Some (-1)%Z)
        else (send_update ws_ok container checked.1 topic None false now
                (Some (-1)%Z)).1.2 = []
             ∧ (send_update ws_ok container checked.1 topic None false now
                  (Some (-1)%Z)).2 = Polled false now (Some (-1)%Z)
    | None =>
        (send_update ws_ok container checked.1 topic None false now
           (Some (-1)%Z)).1.2 = []
        ∧ (send_update ws_ok container checked.1 topic None false now
             (Some (-1)%Z)).2 = PollKeyError
    end).
  { unfold send_update, _send_websocket_data, unavailable_notice. rewrite Hty.
    destruct (_get_topic_msg_type p topic) as [ty |]; [| done].
    destruct ws_ok; cbn [fst snd]; [| done]. by rewrite Hd', Hd. }
  destruct h as [h |].
  - destruct (decide (h ≠ (-1)%Z)) as [Hne | Heq].
    + destruct (decide (Some h = Some (-1)%Z)) as [Hsome | _]; [congruence |].
      exact Hsend.
    + destruct (decide (Some h = Some (-1)%Z)) as [_ | Hno]; [done |].
      exfalso. apply Hno. f_equal. by apply dec_stable.
  - destruct (decide (None = Some (-1)%Z)) as [? | _]; [done |]. exact Hsend.
Qed.

(** While the topic stays unavailable the loop sends at most one frame,
    an unavailable notice, and none at all once the sentinel is set. *)
Lemma poll_loop_unavailable container (p : plugin) topic mi ticks last h :
  Forall (unavailable_at p topic) ticks →
  (h = Some (-1)%Z → poll_loop container p topic mi ticks last h = [])
  ∧ (length (poll_loop container p topic mi ticks last h) ≤ 1)%nat
  ∧ Forall (λ f, ∃ ty, f.2 = unavailable_notice container p topic ty)
      (poll_loop container p topic mi ticks last h).
Proof.
  intros Hticks. revert last h.
  induction Hticks as [| tick ticks [Hgot Havailable] Hticks IH]; intros last h.
  { split; [done |]. split; [cbn; lia | constructor]. }
  cbn [poll_loop].
  destruct (decide (tick_time tick - last < mi)%Q) as [Hthrottled | Hdue].
  { rewrite (poll_throttled _ _ _ _ _ _ _ _ _ _ Hthrottled).
    cbn [fst snd fmap list_fmap app]. apply IH. }
  pose proof (poll_unavailable (tick_ws_ok tick) container
                (Subscriber.set_msg_cache p (tick_cache tick)) topic last h mi
                (tick_time tick) (tick_get_time tick) (tick_available_time tick)
                Hdue Hgot Havailable) as Hpass.
  cbv zeta in Hpass.
  destruct (decide (h = Some (-1)%Z)) as [Hset | Hunset].
  { destruct Hpass as [-> ->]. cbn [fmap list_fmap app]. apply IH. }
  destruct (_get_topic_msg_type _ topic) as [ty |].
  2: { destruct Hpass as [-> ->]. cbn [fmap list_fmap app].
       split; [done |]. split; [cbn; lia | constructor]. }
  destruct (tick_ws_ok tick).
  2: { destruct Hpass as [-> ->]. cbn [fmap list_fmap app].
       split; [done |]. split; [cbn; lia | constructor]. }
  destruct Hpass as [-> ->]. cbn [fmap list_fmap app].
  destruct (IH (tick_time tick) (Some (-1)%Z)) as [Hquiet _].
  rewrite (Hquiet eq_refl).
  split; [done |]. split; [cbn; lia |].
  constructor; [| constructor]. by exists ty.
Qed.

(** C6. On a pass that is not throttled and finds the topic unavailable:
    if the tracked hash is not the sentinel [-1], the pass sends exactly one
    unavailable notice (over a live connection) and sets the sentinel; if it
    is the sentinel, the pass sends nothing and leaves the state alone.  So a
    loop whose passes all find the topic unavailable sends at most one frame,
    and that frame is an unavailable notice. *)
Theorem unavailable_notice_sent_once :
  (∀ container (p : plugin) topic ty last h mi now t_get t_available,
     ¬ (now - last < mi)%Q →
     (Subscriber.get_topic_data convert_message_to_dict p topic t_get).2 = None →
     (Subscriber.is_topic_available
        (Subscriber.get_topic_data convert_message_to_dict p topic t_get).1
        topic t_available).2 = false →
     _get_topic_msg_type p topic = Some ty →
     (h ≠ Some (-1)%Z →
        (_poll_and_send_single_topic_data true container p topic last h mi
           now t_get t_available).1.2 = [unavailable_notice container p topic ty]
        ∧ (_poll_and_send_single_topic_data true container p topic last h mi
             now t_get t_available).2 = Polled true now (Some (-1)%Z))
     ∧ (h = Some (-1)%Z →
          ∀ ws_ok,
            (_poll_and_send_single_topic_data ws_ok container p topic last h mi
               now t_get t_available).1.2 = []
            ∧ (_poll_and_send_single_topic_data ws_ok container p topic last h mi
                 now t_get t_available).2 = Polled true last (Some (-1)%Z)))
  ∧ (∀ container (p : plugin) topic mi ticks last h,
       Forall (unavailable_at p topic) ticks →
       (length (poll_loop container p topic mi ticks last h) ≤ 1)%nat
       ∧ Forall (λ f, ∃ ty, f.2 = unavailable_notice container p topic ty)
           (poll_loop container p topic mi ticks last h)).
Proof.
  split.
  - intros container p topic ty last h mi now t_get t_available
      Hdue Hgot Havailable Hty.
    split.
    + intros Hunset.
      pose proof (poll_unavailable true container p topic last h mi now t_get
                    t_available Hdue Hgot Havailable) as Hpass.
      cbv zeta in Hpass. rewrite Hty in Hpass.
      by destruct (decide (h = Some (-1)%Z)).
    + intros Hset ws_ok.
      pose proof (poll_unavailable ws_ok container p topic last h mi now t_get
                    t_available Hdue Hgot Havailable) as Hpass.
      cbv zeta in Hpass.
      destruct (decide (h = Some (-1)%Z)) as [_ | ?]; [| contradiction].
      by rewrite <- Hset.
  - intros container p topic mi ticks last h Hticks.
    by destruct (poll_loop_unavailable container p topic mi ticks last h Hticks)
      as (_ & ? & ?).
Qed.

End Session.

(** *** Scenarios

    Messages are counters; [/joint_states] is dynamic and is published at
    100 Hz: at pass [n], one every 50 ms from time 100 on, the cache holds
    counter [n], just received. *)

Definition counter_plugin : Subscriber.ROS2TopicSubscriber nat :=
  Subscriber.init "robot" {[ "/joint_states" := "sensor_msgs/msg/JointState" ]}
    None 30 None None.

Definition counter_state : State.AppState nat :=
  {| State._config := Some {[ "robot" ]};
     State._ros2_plugins := {[ "robot" := counter_plugin ]} |}.

Definition counter_convert (m : nat) : nat := m.

Definition counter_hash (d : nat) : Z := Z.of_nat d.

Definition counter_tick (n : nat) : PollTick nat :=
  let now := (100 + inject_Z (Z.of_nat n) * (1 # 20))%Q in
  {| tick_cache :=
       {[ "/joint_states" :=
            {| Subscriber.raw_message := Some n;
               Subscriber.received_at := Some now |} ]};
     tick_time := now; tick_get_time := now; tick_available_time := now;
     tick_ws_ok := true |}.

Definition counter_ticks : list (PollTick nat) := counter_tick <$> seq 1 60.

Definition counter_connect : ConnectEnv :=
  {| connect_get_time := 100; connect_available_time := 100;
     connect_ws_ok := true; connect_time := 100 |}.

Definition counter_session : list (Q * TopicFrame nat) :=
  websocket_ros2_topic_data counter_convert counter_hash counter_state
    "robot" "/joint_states" counter_connect counter_ticks.

(** Passes over a cache that has nothing for the topic. *)
Definition silent_tick (n : nat) : PollTick nat :=
  let now := (100 + inject_Z (Z.of_nat n) * (1 # 2))%Q in
  {| tick_cache := ∅;
     tick_time := now; tick_get_time := now; tick_available_time := now;
     tick_ws_ok := true |}.

Definition silent_ticks : list (PollTick nat) := silent_tick <$> seq 1 5.

Example counter_session_window :
  length (filter (λ f, (100 <= f.1)%Q ∧ (f.1 < 100 + 1)%Q) counter_session) = 10%nat.
Proof. by vm_compute. Qed.

(** Frames exactly a tenth of a second apart: the closed second from 100
    to 101 holds the one sent at 100 and the one sent at 101, eleven in all. *)
Example counter_session_closed_window :
  length (filter (λ f, (100 <= f.1)%Q ∧ (f.1 <= 100 + 1)%Q) counter_session) = 11%nat.
Proof. by vm_compute. Qed.

(** A topic published at 100 Hz and polled every 50 ms: no more than 10
    frames in the second that starts at 100. *)
Lemma topic_session_rate_limited_scenario :
  (length (filter (λ f, (100 <= f.1)%Q ∧ (f.1 < 100 + 1)%Q) counter_session) ≤ 10)%nat.
Proof.
  destruct (topic_session_rate_limited counter_convert counter_hash)
    as (_ & _ & _ & _ & Hwindow).
  apply Hwindow.
Defined.

(** No value for the topic: the first due pass sends the notice, and five
    passes in a row send one frame between them. *)
Lemma unavailable_notice_scenario :
  (_poll_and_send_single_topic_data counter_convert counter_hash true "robot"
     counter_plugin "/joint_states" 0 None min_interval 100 100 100).1.2
    = [unavailable_notice "robot" counter_plugin "/joint_states"
         "sensor_msgs/msg/JointState"]
  ∧ (length (poll_loop counter_convert counter_hash "robot" counter_plugin
               "/joint_states" min_interval silent_ticks 0 None) ≤ 1)%nat.
Proof.
  destruct (unavailable_notice_sent_once counter_convert counter_hash)
    as [Hpass Hloop].
  split.
  - apply (Hpass "robot" counter_plugin "/joint_states" "sensor_msgs/msg/JointState"
             0%Q None min_interval 100%Q 100%Q 100%Q).
    + by vm_compute.
    + reflexivity.
    + reflexivity.
    + reflexivity.
    + done.
  - apply (Hloop "robot" counter_plugin "/joint_states" min_interval silent_ticks
             0%Q None).
    repeat (constructor; [split; reflexivity |]). constructor.
Defined.

End TopicSession.

(** ** The agent's log endpoint ([talos/agent/routers/logs.py]) *)
Module AgentLogs.

(** The JSON the endpoint returns (the service name and the path, which
    it echoes, are left out).  [logs] is a text, held as its UTF-8
    encoding. *)
Record LogsResponse := {
  logs : list Byte.byte;
  tail : option Z;
  cursor : option Z
}.

Inductive AgentOutcome :=
  | AgentReturned (response : LogsResponse)
  | AgentHTTPException (status_code : Z).

Section Agent.

(** [strip_ansi_codes] of [agent/utils.py], a regular-expression
    substitution.  A text is represented by its UTF-8 encoding. *)
Variable strip_ansi_codes : list Byte.byte → list Byte.byte.

(** The [tail -n] subprocess: its output as text, or [None] when it exits
    with an error, times out, or its output cannot be decoded. *)
Variable run_tail : Z → list Byte.byte → option (list Byte.byte).

(** One step of [bytes.decode("utf-8", errors="replace")]: from a byte
    and the bytes after it, the character decoded (U+FFFD for an ill-formed
    sequence) and how many of the bytes after the first belong to it. *)
Variable decode_step : Byte.byte → list Byte.byte → list Byte.byte * nat.

(** The decoder goes through the bytes from left to right, a character
    at a time.  [fuel] bounds the number of steps; the number of bytes is
    enough. *)
Fixpoint decode_from (fuel : nat) (data : list Byte.byte) : list Byte.byte :=
  match fuel, data with
  | S fuel, b :: rest =>
      let step := decode_step b rest in
      step.1 ++ decode_from fuel (drop step.2 rest)
  | _, _ => []
  end.

(** [logs_bytes.decode("utf-8", errors="replace")] *)
Definition decode (data : list Byte.byte) : list Byte.byte :=
  decode_from (length data) data.

(** [get_service_logs].  [log_file] is the content of
    [/var/log/{name}/current], [None] when the file does not exist; [io_ok]
    says whether [stat], [open] and [read] on it succeed; any exception in the
    [try] block ends in a 500. *)
Definition get_service_logs (log_file : option (list Byte.byte)) (io_ok : bool)
    (tail : Z) (strip_ansi : bool) (cursor : option Z) : AgentOutcome :=
  match log_file with
  | None =>
      AgentReturned {| logs := [];
                       tail := match cursor with None => Some tail | Some _ => None end;
                       cursor := Some 0%Z |}
  | Some content =>
      if negb io_ok then AgentHTTPException 500
      else
      match cursor with
      | Some cursor =>
          let current_size := Z.of_nat (length content) in
          let cursor := if decide (cursor < 0)%Z then 0%Z else cursor in
          let cursor := if decide (cursor > current_size)%Z then current_size else cursor in
          let logs_bytes := drop (Z.to_nat cursor) content in
          let new_cursor := (cursor + Z.of_nat (length logs_bytes))%Z in
          let logs := decode logs_bytes in
          AgentReturned
            {| logs := if strip_ansi then strip_ansi_codes logs else logs;
               tail := None;
               cursor := Some new_cursor |}
      | None =>
          match run_tail tail content with
          | None => AgentHTTPException 500
          | Some stdout =>
              let current_size := Z.of_nat (length content) in
              AgentReturned
                {| logs := if strip_ansi then strip_ansi_codes stdout else stdout;
                   tail := Some tail;
                   cursor := Some current_size |}
          end
      end
  end.

End Agent.
End AgentLogs.

(** ** The WebSocket router ([talos/routers/websocket.py]): log sessions *)
Module LogSession.

Definition LOG_POLL_INTERVAL : Q := 1 # 2.
Definition SERVICE_STATUS_CHECK_INTERVAL : Q := 1.
Definition ERROR_RETRY_DELAY : Q := 2.
Definition INITIAL_LOG_TAIL : Z := 100.
Definition FALLBACK_LOG_TAIL : Z := 10000.

(** The JSON messages a log session sends; the logs are a text, held as
    its UTF-8 encoding. *)
Inductive LogFrame :=
  | ErrorFrame (message : string)
  | LogsFrame (logs : list Byte.byte).

Definition payload (f : LogFrame) : list Byte.byte :=
  match f with
  | LogsFrame logs => logs
  | ErrorFrame _ => []
  end.

(** The local variables of [websocket_service_logs] that live across
    iterations of its loop. *)
Record Session := {
  cursor : option Z;
  fallback_logs_sent : bool;
  last_service_status_check : Q;
  service_is_up : bool;
  log_service_is_up : bool
}.

(** What one iteration of the loop finds: the clock, the log file, whether
    the agent answers the log request, what it answers to the two status
    requests ([None]: the request raised; [Some None]: no ["is_up"] in the
    answer), and whether a send on the connection goes through. *)
Record LogTick := {
  tick_time : Q;
  tick_file : option (list Byte.byte);
  tick_agent_up : bool;
  tick_service_status : option (option bool);
  tick_log_service_status : option (option bool);
  tick_ws_ok : bool
}.

Definition set_cursor (s : Session) (c : option Z) : Session :=
  {| cursor := c; fallback_logs_sent := fallback_logs_sent s;
     last_service_status_check := last_service_status_check s;
     service_is_up := service_is_up s; log_service_is_up := log_service_is_up s |}.

Definition set_fallback_logs_sent (s : Session) : Session :=
  {| cursor := cursor s; fallback_logs_sent := true;
     last_service_status_check := last_service_status_check s;
     service_is_up := service_is_up s; log_service_is_up := log_service_is_up s |}.

(** [_check_service_status] *)
Definition _check_service_status (service_status log_service_status : option (option bool))
    : bool * bool :=
  (match service_status with
   | Some response => default false response
   | None => false
   end,
   match log_service_status with
   | Some response => default false response
   | None => true
   end).

(** The periodic status check at the head of an iteration. *)
Definition refresh_status (tick : LogTick) (s : Session) : Session :=
  if decide (tick_time tick - last_service_status_check s
             >= SERVICE_STATUS_CHECK_INTERVAL)%Q
  then
    let status :=
      _check_service_status (tick_service_status tick) (tick_log_service_status tick) in
    {| cursor := cursor s; fallback_logs_sent := fallback_logs_sent s;
       last_service_status_check := tick_time tick;
       service_is_up := status.1; log_service_is_up := status.2 |}
  else s.

(** [_send_websocket_logs] *)
Definition _send_websocket_logs (ws_ok : bool) (logs : list Byte.byte)
    : bool * list LogFrame :=
  if ws_ok then (true, [LogsFrame logs]) else (false, []).

Section Handler.
Variable strip_ansi_codes : list Byte.byte → list Byte.byte.
Variable run_tail : Z → list Byte.byte → option (list Byte.byte).
Variable decode_step : Byte.byte → list Byte.byte → list Byte.byte * nat.

Local Abbreviation decode := (AgentLogs.decode decode_step).

(** [AgentClient.get_service_logs]: the request to the agent, which sends
    [cursor] when there is one and [tail] otherwise; [None] when the request
    or the agent fails (the client raises).  [agent_up] says that the request
    reaches the agent and that the agent can read its file. *)
Definition client_get_service_logs (agent_up : bool)
    (log_file : option (list Byte.byte)) (tail : Z) (cursor : option Z)
    : option AgentLogs.LogsResponse :=
  if agent_up then
    match AgentLogs.get_service_logs strip_ansi_codes run_tail decode_step log_file
            true tail false cursor with
    | AgentLogs.AgentReturned response => Some response
    | AgentLogs.AgentHTTPException _ => None
    end
  else None.

(** One iteration of the [while True] loop: the session after it, the
    frames sent and whether the loop goes on.  In a response [None] for the
    cursor means that it has none. *)
Definition log_poll_iteration (tick : LogTick) (s : Session)
    : Session * list LogFrame * bool :=
  let s := refresh_status tick s in
  match cursor s with
  | Some c =>
      match client_get_service_logs (tick_agent_up tick) (tick_file tick)
              INITIAL_LOG_TAIL (Some c) with
      | None => (s, [], true)
      | Some agent_response =>
          let new_logs := AgentLogs.logs agent_response in
          let new_cursor := Some (default c (AgentLogs.cursor agent_response)) in
          if decide (new_logs ≠ []
                     ∧ (service_is_up s = true ∨ log_service_is_up s = true))
          then
            let sent := _send_websocket_logs (tick_ws_ok tick) new_logs in
            if sent.1 then (set_cursor s new_cursor, sent.2, true)
            else (s, sent.2, false)
          else (set_cursor s new_cursor, [], true)
      end
  | None =>
      match client_get_service_logs (tick_agent_up tick) (tick_file tick)
              FALLBACK_LOG_TAIL None with
      | None => (s, [], true)
      | Some agent_response =>
          let current_logs := AgentLogs.logs agent_response in
          match AgentLogs.cursor agent_response with
          | Some new_cursor =>
              let s := set_cursor s (Some new_cursor) in
              if fallback_logs_sent s then (s, [], true)
              else if decide (current_logs ≠ []) then
                let sent := _send_websocket_logs (tick_ws_ok tick) current_logs in
                if sent.1 then (set_fallback_logs_sent s, sent.2, true)
                else (s, sent.2, false)
              else (set_fallback_logs_sent s, [], true)
          | None => (s, [], true)
          end
      end
  end.

(** The loop over the iterations that the session lives to see. *)
Fixpoint log_poll_loop (ticks : list LogTick) (s : Session) : Session * list LogFrame :=
  match ticks with
  | [] => (s, [])
  | tick :: ticks' =>
      let step := log_poll_iteration tick s in
      if step.2 then
        let rest := log_poll_loop ticks' step.1.1 in
        (rest.1, step.1.2 ++ rest.2)
      else (step.1.1, step.1.2)
  end.

(** The log file only grows from one iteration to the next. *)
Fixpoint grows (file : list Byte.byte) (ticks : list LogTick) : Prop :=
  match ticks with
  | [] => True
  | tick :: ticks' =>
      match tick_file tick with
      | Some content => file `prefix_of` content ∧ grows content ticks'
      | None => False
      end
  end.

(** The file as the last iteration finds it. *)
Fixpoint final_file (file : list Byte.byte) (ticks : list LogTick) : list Byte.byte :=
  match ticks with
  | [] => file
  | tick :: ticks' => final_file (default file (tick_file tick)) ticks'
  end.

(** At every iteration the service or its log service counts as up. *)
Fixpoint reported_up (ticks : list LogTick) (s : Session) : Prop :=
  match ticks with
  | [] => True
  | tick :: ticks' =>
      (service_is_up (refresh_status tick s) = true
       ∨ log_service_is_up (refresh_status tick s) = true)
      ∧ reported_up ticks' (log_poll_iteration tick s).1.1
  end.

(** The bytes of [file] from offset [from] up to offset [to]. *)
Definition slice (from to : Z) (file : list Byte.byte) : list Byte.byte :=
  take (Z.to_nat (to - from)) (drop (Z.to_nat from) file).

(** What the session has sent is the file from where the loop started up
    to its cursor: the file between the two is cut into consecutive ranges,
    and the text sent is the decoding of each range, in order, none left
    out. *)
Definition delivered_exactly (file : list Byte.byte) (start : Z)
    (result : Session * list LogFrame) : Prop :=
  ∃ c chunks,
    cursor result.1 = Some c
    ∧ concat chunks = slice start c file
    ∧ concat (payload <$> result.2) = concat (decode <$> chunks).

(** What [websocket_service_logs] finds when the connection is accepted:
    the log file and the agent at each of its three requests (the first tail,
    the fallback tail, the cursor refresh), the text of the exception when
    the first request raises, and the connection. *)
Record ConnectEnv := {
  initial_file : option (list Byte.byte);
  initial_agent_up : bool;
  initial_error : string;
  fallback_file : option (list Byte.byte);
  fallback_agent_up : bool;
  refresh_file : option (list Byte.byte);
  refresh_agent_up : bool;
  connect_ws_ok : bool
}.

(** [_send_websocket_error] *)
Definition _send_websocket_error (ws_ok : bool) (message : string) : bool * list LogFrame :=
  if ws_ok then (true, [ErrorFrame message]) else (false, []).

(** The initial fetch of [websocket_service_logs]: the cursor the loop
    starts from and the frames sent, or [None] when the handler returns
    because a send failed. *)
Definition initial_fetch (env : ConnectEnv) : option (option Z * list LogFrame) :=
  match client_get_service_logs (initial_agent_up env) (initial_file env)
          INITIAL_LOG_TAIL None with
  | None =>
      let sent :=
        _send_websocket_error (connect_ws_ok env)
          ("Failed to fetch initial logs: " +:+ initial_error env) in
      if sent.1 then Some (Some 0%Z, sent.2) else None
  | Some agent_response =>
      let initial_logs := AgentLogs.logs agent_response in
      let cursor :=
        match AgentLogs.cursor agent_response with
        | Some c => c
        | None =>
            match client_get_service_logs (fallback_agent_up env) (fallback_file env)
                    FALLBACK_LOG_TAIL None with
            | Some fallback_response => default 0%Z (AgentLogs.cursor fallback_response)
            | None => 0%Z
            end
        end in
      let sent :=
        if decide (initial_logs ≠ [])
        then _send_websocket_logs (connect_ws_ok env) initial_logs
        else (true, []) in
      if sent.1 then
        let refreshed :=
          match client_get_service_logs (refresh_agent_up env) (refresh_file env)
                  0 (Some cursor) with
          | Some refresh_response => default cursor (AgentLogs.cursor refresh_response)
          | None => cursor
          end in
        Some (Some refreshed, sent.2)
      else None
  end.

(** [websocket_service_logs]: every frame of one session.  [config] holds
    the configured containers, [clients] those the pool has a client for. *)
Definition websocket_service_logs (config clients : option (gset string))
    (container : string) (env : ConnectEnv) (ticks : list LogTick) : list LogFrame :=
  match config with
  | None => (_send_websocket_error (connect_ws_ok env) "Configuration not loaded").2
  | Some containers =>
      if decide (container ∉ containers)
      then (_send_websocket_error (connect_ws_ok env)
              ("Container '" +:+ container +:+ "' not found")).2
      else
        match clients with
        | None =>
            (_send_websocket_error (connect_ws_ok env)
               "Agent client pool not initialized").2
        | Some pool =>
            if decide (container ∉ pool)
            then (_send_websocket_error (connect_ws_ok env)
                    ("Agent client for container '" +:+ container
                     +:+ "' not available")).2
            else
              match initial_fetch env with
              | None => []
              | Some (cursor, frames) =>
                  frames
                  ++ (log_poll_loop ticks
                        {| cursor := cursor; fallback_logs_sent := false;
                           last_service_status_check := 0;
                           service_is_up := true; log_service_is_up := true |}).2
              end
        end
  end.

(** *** The agent's answer to a cursor *)

Lemma decode_nil : decode [] = [].
Proof. reflexivity. Qed.

Lemma get_service_logs_cursor (content : list Byte.byte) tail (c : Z) :
  AgentLogs.get_service_logs strip_ansi_codes run_tail decode_step (Some content)
    true tail false (Some c)
    = AgentLogs.AgentReturned
        {| AgentLogs.logs :=
             decode
               (drop (Z.to_nat (Z.min (Z.max 0 c) (Z.of_nat (length content)))) content);
           AgentLogs.tail := None;
           AgentLogs.cursor := Some (Z.of_nat (length content)) |}.
Proof.
  unfold AgentLogs.get_service_logs. cbn [negb]. cbv zeta.
  destruct (decide (c < 0)%Z) as [Hneg | Hnonneg].
  - destruct (decide (0 > Z.of_nat (length content))%Z) as [? | _]; [lia |].
    replace (Z.min (Z.max 0 c) (Z.of_nat (length content))) with 0%Z by lia.
    repeat f_equal. all: rewrite length_drop; lia.
  - destruct (decide (c > Z.of_nat (length content))%Z) as [Hbeyond | Hwithin].
    + replace (Z.min (Z.max 0 c) (Z.of_nat (length content)))
        with (Z.of_nat (length content)) by lia.
      repeat f_equal. all: rewrite length_drop; lia.
    + replace (Z.min (Z.max 0 c) (Z.of_nat (length content))) with c by lia.
      repeat f_equal. all: rewrite length_drop; lia.
Qed.

Lemma refresh_status_cursor tick s : cursor (refresh_status tick s) = cursor s.
Proof. unfold refresh_status. by destruct (decide _). Qed.

(** An iteration of the cursor branch over an existing file: the agent
    returns the decoding of the bytes past the (clamped) cursor and the size
    of the file. *)
Lemma log_poll_iteration_cursor tick s c content :
  cursor s = Some c →
  tick_file tick = Some content →
  tick_agent_up tick = true →
  log_poll_iteration tick s
    = let s' := refresh_status tick s in
      let new_logs :=
        decode
          (drop (Z.to_nat (Z.min (Z.max 0 c) (Z.of_nat (length content)))) content) in
      let new_cursor := Some (Z.of_nat (length content)) in
      if decide (new_logs ≠ [] ∧ (service_is_up s' = true ∨ log_service_is_up s' = true))
      then if tick_ws_ok tick
           then (set_cursor s' new_cursor, [LogsFrame new_logs], true)
           else (s', [], false)
      else (set_cursor s' new_cursor, [], true).
Proof.
  intros Hc Hfile Hup. unfold log_poll_iteration, client_get_service_logs.
  rewrite refresh_status_cursor, Hc, Hfile, Hup, get_service_logs_cursor.
  cbn [AgentLogs.logs AgentLogs.cursor default]. cbv zeta.
  destruct (decide _); [| done].
  unfold _send_websocket_logs. by destruct (tick_ws_ok tick).
Qed.

Lemma log_poll_iteration_agent_down tick s c :
  cursor s = Some c →
  tick_agent_up tick = false →
  log_poll_iteration tick s = (refresh_status tick s, [], true).
Proof.
  intros Hc Hdown. unfold log_poll_iteration, client_get_service_logs.
  by rewrite refresh_status_cursor, Hc, Hdown.
Qed.

(** *** Slices of a growing file *)

Lemma slice_empty (c : Z) (file : list Byte.byte) : slice c c file = [].
Proof. unfold slice. by rewrite Z.sub_diag. Qed.

Lemma slice_split (content ext : list Byte.byte) (a b : Z) :
  (0 <= a <= Z.of_nat (length content))%Z →
  (Z.of_nat (length content) <= b)%Z →
  slice a b (content ++ ext)
    = drop (Z.to_nat a) content
      ++ slice (Z.of_nat (length content)) b (content ++ ext).
Proof.
  intros Ha Hb. unfold slice.
  rewrite drop_app_le by lia.
  rewrite (drop_app_length' content ext) by lia.
  replace (Z.to_nat (b - a))
    with (length (drop (Z.to_nat a) content)
          + Z.to_nat (b - Z.of_nat (length content)))%nat
    by (rewrite length_drop; lia).
  by rewrite take_app_add.
Qed.

Lemma grows_final_prefix ticks file :
  grows file ticks → file `prefix_of` final_file file ticks.
Proof.
  revert file. induction ticks as [| tick ticks IH]; intros file Hgrows; [done |].
  cbn [grows final_file] in *.
  destruct (tick_file tick) as [content |]; [| done].
  destruct Hgrows as [Hprefix Hgrows]. cbn [default from_option]. unfold id.
  etrans; [exact Hprefix | by apply IH].
Qed.

(** *** The loop over a growing file *)

(** C4, as the code has it.  Over a file that only grows, from a cursor
    inside the file: the cursor of the loop never moves back and stays inside
    the file; the file between the cursor the loop starts from and the final
    one is cut into consecutive ranges, and what the loop sends are the
    decodings of some of them, in order, so no range is sent twice; when at
    every iteration the service or its log service counts as up, the text
    sent is the decoding of every range, so none is skipped; and after
    iterations whose requests and sends all succeed the cursor is at the end
    of the file. *)
Theorem log_tail_delivers_in_order ticks : ∀ file s c,
  cursor s = Some c →
  (0 <= c <= Z.of_nat (length file))%Z →
  grows file ticks →
  ∃ c',
    cursor (log_poll_loop ticks s).1 = Some c'
    ∧ (c <= c' <= Z.of_nat (length (final_file file ticks)))%Z
    ∧ (∃ chunks,
         concat chunks = slice c c' (final_file file ticks)
         ∧ (payload <$> (log_poll_loop ticks s).2) `sublist_of` (decode <$> chunks))
    ∧ (reported_up ticks s →
         delivered_exactly (final_file file ticks) c (log_poll_loop ticks s))
    ∧ (ticks ≠ [] →
       Forall (λ tick, tick_agent_up tick = true ∧ tick_ws_ok tick = true) ticks →
         c' = Z.of_nat (length (final_file file ticks))).
Proof.
  induction ticks as [| tick ticks IH]; intros file s c Hc Hrange Hgrows.
  { exists c. cbn [log_poll_loop final_file fst snd].
    split; [done |]. split; [lia |]. split; [| split].
    - exists []. rewrite slice_empty. split; [done | constructor].
    - intros _. exists c, []. by rewrite slice_empty.
    - done. }
  cbn [grows final_file reported_up] in *.
  destruct (tick_file tick) as [content |] eqn:Hfile; [| done].
  destruct Hgrows as [Hprefix Hgrows]. cbn [default from_option]. unfold id.
  pose proof (prefix_length _ _ Hprefix) as Hlen.
  pose proof (grows_final_prefix ticks content Hgrows) as [ext Hfinal].
  assert (Hfinal_len : (length content ≤ length (final_file content ticks))%nat).
  { rewrite Hfinal, length_app. lia. }
  cbn [log_poll_loop].
  destruct (tick_agent_up tick) eqn:Hup.
  2: { rewrite (log_poll_iteration_agent_down tick s c Hc Hup). cbn [fst snd app].
       destruct (IH content (refresh_status tick s) c) as (c' & Hc' & Hrange' & Hchunks & Hexact & Hlast);
         [by rewrite refresh_status_cursor | lia | done |].
       exists c'. split; [done |]. split; [done |]. split; [done |].
       split; [by intros [_ ?]; apply Hexact |].
       intros _ [[? _] _]%Forall_cons. congruence. }
  rewrite (log_poll_iteration_cursor tick s c content Hc Hfile Hup). cbv zeta.
  replace (Z.min (Z.max 0 c) (Z.of_nat (length content))) with c by lia.
  set (s' := refresh_status tick s).
  set (read := drop (Z.to_nat c) content).
  set (new_logs := decode read).
  assert (Hs' : cursor s' = Some c) by (unfold s'; by rewrite refresh_status_cursor).
  assert (Hsplit : ∀ c', (Z.of_nat (length content) <= c')%Z →
            slice c c' (final_file content ticks)
              = read ++ slice (Z.of_nat (length content)) c'
                          (final_file content ticks)).
  { intros c' Hc'. rewrite Hfinal. apply slice_split; lia. }
  assert (Hlast_here : ∀ c',
            cursor (log_poll_loop ticks
                      (set_cursor s' (Some (Z.of_nat (length content))))).1 = Some c' →
            (ticks ≠ [] →
             Forall (λ tick, tick_agent_up tick = true ∧ tick_ws_ok tick = true) ticks →
             c' = Z.of_nat (length (final_file content ticks))) →
            Forall (λ tick, tick_agent_up tick = true ∧ tick_ws_ok tick = true) ticks →
            c' = Z.of_nat (length (final_file content ticks))).
  { intros c' Hc' Hlast Hall. destruct ticks as [| tick' ticks'].
    - cbn in Hc'. cbn [final_file]. congruence.
    - by apply Hlast. }
  destruct (decide (new_logs ≠ []
                    ∧ (service_is_up s' = true ∨ log_service_is_up s' = true)))
    as [[Hnew Hflag] | Hquiet].
  - destruct (tick_ws_ok tick) eqn:Hws; cbn [fst snd].
    + destruct (IH content (set_cursor s' (Some (Z.of_nat (length content))))
                  (Z.of_nat (length content)))
        as (c' & Hc' & Hrange' & (chunks & Hjoin & Hsub) & Hexact & Hlast);
        [done | lia | done |].
      exists c'. split; [done |]. split; [lia |]. split; [| split].
      * exists (read :: chunks). split.
        -- rewrite concat_cons, Hjoin. symmetry. apply Hsplit. lia.
        -- rewrite fmap_cons. cbn [app fmap list_fmap payload]. by apply sublist_skip.
      * intros [_ Hrest].
        destruct (Hexact Hrest) as (c'' & chunks'' & Hc'' & Hjoin'' & Hsent'').
        unfold delivered_exactly. cbn [fst snd].
        exists c', (read :: chunks''). split; [done |].
        assert (c'' = c') as -> by congruence. split.
        -- rewrite concat_cons, Hjoin''. symmetry. apply Hsplit. lia.
        -- rewrite fmap_cons, concat_cons. cbn [app fmap list_fmap payload].
           rewrite concat_cons. by rewrite Hsent''.
      * intros _ [_ Hall]%Forall_cons. by apply Hlast_here.
    + exists c. split; [done |]. split; [lia |].
      split; [| split].
      * exists []. rewrite slice_empty. split; [done | constructor].
      * intros _. unfold delivered_exactly. cbn [fst snd].
        exists c, []. split; [done |].
        by rewrite slice_empty.
      * intros _ [[_ ?] _]%Forall_cons. congruence.
  - cbn [fst snd app].
    destruct (IH content (set_cursor s' (Some (Z.of_nat (length content))))
                (Z.of_nat (length content)))
      as (c' & Hc' & Hrange' & (chunks & Hjoin & Hsub) & Hexact & Hlast);
      [done | lia | done |].
    exists c'. split; [done |]. split; [lia |]. split; [| split].
    + exists (read :: chunks). split.
      * rewrite concat_cons, Hjoin. symmetry. apply Hsplit. lia.
      * rewrite fmap_cons. by apply sublist_cons.
    + intros [Hflag Hrest].
      destruct (Hexact Hrest) as (c'' & chunks'' & Hc'' & Hjoin'' & Hsent'').
      unfold delivered_exactly. cbn [fst snd].
      exists c', (read :: chunks''). split; [done |].
      assert (c'' = c') as -> by congruence.
      assert (Hnone : new_logs = []).
      { destruct (decide (new_logs = [])) as [? | Hne]; [done |].
        exfalso. apply Hquiet. by split. }
      split.
      * rewrite concat_cons, Hjoin''. symmetry. apply Hsplit. lia.
      * rewrite fmap_cons, concat_cons. fold new_logs. by rewrite Hnone, Hsent''.
    + intros _ [_ Hall]%Forall_cons. by apply Hlast_here.
Qed.

(** C8. When the file has become shorter than the session's cursor, the
    next iteration (the agent answering) takes the cursor the agent returns,
    which is the size of the file, sends nothing, and goes on. *)
Theorem truncation_resets_cursor tick s c content :
  cursor s = Some c →
  tick_file tick = Some content →
  tick_agent_up tick = true →
  (Z.of_nat (length content) < c)%Z →
  cursor (log_poll_iteration tick s).1.1 = Some (Z.of_nat (length content))
  ∧ (log_poll_iteration tick s).1.2 = []
  ∧ (log_poll_iteration tick s).2 = true.
Proof.
  intros Hc Hfile Hup Hshort.
  rewrite (log_poll_iteration_cursor tick s c content Hc Hfile Hup). cbv zeta.
  replace (Z.min (Z.max 0 c) (Z.of_nat (length content)))
    with (Z.of_nat (length content)) by lia.
  rewrite Nat2Z.id, drop_all, decode_nil.
  destruct (decide _) as [[Hnew _] | _]; [done |].
  done.
Qed.

End Handler.

(** *** Scenarios

    [tail] prints the whole file and nothing is stripped. *)

Definition demo_strip (logs : list Byte.byte) : list Byte.byte := logs.

Definition demo_tail (n : Z) (content : list Byte.byte) : option (list Byte.byte) :=
  Some content.

(** A decoder for logs in ASCII, which is all the scenarios hold: an
    ASCII byte is the character it encodes, and any other byte is replaced by
    U+FFFD. *)
Definition demo_decode_char (b : Byte.byte) : list Byte.byte :=
  if (Byte.to_N b <? 128)%N then [b] else [Byte.xef; Byte.xbf; Byte.xbd].

Definition demo_decode_step (b : Byte.byte) (rest : list Byte.byte)
    : list Byte.byte * nat :=
  (demo_decode_char b, 0%nat).

Lemma demo_decode_from fuel data :
  (length data ≤ fuel)%nat →
  AgentLogs.decode_from demo_decode_step fuel data = data ≫= demo_decode_char.
Proof.
  revert data. induction fuel as [| fuel IH]; intros data Hfuel.
  - destruct data; [done | cbn [length] in Hfuel; lia].
  - destruct data as [| b rest]; [done |].
    cbn [AgentLogs.decode_from demo_decode_step fst snd length] in *.
    rewrite drop_0, IH by lia. done.
Qed.

Lemma demo_decode_concat chunks :
  concat (AgentLogs.decode demo_decode_step <$> chunks)
    = AgentLogs.decode demo_decode_step (concat chunks).
Proof.
  unfold AgentLogs.decode.
  induction chunks as [| chunk chunks IH]; [done |].
  rewrite fmap_cons, !concat_cons, IH.
  rewrite !demo_decode_from by done. by rewrite bind_app.
Qed.

Definition bytes (text : string) : list Byte.byte := String.list_byte_of_string text.

(** A session that has delivered the first three bytes of the log. *)
Definition session_at_3 : Session :=
  {| cursor := Some 3%Z; fallback_logs_sent := false;
     last_service_status_check := 0;
     service_is_up := true; log_service_is_up := true |}.

Definition log_tick (now : Q) (content : string) (up : bool) : LogTick :=
  {| tick_time := now; tick_file := Some (bytes content); tick_agent_up := true;
     tick_service_status := Some (Some up);
     tick_log_service_status := Some (Some up);
     tick_ws_ok := true |}.

(** The log grows from [abc] to [abcde] to [abcdef] while the service and
    its log service are up. *)
Definition up_ticks : list LogTick :=
  [log_tick 1 "abcde" true; log_tick 2 "abcdef" true].

(** The same, but at the first iteration both are reported down. *)
Definition down_then_up_ticks : list LogTick :=
  [log_tick 1 "abcde" false; log_tick 2 "abcdef" true].

(** A session whose cursor is 500, and an iteration that finds the file
    truncated to 100 bytes. *)
Definition session_at_500 : Session :=
  {| cursor := Some 500%Z; fallback_logs_sent := false;
     last_service_status_check := 0;
     service_is_up := true; log_service_is_up := true |}.

Definition truncated_tick : LogTick :=
  {| tick_time := 1; tick_file := Some (replicate 100 Byte.x61);
     tick_agent_up := true;
     tick_service_status := Some (Some true);
     tick_log_service_status := Some (Some true);
     tick_ws_ok := true |}.

(** A connection accepted while the log holds [abc]; [XY] arrives before
    the cursor refresh, [Z] before the first iteration. *)
Definition demo_connect : ConnectEnv :=
  {| initial_file := Some (bytes "abc"); initial_agent_up := true;
     initial_error := "";
     fallback_file := Some (bytes "abc"); fallback_agent_up := true;
     refresh_file := Some (bytes "abcXY"); refresh_agent_up := true;
     connect_ws_ok := true |}.

(** The refresh moves the cursor to 5 without sending what it fetched. *)
Example demo_connect_frames :
  initial_fetch demo_strip demo_tail demo_decode_step demo_connect
    = Some (Some 5%Z, [LogsFrame (bytes "abc")])
  ∧ websocket_service_logs demo_strip demo_tail demo_decode_step (Some {[ "robot" ]})
      (Some {[ "robot" ]}) "robot" demo_connect [log_tick 1 "abcXYZ" true]
    = [LogsFrame (bytes "abc"); LogsFrame (bytes "Z")].
Proof. split; by vm_compute. Qed.

Example up_ticks_frames :
  (log_poll_loop demo_strip demo_tail demo_decode_step up_ticks session_at_3).2
    = [LogsFrame (bytes "de"); LogsFrame (bytes "f")].
Proof. reflexivity. Qed.

Example down_then_up_frames :
  log_poll_loop demo_strip demo_tail demo_decode_step down_then_up_ticks session_at_3
    = ({| cursor := Some 6%Z; fallback_logs_sent := false;
          last_service_status_check := 2;
          service_is_up := true; log_service_is_up := true |},
       [LogsFrame (bytes "f")]).
Proof. reflexivity. Qed.

(** While the services are up the session delivers the new bytes, [def],
    exactly. *)
Lemma log_tail_scenario :
  delivered_exactly demo_decode_step (bytes "abcdef") 3
    (log_poll_loop demo_strip demo_tail demo_decode_step up_ticks session_at_3).
Proof.
  destruct (log_tail_delivers_in_order demo_strip demo_tail demo_decode_step up_ticks
              (bytes "abc") session_at_3 3)
    as (c' & _ & _ & _ & Hexact & _).
  - reflexivity.
  - by vm_compute.
  - split; [by exists (bytes "de") |]. split; [by exists (bytes "f") | done].
  - apply Hexact. split; [by left |]. split; [by left | done].
Defined.

(** C4 does not hold as stated: with both services reported down at the
    first iteration, [de] is fetched and never sent, while [f], which came
    later, is. *)
Lemma log_tail_skips_while_down :
  grows (bytes "abc") down_then_up_ticks
  ∧ ¬ delivered_exactly demo_decode_step (bytes "abcdef") 3
        (log_poll_loop demo_strip demo_tail demo_decode_step down_then_up_ticks
           session_at_3).
Proof.
  split.
  - split; [by exists (bytes "de") |]. split; [by exists (bytes "f") | done].
  - intros (c & chunks & Hc & Hchunks & Hsent). vm_compute in Hc. injection Hc as <-.
    rewrite demo_decode_concat, Hchunks in Hsent.
    vm_compute in Hsent. discriminate Hsent.
Qed.

(** Cursor 500, file truncated to 100 bytes: the next iteration leaves
    the cursor at 100 and sends nothing. *)
Lemma truncation_scenario :
  cursor (log_poll_iteration demo_strip demo_tail demo_decode_step truncated_tick
            session_at_500).1.1
    = Some 100%Z
  ∧ (log_poll_iteration demo_strip demo_tail demo_decode_step truncated_tick
       session_at_500).1.2 = []
  ∧ (log_poll_iteration demo_strip demo_tail demo_decode_step truncated_tick
       session_at_500).2 = true.
Proof.
  apply (truncation_resets_cursor demo_strip demo_tail demo_decode_step truncated_tick
           session_at_500 500 (replicate 100 Byte.x61)).
  - reflexivity.
  - reflexivity.
  - reflexivity.
  - by vm_compute.
Defined.

End LogSession.

(** ** More on the subscriber plugin: life cycle, cache and janitor *)
Module SubscriberFacts.
Import Subscriber.

Section Facts.
Context {Msg Data : Type}.
Variable convert_message_to_dict : Msg → Data.
Variable create_ok : string → string → bool.

Local Abbreviation plugin := (ROS2TopicSubscriber Msg).

(** The handle [_create_subscriber] stores for a topic of this plugin. *)
Definition handle_of (p : plugin) (topic ty : string) : ROS2Subscriber :=
  {| sub_topic := topic; sub_msg_type := ty;
     sub_domain_id := domain_id p;
     sub_router_ip := router_ip p;
     sub_router_port := router_port p;
     sub_qos :=
       if decide (is_Some (static_topics p !! topic))
       then Some {| durability := TRANSIENT_LOCAL; history_depth := 1 |}
       else None |}.

(** Every stored handle is the one made for its own key, from a configured
    type for which the creation succeeded. *)
Definition handles_made (p : plugin) (subs : gmap string ROS2Subscriber) : Prop :=
  ∀ topic h, subs !! topic = Some h →
    ∃ ty, configured_as p topic ty ∧ create_ok topic ty = true
          ∧ h = handle_of p topic ty.

Lemma plugin_eta (p : plugin) :
  set_msg_cache p (msg_cache p) = p ∧ set_subscribers p (subscribers p) = p
  ∧ set_running p (is_running p) (status_thread p) = p.
Proof. by destruct p. Qed.

Lemma try_subscribe_only_subscribers (acc : plugin * list string) item :
  ∃ subs, (try_subscribe create_ok acc item).1 = set_subscribers acc.1 subs.
Proof.
  unfold try_subscribe, _create_subscriber.
  destruct (create_ok item.1 item.2); cbn [fst].
  - by eexists.
  - exists (subscribers acc.1). symmetry. apply plugin_eta.
Qed.

Lemma subscribe_all_only_subscribers items (acc : plugin * list string) :
  ∃ subs, (subscribe_all create_ok acc items).1 = set_subscribers acc.1 subs.
Proof.
  unfold subscribe_all. revert acc.
  induction items as [| item items IH]; intros acc.
  - exists (subscribers acc.1). symmetry. apply plugin_eta.
  - cbn [foldl]. destruct (IH (try_subscribe create_ok acc item)) as [subs ->].
    destruct (try_subscribe_only_subscribers acc item) as [subs' ->].
    by exists subs.
Qed.

Lemma subscribe_all_handles (p : plugin) items (acc : plugin * list string) :
  (∀ topic ty, (topic, ty) ∈ items → configured_as p topic ty) →
  (∃ subs, acc.1 = set_subscribers p subs) →
  handles_made p (subscribers acc.1) →
  handles_made p (subscribers (subscribe_all create_ok acc items).1).
Proof.
  unfold subscribe_all. revert acc.
  induction items as [| item items IH]; intros acc Hitems Hacc Hmade; [done |].
  cbn [foldl]. apply IH.
  - intros topic ty Hin. apply Hitems. by apply list_elem_of_further.
  - destruct Hacc as [subs Hacc].
    destruct (try_subscribe_only_subscribers acc item) as [subs' ->].
    exists subs'. by rewrite Hacc.
  - destruct Hacc as [subs Hacc].
    unfold try_subscribe, _create_subscriber.
    destruct (create_ok item.1 item.2) eqn:Hok; cbn [fst]; [| done].
    cbn [subscribers set_subscribers].
    intros topic h Hh. rewrite lookup_insert in Hh.
    destruct (decide (item.1 = topic)) as [<- | Hne]; [| by apply Hmade].
    injection Hh as <-. exists item.2. split; [| split; [done |]].
    + apply Hitems. destruct item. apply list_elem_of_here.
    + rewrite Hacc. reflexivity.
Qed.

(** *** [stop] and [start] *)

(** X1. [stop] on a running plugin leaves it not running, with no
    subscriber and an empty cache, so that every read returns nothing and no
    topic is available; the configuration is kept.  On a plugin that is not
    running, and so on one just stopped, [stop] changes nothing. *)
Theorem stop_releases_everything (p : plugin) :
  (is_running p = false → stop p = p)
  ∧ (is_running p = true →
       is_running (stop p) = false
       ∧ subscribers (stop p) = ∅
       ∧ msg_cache (stop p) = ∅
       ∧ topics (stop p) = topics p
       ∧ static_topics (stop p) = static_topics p
       ∧ (∀ topic now,
            get_topic_data convert_message_to_dict (stop p) topic now = (stop p, None))
       ∧ (∀ topic now, is_topic_available (stop p) topic now = (stop p, false))
       ∧ stop (stop p) = stop p).
Proof.
  split; intros Hrun; unfold stop; rewrite Hrun; [done |].
  set (p' := set_msg_cache _ ∅).
  assert (Hcache : ∀ topic, msg_cache p' !! topic = None)
    by (intros topic; apply lookup_empty).
  do 5 (split; [done |]). split; [| split].
  - intros topic now. by apply get_topic_data_absent.
  - intros topic now. unfold is_topic_available.
    destruct (decide _); [done |]. by rewrite Hcache.
  - done.
Qed.

(** X2. A [start] that raises leaves the plugin exactly as it was: no
    subscriber of the failed pass is kept.  A [start] that returns leaves it
    running, and a second [start] then returns at once and changes nothing. *)
Theorem start_failure_is_clean (p : plugin) :
  is_running p = false →
  subscribers p = ∅ →
  (raised (start create_ok p).2 = true → (start create_ok p).1 = p)
  ∧ (raised (start create_ok p).2 = false →
       start create_ok (start create_ok p).1
         = ((start create_ok p).1, AlreadyRunning)).
Proof.
  intros Hrun Hsubs.
  set (all := subscribe_all create_ok
                (subscribe_all create_ok (p, []) (map_to_list (topics p)))
                (map_to_list (static_topics p))).
  assert (Hstart : start create_ok p
            = if decide (subscribers all.1 = ∅
                         ∧ (0 < size (topics p) + size (static_topics p))%nat)
              then (_cleanup_subscribers (set_running all.1 false (status_thread all.1)),
                    StartFailed all.2)
              else (set_running all.1 true true, Started all.2)).
  { unfold start. by rewrite Hrun. }
  rewrite Hstart. clear Hstart.
  destruct (decide _) as [[Hempty _] | _]; cbn [fst snd raised].
  - split; [intros _ | done].
    destruct (subscribe_all_only_subscribers (map_to_list (static_topics p))
                (subscribe_all create_ok (p, []) (map_to_list (topics p))))
      as [subs2 Hall].
    destruct (subscribe_all_only_subscribers (map_to_list (topics p)) (p, []))
      as [subs1 Hdyn].
    fold all in Hall. rewrite Hall, Hdyn. cbn [fst].
    destruct p. cbn in *. by subst.
  - split; [done | intros _]. reflexivity.
Qed.

(** X3. After a [start] that returns, every subscriber is stored under
    its own topic, was built with the plugin's domain and router settings and
    a configured type, and asks for TRANSIENT_LOCAL durability with history
    depth 1 exactly when its topic is a static one. *)
Theorem started_subscribers_qos (p : plugin) topic h :
  is_running p = false →
  subscribers p = ∅ →
  raised (start create_ok p).2 = false →
  subscribers (start create_ok p).1 !! topic = Some h →
  ∃ ty, configured_as p topic ty
        ∧ create_ok topic ty = true
        ∧ sub_topic h = topic
        ∧ sub_msg_type h = ty
        ∧ sub_domain_id h = domain_id p
        ∧ sub_router_ip h = router_ip p
        ∧ sub_router_port h = router_port p
        ∧ (is_Some (static_topics p !! topic) →
             sub_qos h = Some {| durability := TRANSIENT_LOCAL; history_depth := 1 |})
        ∧ (static_topics p !! topic = None → sub_qos h = None).
Proof.
  intros Hrun Hsubs. unfold start. rewrite Hrun.
  set (dyn := subscribe_all create_ok (p, []) (map_to_list (topics p))).
  set (all := subscribe_all create_ok dyn (map_to_list (static_topics p))).
  assert (Hmade : handles_made p (subscribers all.1)).
  { apply subscribe_all_handles.
    - intros t ty Hin. right. by apply elem_of_map_to_list.
    - destruct (subscribe_all_only_subscribers (map_to_list (topics p)) (p, []))
        as [subs Hdyn]. by exists subs.
    - apply subscribe_all_handles.
      + intros t ty Hin. left. by apply elem_of_map_to_list.
      + exists (subscribers p). symmetry. apply plugin_eta.
      + intros t h'. cbn [fst]. by rewrite Hsubs, lookup_empty. }
  destruct (decide _) as [? | _]; cbn [fst snd raised]; [done |].
  intros _ Hh. cbn [subscribers set_running] in Hh.
  destruct (Hmade topic h Hh) as (ty & Hcfg & Hok & ->).
  exists ty. unfold handle_of. cbn.
  repeat (split; [done |]). split.
  - intros Hstatic. by destruct (decide _).
  - intros Hnone. destruct (decide _) as [[? ?] | _]; [congruence | done].
Qed.

(** *** Reads *)

(** X4. [is_topic_available] and [get_topic_data] at the same clock
    reading leave the plugin in the same state.  For a topic that is not
    configured the check says no, whatever the cache holds; for a configured
    one whose entry, if any, holds a message, it says yes exactly when the
    read returns a value. *)
Theorem is_topic_available_matches_get (p : plugin) topic now :
  (is_topic_available p topic now).1
    = (get_topic_data convert_message_to_dict p topic now).1
  ∧ (topics p !! topic = None → static_topics p !! topic = None →
       (is_topic_available p topic now).2 = false)
  ∧ (is_Some (topics p !! topic) ∨ is_Some (static_topics p !! topic) →
     (∀ cached, msg_cache p !! topic = Some cached → is_Some (raw_message cached)) →
       ((is_topic_available p topic now).2 = true
          ↔ is_Some (get_topic_data convert_message_to_dict p topic now).2)).
Proof.
  unfold is_topic_available, get_topic_data.
  destruct (decide (¬ is_Some (topics p !! topic) ∧ ¬ is_Some (static_topics p !! topic)))
    as [[Hnd Hns] | Hcfg].
  - split; [| split].
    + destruct (msg_cache p !! topic) as [cached |]; [| done].
      by destruct (decide (is_Some (topics p !! topic))).
    + done.
    + by intros [? | ?].
  - destruct (msg_cache p !! topic) as [cached |] eqn:Hc.
    2: { split; [done |]. split.
         - intros Hd Hs. exfalso. apply Hcfg. rewrite Hd, Hs.
           split; by intros [? ?].
         - intros _ _. cbn [snd]. split; [done | by intros [? ?]]. }
    assert (Hmsg : (∀ cached', Some cached = Some cached' → is_Some (raw_message cached')) →
                   is_Some (entry_data convert_message_to_dict cached)).
    { intros Hm. destruct (Hm cached eq_refl) as [m Hm'].
      unfold entry_data. rewrite Hm'. by eexists. }
    assert (Hun : topics p !! topic = None → static_topics p !! topic = None → False).
    { intros Hd Hs. apply Hcfg. rewrite Hd, Hs. split; by intros [? ?]. }
    destruct (decide (is_Some (topics p !! topic))) as [Hdyn | Hnd].
    + destruct (received_at cached) as [r |].
      * cbv zeta. destruct (decide _).
        -- split; [done |]. split; [intros; by exfalso; apply Hun |].
           intros _ _. cbn [snd]. split; [done | by intros [? ?]].
        -- split; [done |]. split; [intros; by exfalso; apply Hun |].
           intros _ Hm. cbn [snd]. split; [intros _; by apply Hmsg | done].
      * split; [done |]. split; [intros; by exfalso; apply Hun |].
        intros _ Hm. cbn [snd]. split; [intros _; by apply Hmsg | done].
    + split; [done |]. split; [intros; by exfalso; apply Hun |].
      intros _ Hm. cbn [snd]. split; [intros _; by apply Hmsg | done].
Qed.

(** X5. A read that returns nothing keeps returning nothing: until the
    callback stores a new message, every later read of the topic, at any clock
    reading, returns [None]. *)
Theorem absence_is_stable (p : plugin) topic now later :
  (get_topic_data convert_message_to_dict p topic now).2 = None →
  (get_topic_data convert_message_to_dict
     (get_topic_data convert_message_to_dict p topic now).1 topic later).2 = None.
Proof.
  unfold get_topic_data at 1 3.
  destruct (msg_cache p !! topic) as [cached |] eqn:Hc.
  2: { intros _. cbn [fst]. by rewrite (get_topic_data_absent _ p topic later Hc). }
  assert (Hkept : entry_data convert_message_to_dict cached = None →
            (get_topic_data convert_message_to_dict p topic later).2 = None).
  { intros Hnone. unfold get_topic_data. rewrite Hc.
    destruct (decide _); [| done].
    destruct (received_at cached); [| done].
    cbv zeta. by destruct (decide _). }
  destruct (decide (is_Some (topics p !! topic))) as [Hdyn | Hnd].
  - destruct (received_at cached) as [r |]; [| by intros ?%Hkept].
    cbv zeta. destruct (decide _); [| by intros ?%Hkept].
    intros _. cbn [fst]. rewrite get_topic_data_absent; [done |].
    cbn [msg_cache set_msg_cache]. apply lookup_delete_eq.
  - by intros ?%Hkept.
Qed.

(** *** Writes *)

(** X6. The callback overwrites: of two messages stored for a topic only
    the later one is kept, with its own timestamp.  Messages for different
    topics do not disturb each other, and the configuration and the
    subscribers are never touched. *)
Theorem msg_callback_last_wins (p : plugin) topic other m1 m2 t1 t2 :
  msg_callback (msg_callback p topic m1 t1) topic m2 t2 = msg_callback p topic m2 t2
  ∧ (topic ≠ other →
       msg_callback (msg_callback p topic m1 t1) other m2 t2
         = msg_callback (msg_callback p other m2 t2) topic m1 t1
       ∧ msg_cache (msg_callback p topic m1 t1) !! other = msg_cache p !! other)
  ∧ topics (msg_callback p topic m1 t1) = topics p
  ∧ static_topics (msg_callback p topic m1 t1) = static_topics p
  ∧ subscribers (msg_callback p topic m1 t1) = subscribers p.
Proof.
  unfold msg_callback. cbn [msg_cache set_msg_cache topics static_topics subscribers].
  split; [| split; [| done]].
  - unfold set_msg_cache. cbn. by rewrite insert_insert_eq.
  - intros Hne. split.
    + unfold set_msg_cache. cbn. f_equal. by apply insert_insert_ne.
    + by apply lookup_insert_ne.
Qed.

(** X7. After [clear_topic_cache] a read of the topic returns nothing and
    the topic is not available, at any clock reading; the entries of the other
    topics are kept; clearing a topic that has no entry changes nothing.
    After [clear_all_cache] no topic has a value. *)
Theorem clear_topic_cache_forgets (p : plugin) topic :
  (∀ now, get_topic_data convert_message_to_dict (clear_topic_cache p topic) topic now
            = (clear_topic_cache p topic, None))
  ∧ (∀ now, is_topic_available (clear_topic_cache p topic) topic now
              = (clear_topic_cache p topic, false))
  ∧ (∀ other, other ≠ topic →
       msg_cache (clear_topic_cache p topic) !! other = msg_cache p !! other)
  ∧ (msg_cache p !! topic = None → clear_topic_cache p topic = p)
  ∧ (∀ any now, get_topic_data convert_message_to_dict (clear_all_cache p) any now
                  = (clear_all_cache p, None)).
Proof.
  assert (Hgone : msg_cache (clear_topic_cache p topic) !! topic = None).
  { unfold clear_topic_cache. cbn [msg_cache set_msg_cache]. apply lookup_delete_eq. }
  split; [| split; [| split; [| split]]].
  - intros now. by apply get_topic_data_absent.
  - intros now. unfold is_topic_available.
    destruct (decide _); [done |]. by rewrite Hgone.
  - intros other Hne. unfold clear_topic_cache. cbn [msg_cache set_msg_cache].
    by apply lookup_delete_ne.
  - intros Hnone. unfold clear_topic_cache.
    rewrite (delete_id _ _ Hnone). apply plugin_eta.
  - intros any now. apply get_topic_data_absent.
    unfold clear_all_cache. cbn [msg_cache set_msg_cache]. apply lookup_empty.
Qed.

(** *** The periodic check *)

Lemma sweep_topic_cases (p : plugin) now
    (acc : gmap string (CacheEntry Msg) * list string) topic_name :
  sweep_topic p now acc topic_name
    = match acc.1 !! topic_name with
      | Some cached =>
          if decide (is_Some (topics p !! topic_name) ∧ read_evicts now cached = true)
          then (delete topic_name acc.1, acc.2 ++ [topic_name])
          else acc
      | None => acc
      end.
Proof.
  unfold sweep_topic, read_evicts.
  destruct (decide (is_Some (topics p !! topic_name))) as [Hdyn | Hnd].
  - destruct (acc.1 !! topic_name) as [cached |]; [| done].
    destruct (received_at cached) as [r |].
    + cbv zeta. destruct (decide (now - r > DYNAMIC_TOPIC_STALE_TIME)%Q) as [Hs | Hf].
      * rewrite (bool_decide_eq_true_2 _ Hs).
        destruct (decide _) as [_ | Hno]; [done |]. exfalso. by apply Hno.
      * rewrite (bool_decide_eq_false_2 _ Hf).
        by destruct (decide _) as [[_ ?] | _].
    + by destruct (decide _) as [[_ ?] | _].
  - destruct (acc.1 !! topic_name) as [cached |]; [| done].
    by destruct (decide _) as [[? _] | _].
Qed.

Lemma foldl_sweep_cache (p : plugin) now keys
    (acc : gmap string (CacheEntry Msg) * list string) topic :
  (foldl (sweep_topic p now) acc keys).1 !! topic
    = match acc.1 !! topic with
      | Some cached =>
          if decide (topic ∈ keys ∧ is_Some (topics p !! topic)
                     ∧ read_evicts now cached = true)
          then None else Some cached
      | None => None
      end.
Proof.
  revert acc. induction keys as [| k keys IH]; intros acc.
  - cbn [foldl]. destruct (acc.1 !! topic) as [cached |]; [| done].
    destruct (decide _) as [[Hin _] | _]; [| done]. by apply elem_of_nil in Hin.
  - cbn [foldl]. rewrite IH, sweep_topic_cases.
    destruct (decide (k = topic)) as [-> | Hne].
    + destruct (acc.1 !! topic) as [cached |] eqn:Hc; [| by rewrite Hc].
      destruct (decide (is_Some (topics p !! topic) ∧ read_evicts now cached = true))
        as [[Hdyn Hev] | Hkeep]; cbn [fst].
      * rewrite lookup_delete_eq.
        destruct (decide _) as [_ | Hno]; [done |].
        exfalso. apply Hno. split; [apply list_elem_of_here | done].
      * rewrite Hc.
        destruct (decide _) as [(_ & ? & ?) | _]; [by exfalso; apply Hkeep |].
        destruct (decide _) as [(_ & ? & ?) | _]; [by exfalso; apply Hkeep | done].
    + assert (Hsame :
        match acc.1 !! k with
        | Some cached =>
            if decide (is_Some (topics p !! k) ∧ read_evicts now cached = true)
            then (delete k acc.1, acc.2 ++ [k]) else acc
        | None => acc
        end.1 !! topic = acc.1 !! topic).
      { destruct (acc.1 !! k) as [cached |]; [| done].
        destruct (decide _); [| done]. by apply lookup_delete_ne. }
      rewrite Hsame. destruct (acc.1 !! topic) as [cached |]; [| done].
      destruct (decide (topic ∈ keys ∧ _)) as [(Hin & Hd & He) | Hno];
        destruct (decide (topic ∈ k :: keys ∧ _)) as [(Hin' & Hd' & He') | Hno'];
        try done.
      * exfalso. apply Hno'. split; [by apply list_elem_of_further | done].
      * exfalso. apply Hno. split; [| done].
        apply elem_of_cons in Hin' as [-> | ?]; [congruence | done].
Qed.

Lemma foldl_sweep_stale (p : plugin) now keys
    (acc : gmap string (CacheEntry Msg) * list string) topic :
  topic ∈ (foldl (sweep_topic p now) acc keys).2
    ↔ topic ∈ acc.2
      ∨ (topic ∈ keys
         ∧ ∃ cached, acc.1 !! topic = Some cached
                     ∧ is_Some (topics p !! topic) ∧ read_evicts now cached = true).
Proof.
  revert acc. induction keys as [| k keys IH]; intros acc.
  - cbn [foldl]. split; [by left |].
    intros [? | [Hin _]]; [done | by apply elem_of_nil in Hin].
  - cbn [foldl]. rewrite IH, sweep_topic_cases.
    destruct (acc.1 !! k) as [cached |] eqn:Hk.
    2: { cbn [fst snd]. split.
         - intros [? | (Hin & c & Hc & ?)]; [by left | right].
           split; [by apply list_elem_of_further | by exists c].
         - intros [? | (Hin & c & Hc & ?)]; [by left | right].
           apply elem_of_cons in Hin as [-> | Hin]; [congruence |].
           split; [done | by exists c]. }
    destruct (decide (is_Some (topics p !! k) ∧ read_evicts now cached = true))
      as [[Hdyn Hev] | Hkeep]; cbn [fst snd].
    + rewrite elem_of_app, list_elem_of_singleton. split.
      * intros [[? | ->] | (Hin & c & Hc & ?)].
        -- by left.
        -- right. split; [apply list_elem_of_here | by exists cached].
        -- right. split; [by apply list_elem_of_further |].
           exists c. split; [| done].
           destruct (decide (k = topic)) as [-> | Hne].
           ++ by rewrite lookup_delete_eq in Hc.
           ++ by rewrite lookup_delete_ne in Hc.
      * intros [? | (Hin & c & Hc & Hd & He)]; [left; by left |].
        destruct (decide (k = topic)) as [-> | Hne]; [left; by right |].
        right. apply elem_of_cons in Hin as [-> | Hin]; [done |].
        split; [done |]. exists c. by rewrite lookup_delete_ne.
    + split.
      * intros [? | (Hin & c & Hc & ?)]; [by left | right].
        split; [by apply list_elem_of_further | by exists c].
      * intros [? | (Hin & c & Hc & Hd & He)]; [by left | right].
        apply elem_of_cons in Hin as [-> | Hin].
        -- exfalso. apply Hkeep. rewrite Hk in Hc. by simplify_eq.
        -- split; [done | by exists c].
Qed.

(** X8. One periodic check does to every entry what a read of its topic
    at the same clock reading does: it evicts exactly the dynamic entries
    that are older than the stale time.  After it, every dynamic entry that
    has a timestamp is at most that old.  The configuration and the
    subscribers are not touched. *)
Theorem periodic_check_evicts_like_get (p : plugin) now topic :
  msg_cache (periodic_status_check_once p now).1.1 !! topic
    = msg_cache (get_topic_data convert_message_to_dict p topic now).1 !! topic
  ∧ (is_Some (topics p !! topic) →
     ∀ cached r,
       msg_cache (periodic_status_check_once p now).1.1 !! topic = Some cached →
       received_at cached = Some r →
       (now - r <= DYNAMIC_TOPIC_STALE_TIME)%Q)
  ∧ topics (periodic_status_check_once p now).1.1 = topics p
  ∧ static_topics (periodic_status_check_once p now).1.1 = static_topics p
  ∧ subscribers (periodic_status_check_once p now).1.1 = subscribers p.
Proof.
  assert (Hswept :
    msg_cache (periodic_status_check_once p now).1.1 !! topic
      = match msg_cache p !! topic with
        | Some cached =>
            if decide (is_Some (topics p !! topic) ∧ read_evicts now cached = true)
            then None else Some cached
        | None => None
        end).
  { unfold periodic_status_check_once. cbn [fst msg_cache set_msg_cache].
    rewrite foldl_sweep_cache. cbn [fst].
    destruct (msg_cache p !! topic) as [cached |] eqn:Hc; [| done].
    destruct (decide (topic ∈ _ ∧ _)) as [(_ & ? & ?) | Hno];
      destruct (decide (is_Some _ ∧ _)) as [[? ?] | Hno']; try done.
    - exfalso. by apply Hno'.
    - exfalso. apply Hno. split; [| done]. apply elem_of_keys. by rewrite Hc. }
  split; [| split; [| done]].
  - rewrite Hswept.
    destruct (decide (is_Some (topics p !! topic))) as [Hdyn | Hnd].
    + rewrite (get_topic_data_dynamic _ p topic now Hdyn).
      destruct (msg_cache p !! topic) as [cached |] eqn:Hc;
        [| cbn [fst]; by rewrite Hc].
      destruct (read_evicts now cached) eqn:Hev.
      * destruct (decide _) as [_ | Hno]; [| by exfalso; apply Hno].
        cbn [fst msg_cache set_msg_cache]. by rewrite lookup_delete_eq.
      * destruct (decide _) as [[_ ?] | _]; [done |]. cbn [fst]. by rewrite Hc.
    + assert (Hnone : topics p !! topic = None) by (by apply eq_None_not_Some).
      destruct (msg_cache p !! topic) as [cached |] eqn:Hc.
      * rewrite (get_topic_data_not_dynamic _ p topic cached now Hnone Hc).
        cbn [fst]. rewrite Hc. by destruct (decide _) as [[? _] | _].
      * rewrite (get_topic_data_absent _ p topic now Hc). cbn [fst]. by rewrite Hc.
  - intros Hdyn cached r. rewrite Hswept.
    destruct (msg_cache p !! topic) as [cached' |]; [| done].
    destruct (decide _) as [? | Hkeep]; [done |].
    intros [= ->] Hr. unfold read_evicts in Hkeep. rewrite Hr in Hkeep.
    destruct (decide (now - r > DYNAMIC_TOPIC_STALE_TIME)%Q) as [Hs | Hf].
    + exfalso. apply Hkeep. split; [done |]. by apply bool_decide_eq_true_2.
    + by apply Qnot_lt_le.
Qed.

(** X9. What one periodic check reports: [stale_topics] holds exactly the
    topics whose entry it evicted, and it warns about exactly the dynamic
    topics that have no entry once it is done (those it has just evicted
    included). *)
Theorem periodic_check_reports (p : plugin) now topic :
  (topic ∈ (periodic_status_check_once p now).1.2
     ↔ evicted (msg_cache p) (msg_cache (periodic_status_check_once p now).1.1) topic)
  ∧ (topic ∈ (periodic_status_check_once p now).2
       ↔ is_Some (topics p !! topic)
         ∧ msg_cache (periodic_status_check_once p now).1.1 !! topic = None).
Proof.
  unfold periodic_status_check_once, evicted. cbn [fst snd msg_cache set_msg_cache].
  split.
  - rewrite foldl_sweep_stale, foldl_sweep_cache. cbn [fst snd].
    rewrite elem_of_keys. split.
    + intros [Hin | (Hsome & cached & Hc & Hd & He)]; [by apply elem_of_nil in Hin |].
      split; [done |]. rewrite Hc.
      destruct (decide _) as [_ | Hno]; [done |].
      exfalso. apply Hno. split; [by apply elem_of_keys | done].
    + intros [[cached Hc] Hgone]. right. split; [by exists cached |].
      exists cached. split; [done |]. rewrite Hc in Hgone.
      by destruct (decide _) as [(_ & ? & ?) | _].
  - rewrite list_elem_of_filter, elem_of_keys.
    split; intros [? ?]; by split.
Qed.

(** *** The status dict *)

Lemma status_dynamic_record (p : plugin) now acc item :
  ∃ record, (status_dynamic p now acc item).2 = <[item.1 := record]> acc.2
            ∧ configured record = true
            ∧ msg_type record = item.2
            ∧ subscribed record = bool_decide (is_Some (subscribers p !! item.1)).
Proof.
  unfold status_dynamic.
  destruct (acc.1 !! item.1) as [cached |]; [| by eexists].
  destruct (received_at cached) as [r |]; [| by eexists].
  cbv zeta. destruct (decide (r > 0)%Q); [| by eexists].
  destruct (decide _); by eexists.
Qed.

Lemma status_static_record (p : plugin) now acc item :
  ∃ record, (status_static p now acc item).2 = <[item.1 := record]> acc.2
            ∧ configured record = true
            ∧ msg_type record = item.2
            ∧ subscribed record = bool_decide (is_Some (subscribers p !! item.1)).
Proof.
  unfold status_static.
  destruct (acc.1 !! item.1) as [cached |]; [| by eexists].
  destruct (received_at cached) as [r |]; [| by eexists].
  destruct (decide (r > 0)%Q); by eexists.
Qed.

(** After a loop over the items of a dict, a record is either the one the
    accumulator had, for a topic the loop did not visit, or one the loop
    wrote, with the type the dict gives the topic. *)
Lemma foldl_status_records (p : plugin) {C : Type}
    (step : C * gmap string TopicStatus → string * string → C * gmap string TopicStatus)
    (Hstep : ∀ acc item,
       ∃ record, (step acc item).2 = <[item.1 := record]> acc.2
                 ∧ configured record = true
                 ∧ msg_type record = item.2
                 ∧ subscribed record = bool_decide (is_Some (subscribers p !! item.1)))
    (m : gmap string string) items acc topic record :
  (∀ t ty, (t, ty) ∈ items → m !! t = Some ty) →
  (foldl step acc items).2 !! topic = Some record →
  (acc.2 !! topic = Some record ∧ topic ∉ items.*1)
  ∨ (topic ∈ items.*1
     ∧ configured record = true
     ∧ m !! topic = Some (msg_type record)
     ∧ subscribed record = bool_decide (is_Some (subscribers p !! topic))).
Proof.
  revert acc. induction items as [| item items IH]; intros acc Hitems Hrec.
  { left. split; [done | apply not_elem_of_nil]. }
  cbn [foldl] in Hrec. rewrite fmap_cons.
  assert (Hitems' : ∀ t ty, (t, ty) ∈ items → m !! t = Some ty).
  { intros t ty Hin. apply Hitems. by apply list_elem_of_further. }
  destruct (IH _ Hitems' Hrec) as [[Hold Hnot] | (Hin & ? & ? & ?)].
  - destruct (Hstep acc item) as (record' & Heq & Hc & Hty & Hsub).
    rewrite Heq, lookup_insert in Hold.
    destruct (decide (item.1 = topic)) as [<- | Hne].
    + injection Hold as <-. right. split; [apply list_elem_of_here |].
      split; [done |]. split; [| done].
      rewrite Hty. apply Hitems. destruct item. apply list_elem_of_here.
    + left. split; [done |]. rewrite not_elem_of_cons. by split.
  - right. split; [by apply list_elem_of_further | done].
Qed.

(** X10. The status dict has a record for every configured topic and for
    no other.  The record says [configured], carries the configured type (the
    static one when the topic is in both dicts), says [subscribed] exactly
    when the plugin holds a subscriber for the topic, and says [available]
    exactly when the cache still holds an entry for the topic after the pass:
    never for a topic without an entry. *)
Theorem status_lists_configured_topics (p : plugin) now topic :
  (topics p !! topic = None → static_topics p !! topic = None →
     (get_all_topics_status p now).2 !! topic = None)
  ∧ (∀ ty,
       static_topics p !! topic = Some ty
       ∨ (static_topics p !! topic = None ∧ topics p !! topic = Some ty) →
       ∃ record,
         (get_all_topics_status p now).2 !! topic = Some record
         ∧ configured record = true
         ∧ msg_type record = ty
         ∧ (subscribed record = true ↔ is_Some (subscribers p !! topic))
         ∧ (available record = true
              ↔ is_Some (msg_cache (get_all_topics_status p now).1 !! topic))).
Proof.
  split.
  - intros Hd Hs. apply eq_None_not_Some. rewrite get_all_topics_status_keys.
    rewrite Hd, Hs. by intros [[? ?] | [? ?]].
  - intros ty Hty.
    assert (Hsome : is_Some ((get_all_topics_status p now).2 !! topic)).
    { apply get_all_topics_status_keys.
      destruct Hty as [? | [_ ?]]; [right | left]; by eexists. }
    destruct Hsome as [record Hrec]. exists record. split; [done |].
    pose proof (get_all_topics_status_sound p now topic record Hrec) as Hav.
    assert (Hfields : configured record = true ∧ msg_type record = ty
              ∧ subscribed record = bool_decide (is_Some (subscribers p !! topic))).
    { unfold get_all_topics_status in Hrec. cbn [snd] in Hrec.
      destruct (foldl_status_records p (status_static p now)
                  (status_static_record p now) (static_topics p) _ _ _ _
                  (λ t ty', proj1 (elem_of_map_to_list _ t ty')) Hrec)
        as [[Hold Hnot] | (Hin & ? & Hm & ?)].
      - destruct (foldl_status_records p (status_dynamic p now)
                    (status_dynamic_record p now) (topics p) _ _ _ _
                    (λ t ty', proj1 (elem_of_map_to_list _ t ty')) Hold)
          as [[Hempty _] | (Hin & ? & Hm & ?)].
        + cbn [snd] in Hempty. by rewrite lookup_empty in Hempty.
        + destruct Hty as [Hst | [_ Hdy]].
          * exfalso. apply Hnot. apply elem_of_keys. by eexists.
          * split; [done |]. split; [congruence | done].
      - destruct Hty as [Hst | [Hnone _]]; [| congruence].
        split; [done |]. split; [congruence | done]. }
    destruct Hfields as (? & ? & Hsub).
    split; [done |]. split; [done |]. split; [| done].
    rewrite Hsub. apply bool_decide_eq_true.
Qed.

End Facts.

(** *** Scenarios *)

(** No subscriber can be created at all. *)
Definition never_ok (topic ty : string) : bool := false.

Lemma stop_scenario :
  msg_cache (stop (msg_callback xyz_started.1 "x" "v" 1)) = ∅
  ∧ subscribers (stop (msg_callback xyz_started.1 "x" "v" 1)) = ∅
  ∧ stop (stop (msg_callback xyz_started.1 "x" "v" 1))
    = stop (msg_callback xyz_started.1 "x" "v" 1).
Proof.
  destruct (stop_releases_everything demo_convert (msg_callback xyz_started.1 "x" "v" 1))
    as [_ Hrunning].
  destruct (Hrunning eq_refl) as (_ & Hsubs & Hcache & _ & _ & _ & _ & Hagain).
  split; [exact Hcache |]. split; [exact Hsubs | exact Hagain].
Defined.

Lemma start_failure_scenario :
  (start never_ok xyz_plugin).1 = xyz_plugin
  ∧ start xyz_create_ok xyz_started.1 = (xyz_started.1, AlreadyRunning).
Proof.
  split.
  - by apply (start_failure_is_clean never_ok xyz_plugin eq_refl eq_refl).
  - by apply (start_failure_is_clean xyz_create_ok xyz_plugin eq_refl eq_refl).
Defined.

Lemma started_subscribers_scenario :
  sub_qos (handle_of xyz_plugin "z" "T")
    = Some {| durability := TRANSIENT_LOCAL; history_depth := 1 |}
  ∧ sub_qos (handle_of xyz_plugin "x" "T") = None.
Proof.
  split.
  - destruct (started_subscribers_qos xyz_create_ok xyz_plugin "z"
                (handle_of xyz_plugin "z" "T") eq_refl eq_refl eq_refl eq_refl)
      as (ty & _ & _ & _ & _ & _ & _ & _ & Hstatic & _).
    apply Hstatic. by eexists.
  - destruct (started_subscribers_qos xyz_create_ok xyz_plugin "x"
                (handle_of xyz_plugin "x" "T") eq_refl eq_refl eq_refl eq_refl)
      as (ty & _ & _ & _ & _ & _ & _ & _ & _ & Hdynamic).
    by apply Hdynamic.
Defined.

Lemma is_topic_available_scenario :
  (is_topic_available demo_received_a "/a" 1).2 = true
  ∧ (is_topic_available demo_other "/other" 6).2 = false.
Proof.
  split.
  - destruct (is_topic_available_matches_get demo_convert demo_received_a "/a" 1)
      as (_ & _ & Hsame).
    apply Hsame.
    + left. by eexists.
    + intros cached Hc. vm_compute in Hc. injection Hc as <-. by eexists.
    + by eexists.
  - destruct (is_topic_available_matches_get demo_convert demo_other "/other" 6)
      as (_ & Hunknown & _).
    by apply Hunknown.
Defined.

Lemma absence_scenario :
  (get_topic_data demo_convert
     (get_topic_data demo_convert demo_received_a "/a" 4).1 "/a" 1).2 = None.
Proof. by apply absence_is_stable. Defined.

Lemma msg_callback_scenario :
  msg_cache (msg_callback demo_received_a "/b" "urdf" 1) !! "/a"
    = msg_cache demo_received_a !! "/a".
Proof.
  destruct (msg_callback_last_wins demo_received_a "/b" "/a" "urdf" "urdf" 1 1)
    as (_ & Hother & _).
  by apply Hother.
Defined.

Lemma clear_topic_cache_scenario :
  msg_cache (clear_topic_cache demo_received_a "/b") !! "/a"
    = msg_cache demo_received_a !! "/a"
  ∧ clear_topic_cache demo_received_a "/b" = demo_received_a.
Proof.
  destruct (clear_topic_cache_forgets demo_convert demo_received_a "/b")
    as (_ & _ & Hother & Habsent & _).
  split; [by apply Hother | by apply Habsent].
Defined.

Lemma periodic_check_scenario : (2 - 0 <= DYNAMIC_TOPIC_STALE_TIME)%Q.
Proof.
  destruct (periodic_check_evicts_like_get demo_convert demo_received_a 2 "/a")
    as (_ & Hfresh & _).
  apply (Hfresh ltac:(by eexists)
           {| raw_message := Some "hello"; received_at := Some 0%Q |} 0%Q);
    reflexivity.
Defined.

Lemma periodic_check_reports_scenario :
  "/a" ∈ (periodic_status_check_once demo_received_a 10).1.2
  ∧ "/a" ∈ (periodic_status_check_once demo_received_a 10).2.
Proof.
  destruct (periodic_check_reports demo_received_a 10 "/a") as [Hstale Hwarned].
  split.
  - apply Hstale. split; [by eexists | reflexivity].
  - apply Hwarned. split; [by eexists | reflexivity].
Defined.

Lemma status_scenario :
  ∃ record,
    (get_all_topics_status demo_received_a 10).2 !! "/b" = Some record
    ∧ msg_type record = "std_msgs/msg/String"
    ∧ configured record = true.
Proof.
  destruct (status_lists_configured_topics demo_received_a 10 "/b") as [_ Hlisted].
  destruct (Hlisted "std_msgs/msg/String" ltac:(by left))
    as (record & Hrec & Hcfg & Hty & _).
  exists record. split; [exact Hrec |]. split; [exact Hty | exact Hcfg].
Defined.

End SubscriberFacts.

(** ** More on topic sessions: types, change detection, first frame *)
Module TopicSessionFacts.
Import TopicSession.

Section Facts.
Context {Msg Data : Type}.
Variable convert_message_to_dict : Msg → Data.
Variable hash_str : Data → Z.

Local Abbreviation plugin := (Subscriber.ROS2TopicSubscriber Msg).
Local Abbreviation frame := (TopicFrame Data).

(** The data frame for a cached value. *)
Definition data_frame (container : string) (p : plugin) (topic ty : string)
    (value : Data) (available : bool) : frame :=
  DataFrame {| Models.container := container; Models.topic := topic;
               Models.msg_type := ty; Models.data := Some value;
               Models.available := available;
               Models.domain_id := Subscriber.domain_id p |}.

(** A pass finds a value whose hash is [h] and the topic available. *)
Definition steady_at (p : plugin) (topic : string) (h : Z) (tick : PollTick Msg) : Prop :=
  let got :=
    Subscriber.get_topic_data convert_message_to_dict
      (Subscriber.set_msg_cache p (tick_cache tick)) topic (tick_get_time tick) in
  (∃ cached_data, got.2 = Some cached_data
                  ∧ hash_str (Subscriber.data cached_data) = h)
  ∧ (Subscriber.is_topic_available got.1 topic (tick_available_time tick)).2 = true.

Lemma get_topic_msg_type_listed (p : plugin) topic :
  is_Some (_get_topic_msg_type p topic) ↔ topic ∈ Subscriber.list_topics p.
Proof.
  unfold _get_topic_msg_type, Subscriber.list_topics.
  rewrite elem_of_app, !Subscriber.elem_of_keys.
  destruct (Subscriber.topics p !! topic) as [ty |].
  - split; [intros _; left; by eexists | intros _; by eexists].
  - split; [by right | by intros [[? ?] | ?]].
Qed.

Lemma checked_msg_type (p : plugin) topic t_get t_available :
  _get_topic_msg_type
    (Subscriber.is_topic_available
       (Subscriber.get_topic_data convert_message_to_dict p topic t_get).1
       topic t_available).1 topic
    = _get_topic_msg_type p topic
  ∧ Subscriber.domain_id
      (Subscriber.is_topic_available
         (Subscriber.get_topic_data convert_message_to_dict p topic t_get).1
         topic t_available).1
    = Subscriber.domain_id p.
Proof.
  destruct (get_topic_data_frame convert_message_to_dict p topic t_get)
    as (Ht & Hs & Hd).
  destruct (is_topic_available_frame
              (Subscriber.get_topic_data convert_message_to_dict p topic t_get).1
              topic t_available) as (Ht' & Hs' & Hd').
  split; [| congruence].
  apply get_topic_msg_type_frame; congruence.
Qed.

Lemma send_update_typed ws_ok container (p : plugin) topic ty data available now new_hash :
  _get_topic_msg_type p topic = Some ty →
  send_update ws_ok container p topic data available now new_hash
    = (p,
       if ws_ok
       then [DataFrame {| Models.container := container; Models.topic := topic;
                          Models.msg_type := ty; Models.data := data;
                          Models.available := available;
                          Models.domain_id := Subscriber.domain_id p |} : frame]
       else [],
       Polled ws_ok now new_hash).
Proof.
  intros Hty. unfold send_update, _send_websocket_data. rewrite Hty.
  by destruct ws_ok.
Qed.

(** X11. [_get_topic_msg_type] finds a type exactly for the topics of
    [list_topics], the dynamic type first.  So for a topic that passed the
    handler's check neither a pass of the loop nor the first send ever ends
    in [KeyError], for dynamic and static topics alike. *)
Theorem listed_topic_never_key_error (p : plugin) topic :
  (is_Some (_get_topic_msg_type p topic) ↔ topic ∈ Subscriber.list_topics p)
  ∧ (∀ ty, Subscriber.topics p !! topic = Some ty →
       _get_topic_msg_type p topic = Some ty)
  ∧ (Subscriber.topics p !! topic = None →
       _get_topic_msg_type p topic = Subscriber.static_topics p !! topic)
  ∧ (topic ∈ Subscriber.list_topics p →
     (∀ ws_ok container last h mi now t_get t_available,
        (_poll_and_send_single_topic_data convert_message_to_dict hash_str ws_ok
           container p topic last h mi now t_get t_available).2 ≠ PollKeyError)
     ∧ (∀ container env,
          initial_send convert_message_to_dict hash_str container p topic env ≠ None)).
Proof.
  split; [apply get_topic_msg_type_listed |]. split; [| split].
  - intros ty Hty. unfold _get_topic_msg_type. by rewrite Hty.
  - intros Hnone. unfold _get_topic_msg_type. by rewrite Hnone.
  - intros [ty Hty]%get_topic_msg_type_listed. split.
    + intros ws_ok container last h mi now t_get t_available.
      unfold _poll_and_send_single_topic_data. cbv zeta.
      destruct (decide _); [done |].
      destruct (checked_msg_type p topic t_get t_available) as [Hsame _].
      rewrite Hty in Hsame.
      destruct (Subscriber.get_topic_data _ p topic t_get).2 as [cached_data |].
      * destruct (decide _); [| done]. by rewrite (send_update_typed _ _ _ _ ty).
      * destruct (Subscriber.is_topic_available _ _ _).2; [done |].
        destruct h as [h |]; [| by rewrite (send_update_typed _ _ _ _ ty)].
        destruct (decide _); [| done]. by rewrite (send_update_typed _ _ _ _ ty).
    + intros container env. unfold initial_send. cbv zeta.
      destruct (checked_msg_type p topic (connect_get_time env)
                  (connect_available_time env)) as [Hsame _].
      rewrite Hty in Hsame.
      destruct (Subscriber.get_topic_data _ p topic _).2 as [cached_data |].
      * rewrite (send_update_typed _ _ _ _ ty) by done.
        by destruct (connect_ws_ok env).
      * destruct (Subscriber.is_topic_available _ _ _).2; [done |].
        rewrite (send_update_typed _ _ _ _ ty) by done.
        by destruct (connect_ws_ok env).
Qed.

(** A pass that is due and finds a value: what it sends and returns. *)
Lemma poll_value ws_ok container (p : plugin) topic ty last h mi now t_get t_available
    cached_data :
  ¬ (now - last < mi)%Q →
  (Subscriber.get_topic_data convert_message_to_dict p topic t_get).2
    = Some cached_data →
  _get_topic_msg_type p topic = Some ty →
  let available :=
    (Subscriber.is_topic_available
       (Subscriber.get_topic_data convert_message_to_dict p topic t_get).1
       topic t_available).2 in
  let pass :=
    _poll_and_send_single_topic_data convert_message_to_dict hash_str ws_ok
      container p topic last h mi now t_get t_available in
  if decide (Some (hash_str (Subscriber.data cached_data)) ≠ h ∨ available = false)
  then pass.1.2
         = (if ws_ok
            then [data_frame container p topic ty (Subscriber.data cached_data) available]
            else [])
       ∧ pass.2 = Polled ws_ok now (Some (hash_str (Subscriber.data cached_data)))
  else pass.1.2 = [] ∧ pass.2 = Polled true last h.
Proof.
  intros Hdue Hgot Hty. cbv zeta.
  unfold _poll_and_send_single_topic_data. cbv zeta.
  destruct (decide (now - last < mi)%Q) as [? | _]; [contradiction |].
  rewrite Hgot.
  destruct (checked_msg_type p topic t_get t_available) as [Hsame Hdomain].
  rewrite Hty in Hsame.
  destruct (decide _); [| done].
  rewrite (send_update_typed _ _ _ _ ty) by done. cbn [fst snd].
  split; [| done]. unfold data_frame. rewrite Hdomain. by destruct ws_ok.
Qed.

(** X12. Change detection.  A pass that is due and finds a value: if the
    hash of the value is the tracked one and the topic is available, it sends
    nothing and leaves the tracking state alone; if the hash differs, it
    sends (over a live connection) exactly one data frame with that value and
    tracks the new hash.  So while the value keeps one hash and the topic stays
    available, a loop that has already sent it sends nothing. *)
Theorem unchanged_value_not_resent :
  (∀ ws_ok container (p : plugin) topic ty last h mi now t_get t_available cached_data,
     ¬ (now - last < mi)%Q →
     (Subscriber.get_topic_data convert_message_to_dict p topic t_get).2
       = Some cached_data →
     (Subscriber.is_topic_available
        (Subscriber.get_topic_data convert_message_to_dict p topic t_get).1
        topic t_available).2 = true →
     _get_topic_msg_type p topic = Some ty →
     (h = Some (hash_str (Subscriber.data cached_data)) →
        _poll_and_send_single_topic_data convert_message_to_dict hash_str ws_ok
          container p topic last h mi now t_get t_available
        = ((Subscriber.is_topic_available
              (Subscriber.get_topic_data convert_message_to_dict p topic t_get).1
              topic t_available).1, [], Polled true last h))
     ∧ (h ≠ Some (hash_str (Subscriber.data cached_data)) →
          (_poll_and_send_single_topic_data convert_message_to_dict hash_str true
             container p topic last h mi now t_get t_available).1.2
            = [data_frame container p topic ty (Subscriber.data cached_data) true]
          ∧ (_poll_and_send_single_topic_data convert_message_to_dict hash_str true
               container p topic last h mi now t_get t_available).2
            = Polled true now (Some (hash_str (Subscriber.data cached_data)))))
  ∧ (∀ container (p : plugin) topic mi ticks last h,
       Forall (steady_at p topic h) ticks →
       poll_loop convert_message_to_dict hash_str container p topic mi ticks
         last (Some h) = []).
Proof.
  split.
  - intros ws_ok container p topic ty last h mi now t_get t_available cached_data
      Hdue Hgot Havailable Hty.
    split.
    + intros ->. unfold _poll_and_send_single_topic_data. cbv zeta.
      destruct (decide (now - last < mi)%Q) as [? | _]; [contradiction |].
      rewrite Hgot, Havailable.
      destruct (decide _) as [[? | ?] | _]; [done | done | done].
    + intros Hnew.
      pose proof (poll_value true container p topic ty last h mi now t_get
                    t_available cached_data Hdue Hgot Hty) as Hpass.
      cbv zeta in Hpass. rewrite Havailable in Hpass.
      destruct (decide _) as [_ | Hno]; [done |].
      exfalso. apply Hno. left. congruence.
  - intros container p topic mi ticks last h Hticks. revert last.
    induction Hticks as [| tick ticks [(cached_data & Hgot & Hhash) Havailable] _ IH];
      intros last; [done |].
    cbn [poll_loop].
    destruct (decide (tick_time tick - last < mi)%Q) as [Hthrottled | Hdue].
    { rewrite (poll_throttled _ _ _ _ _ _ _ _ _ _ _ _ Hthrottled).
      cbn [fst snd fmap list_fmap app]. apply IH. }
    unfold _poll_and_send_single_topic_data. cbv zeta.
    destruct (decide (tick_time tick - last < mi)%Q) as [? | _]; [contradiction |].
    rewrite Hgot, Havailable, Hhash.
    destruct (decide _) as [[? | ?] | _]; [done | done |].
    cbn [fst snd fmap list_fmap app]. apply IH.
Qed.

(** A pass sends a frame only over a live connection. *)
Lemma poll_frame_live ws_ok container (p : plugin) topic last h mi now t_get t_available :
  (_poll_and_send_single_topic_data convert_message_to_dict hash_str ws_ok
     container p topic last h mi now t_get t_available).1.2 ≠ [] →
  ws_ok = true.
Proof.
  unfold _poll_and_send_single_topic_data. cbv zeta.
  assert (Hsend : ∀ (q : plugin) (data : option Data) available new_hash,
            (send_update ws_ok container q topic data available now new_hash).1.2 ≠ [] →
            ws_ok = true).
  { intros q data available new_hash. unfold send_update, _send_websocket_data.
    destruct (_get_topic_msg_type q topic); [| done]. by destruct ws_ok. }
  destruct (decide _); [done |].
  destruct (Subscriber.get_topic_data _ p topic t_get).2 as [cached_data |].
  - destruct (decide _); [apply Hsend | done].
  - destruct (Subscriber.is_topic_available _ _ _).2; [done |].
    destruct h as [h |]; [| apply Hsend].
    destruct (decide _); [apply Hsend | done].
Qed.

(** X13. Every frame of a poll loop was sent at a pass whose connection
    was live and carries the clock reading of that pass, passes in order and
    at most one frame a pass: the stamps of the frames are the readings of a
    subsequence of the live passes. *)
Theorem poll_loop_frames_from_live_passes container (p : plugin) topic mi ticks last h :
  ∃ passes,
    passes `sublist_of` filter (λ tick, tick_ws_ok tick = true) ticks
    ∧ (poll_loop convert_message_to_dict hash_str container p topic mi ticks last h).*1
      = tick_time <$> passes.
Proof.
  revert last h. induction ticks as [| tick ticks IH]; intros last h.
  { exists []. split; [constructor | done]. }
  cbn [poll_loop]. rewrite filter_cons.
  pose proof (poll_frame_live (tick_ws_ok tick) container
                (Subscriber.set_msg_cache p (tick_cache tick)) topic last h mi
                (tick_time tick) (tick_get_time tick) (tick_available_time tick))
    as Hlive.
  destruct (poll_cases convert_message_to_dict hash_str (tick_ws_ok tick) container
              (Subscriber.set_msg_cache p (tick_cache tick)) topic last h mi
              (tick_time tick) (tick_get_time tick) (tick_available_time tick))
    as [[Hnil Hres] | (f & h' & Hone & Hres & _)].
  - rewrite Hnil. cbn [fmap list_fmap app].
    assert (Hskip : ∀ passes,
              passes `sublist_of` filter (λ tick, tick_ws_ok tick = true) ticks →
              passes `sublist_of`
                (if decide (tick_ws_ok tick = true)
                 then tick :: filter (λ tick, tick_ws_ok tick = true) ticks
                 else filter (λ tick, tick_ws_ok tick = true) ticks)).
    { intros passes Hsub. destruct (decide _); [by apply sublist_cons | done]. }
    destruct Hres as [-> | [-> | [h' ->]]].
    + destruct (IH last h) as (passes & Hsub & Heq).
      exists passes. split; [by apply Hskip | done].
    + exists []. split; [apply sublist_nil_l | done].
    + exists []. split; [apply sublist_nil_l | done].
  - rewrite Hone in Hlive |- *. rewrite Hres. cbn [fmap list_fmap app].
    destruct (IH (tick_time tick) h') as (passes & Hsub & Heq).
    assert (Hok : tick_ws_ok tick = true) by (apply Hlive; discriminate).
    exists (tick :: passes). rewrite (decide_True _ _ Hok).
    split; [by apply sublist_skip |].
    rewrite !fmap_cons. cbn [fst]. by rewrite Heq.
Qed.

(** X14. How a session starts, for a container with a plugin and a topic
    of [list_topics], over a live connection: when the first read returns a
    value, the first frame of the session is the data frame with that value;
    when it returns none and the topic is not available, the first frame is
    the unavailable notice.  Either is stamped with [connect_time]. *)
Theorem session_first_frame (st : State.AppState Msg) container (p : plugin) topic
    env ticks :
  State.get_ros2_plugin st container = Some p →
  topic ∈ Subscriber.list_topics p →
  connect_ws_ok env = true →
  ∃ ty, _get_topic_msg_type p topic = Some ty
    ∧ (∀ cached_data,
         (Subscriber.get_topic_data convert_message_to_dict p topic
            (connect_get_time env)).2 = Some cached_data →
         ∃ rest,
           websocket_ros2_topic_data convert_message_to_dict hash_str st container
             topic env ticks
           = (connect_time env,
              data_frame container p topic ty (Subscriber.data cached_data)
                (Subscriber.is_topic_available
                   (Subscriber.get_topic_data convert_message_to_dict p topic
                      (connect_get_time env)).1
                   topic (connect_available_time env)).2) :: rest)
    ∧ ((Subscriber.get_topic_data convert_message_to_dict p topic
          (connect_get_time env)).2 = None →
       (Subscriber.is_topic_available
          (Subscriber.get_topic_data convert_message_to_dict p topic
             (connect_get_time env)).1
          topic (connect_available_time env)).2 = false →
       ∃ rest,
         websocket_ros2_topic_data convert_message_to_dict hash_str st container
           topic env ticks
         = (connect_time env, unavailable_notice container p topic ty) :: rest).
Proof.
  intros Hplugin Hlisted Hws.
  destruct (proj2 (get_topic_msg_type_listed p topic) Hlisted) as [ty Hty].
  exists ty. split; [done |].
  destruct (checked_msg_type p topic (connect_get_time env)
              (connect_available_time env)) as [Hsame Hdomain].
  rewrite Hty in Hsame.
  unfold websocket_ros2_topic_data. rewrite Hplugin.
  destruct (decide _) as [? | _]; [contradiction |].
  unfold initial_send. cbv zeta. split.
  - intros cached_data Hgot. rewrite Hgot.
    rewrite (send_update_typed _ _ _ _ ty) by done. rewrite Hws.
    cbn [fmap list_fmap app]. unfold data_frame. rewrite Hdomain. by eexists.
  - intros Hgot Havailable. rewrite Hgot, Havailable.
    rewrite (send_update_typed _ _ _ _ ty) by done. rewrite Hws.
    cbn [fmap list_fmap app]. unfold unavailable_notice. rewrite Hdomain. by eexists.
Qed.

End Facts.

(** *** Scenarios: the counter feed of [TopicSession] *)

(** Passes, half a second apart, over a cache that holds counter 7, just
    received. *)
Definition steady_tick (n : nat) : PollTick nat :=
  let now := (100 + inject_Z (Z.of_nat n) * (1 # 2))%Q in
  {| tick_cache :=
       {[ "/joint_states" :=
            {| Subscriber.raw_message := Some 7%nat;
               Subscriber.received_at := Some now |} ]};
     tick_time := now; tick_get_time := now; tick_available_time := now;
     tick_ws_ok := true |}.

Definition steady_ticks : list (PollTick nat) := steady_tick <$> seq 1 5.

(** The plugin after counter 7 arrived at time 100, and the state with it. *)
Definition warm_plugin : Subscriber.ROS2TopicSubscriber nat :=
  Subscriber.msg_callback counter_plugin "/joint_states" 7%nat 100.

Definition warm_state : State.AppState nat :=
  {| State._config := Some {[ "robot" ]};
     State._ros2_plugins := {[ "robot" := warm_plugin ]} |}.

Lemma joint_states_listed : "/joint_states" ∈ Subscriber.list_topics counter_plugin.
Proof. apply get_topic_msg_type_listed. by eexists. Qed.

Lemma joint_states_listed_warm : "/joint_states" ∈ Subscriber.list_topics warm_plugin.
Proof. apply get_topic_msg_type_listed. by eexists. Qed.

(** The configured topic never ends a pass or the first send in
    [KeyError]. *)
Lemma listed_topic_scenario :
  (_poll_and_send_single_topic_data counter_convert counter_hash true "robot"
     counter_plugin "/joint_states" 0 None min_interval 100 100 100).2
    ≠ PollKeyError
  ∧ initial_send counter_convert counter_hash "robot" counter_plugin
      "/joint_states" counter_connect ≠ None.
Proof.
  destruct (listed_topic_never_key_error counter_convert counter_hash
              counter_plugin "/joint_states") as (_ & _ & _ & Hlisted).
  destruct (Hlisted joint_states_listed) as [Hpass Hfirst].
  split; [apply Hpass | apply Hfirst].
Defined.

(** Counter 7 at every pass: a loop that tracks the hash of 7 sends
    nothing in five passes, and a pass that tracks the hash of 6 sends 7. *)
Lemma unchanged_value_scenario :
  poll_loop counter_convert counter_hash "robot" counter_plugin "/joint_states"
    min_interval steady_ticks 100 (Some 7%Z) = []
  ∧ (_poll_and_send_single_topic_data counter_convert counter_hash true "robot"
       warm_plugin "/joint_states" 0 (Some 6%Z) min_interval 100 100 100).1.2
    = [data_frame "robot" warm_plugin "/joint_states" "sensor_msgs/msg/JointState"
         7%nat true].
Proof.
  destruct (unchanged_value_not_resent counter_convert counter_hash)
    as [Hpass Hloop].
  split.
  - apply Hloop.
    repeat (constructor;
            [split; [eexists; split; reflexivity | reflexivity] |]).
    constructor.
  - refine (proj1 (proj2 (Hpass true "robot" warm_plugin "/joint_states"
                             "sensor_msgs/msg/JointState" 0%Q (Some 6%Z)
                             min_interval 100%Q 100%Q 100%Q
                             {| Subscriber.data := 7%nat;
                                Subscriber.td_received_at := Some 100%Q |}
                             _ _ _ _) _)).
    + by vm_compute.
    + reflexivity.
    + reflexivity.
    + reflexivity.
    + discriminate.
Defined.

(** A session on the cold plugin starts with the unavailable notice; one
    on the warm plugin starts with counter 7. *)
Lemma session_first_frame_scenario :
  (∃ rest,
     counter_session
     = (100%Q, unavailable_notice "robot" counter_plugin "/joint_states"
                 "sensor_msgs/msg/JointState") :: rest)
  ∧ (∃ rest,
       websocket_ros2_topic_data counter_convert counter_hash warm_state "robot"
         "/joint_states" counter_connect counter_ticks
       = (100%Q, data_frame "robot" warm_plugin "/joint_states"
                   "sensor_msgs/msg/JointState" 7%nat true) :: rest).
Proof.
  split.
  - destruct (session_first_frame counter_convert counter_hash counter_state "robot"
                counter_plugin "/joint_states" counter_connect counter_ticks
                eq_refl joint_states_listed eq_refl)
      as (ty & Hty & _ & Hcold).
    injection Hty as <-. apply Hcold; reflexivity.
  - destruct (session_first_frame counter_convert counter_hash warm_state "robot"
                warm_plugin "/joint_states" counter_connect counter_ticks
                eq_refl joint_states_listed_warm eq_refl)
      as (ty & Hty & Hwarm & _).
    injection Hty as <-.
    apply (Hwarm {| Subscriber.data := 7%nat;
                    Subscriber.td_received_at := Some 100%Q |}).
    reflexivity.
Defined.

End TopicSessionFacts.

(** ** [strip_ansi_codes] ([agent/utils.py]) *)
Module AgentUtils.

(** The characters of the pattern [\x1b\[[0-9;]*m], as bytes: the text is
    taken as the bytes it is decoded from, and every character of the pattern
    is an ASCII one. *)
Definition ESC : Byte.byte := Byte.x1b.
Definition BRACKET : Byte.byte := Byte.x5b.
Definition LETTER_M : Byte.byte := Byte.x6d.

#[local] Instance byte_eq_decision : EqDecision Byte.byte.
Proof.
  intros x y. destruct (Byte.eqb x y) eqn:Heq.
  - left. by apply Byte.byte_dec_bl.
  - right. by apply Byte.eqb_false.
Defined.

(** The class [[0-9;]]. *)
Definition is_parameter (b : Byte.byte) : bool :=
  match b with
  | Byte.x30 | Byte.x31 | Byte.x32 | Byte.x33 | Byte.x34
  | Byte.x35 | Byte.x36 | Byte.x37 | Byte.x38 | Byte.x39
  | Byte.x3b => true
  | _ => false
  end.

(** [[0-9;]*], greedy: the text after the longest run of parameters. *)
Fixpoint skip_parameters (text : list Byte.byte) : list Byte.byte :=
  match text with
  | [] => []
  | b :: rest => if is_parameter b then skip_parameters rest else text
  end.

(** A match of the pattern at the head of the text: the text after it.
    The run of parameters cannot be cut short, as [m] is no parameter. *)
Definition match_escape (text : list Byte.byte) : option (list Byte.byte) :=
  match text with
  | b1 :: b2 :: rest =>
      if decide (b1 = ESC ∧ b2 = BRACKET) then
        match skip_parameters rest with
        | b3 :: after => if decide (b3 = LETTER_M) then Some after else None
        | [] => None
        end
      else None
  | _ => None
  end.

(** [ansi_escape.sub('', text)]: the matches are taken from left to
    right, the search going on after each match.  [fuel] bounds the number of
    steps; the length of the text is enough. *)
Fixpoint strip_from (fuel : nat) (text : list Byte.byte) : list Byte.byte :=
  match fuel with
  | O => []
  | S fuel =>
      match text with
      | [] => []
      | b :: rest =>
          match match_escape text with
          | Some after => strip_from fuel after
          | None => b :: strip_from fuel rest
          end
      end
  end.

Definition strip_ansi_codes (text : list Byte.byte) : list Byte.byte :=
  strip_from (length text) text.

(** An escape sequence with the given parameters. *)
Definition escape (parameters : list Byte.byte) : list Byte.byte :=
  ESC :: BRACKET :: parameters ++ [LETTER_M].

Definition parameters (text : list Byte.byte) : Prop :=
  Forall (λ b, is_parameter b = true) text.

Lemma skip_parameters_suffix text : skip_parameters text `suffix_of` text.
Proof.
  induction text as [| b text IH]; [done |]. cbn [skip_parameters].
  destruct (is_parameter b); [by apply suffix_cons_r | done].
Qed.

Lemma skip_parameters_app run text :
  parameters run →
  skip_parameters (run ++ LETTER_M :: text) = LETTER_M :: text.
Proof.
  induction 1 as [| b run Hb _ IH]; [done |].
  cbn [app skip_parameters]. by rewrite Hb.
Qed.

Lemma match_escape_shorter text after :
  match_escape text = Some after → (length after < length text)%nat.
Proof.
  unfold match_escape.
  destruct text as [| b1 [| b2 rest]]; [done | done |].
  destruct (decide _); [| done].
  pose proof (suffix_length _ _ (skip_parameters_suffix rest)) as Hlen.
  destruct (skip_parameters rest) as [| b3 after']; [done |].
  destruct (decide _); [| done]. intros [= <-]. cbn [length] in *. lia.
Qed.

Lemma match_escape_sublist text after :
  match_escape text = Some after → after `sublist_of` text.
Proof.
  unfold match_escape.
  destruct text as [| b1 [| b2 rest]]; [done | done |].
  destruct (decide _); [| done].
  pose proof (skip_parameters_suffix rest) as Hsuffix.
  destruct (skip_parameters rest) as [| b3 after']; [done |].
  destruct (decide _); [| done]. intros [= <-].
  destruct Hsuffix as [k ->].
  do 2 apply sublist_cons. apply sublist_inserts_l. by apply sublist_cons.
Qed.

Lemma match_escape_head b text :
  b ≠ ESC → match_escape (b :: text) = None.
Proof.
  intros Hb. unfold match_escape. destruct text as [| b2 rest]; [done |].
  destruct (decide _) as [[? _] | _]; done.
Qed.

Lemma match_escape_escape run text :
  parameters run → match_escape (escape run ++ text) = Some text.
Proof.
  intros Hrun. unfold escape, match_escape. cbn [app].
  destruct (decide _) as [_ | Hno]; [| by destruct Hno].
  rewrite <- app_assoc. cbn [app]. rewrite skip_parameters_app by done.
  by destruct (decide _).
Qed.

(** Fuel beyond the length of the text changes nothing. *)
Lemma strip_from_enough fuel : ∀ fuel' text,
  (length text ≤ fuel)%nat → (length text ≤ fuel')%nat →
  strip_from fuel text = strip_from fuel' text.
Proof.
  induction fuel as [| fuel IH]; intros fuel' text Hfuel Hfuel'.
  { destruct text; [by destruct fuel' | cbn [length] in Hfuel; lia]. }
  destruct fuel' as [| fuel'].
  { destruct text; [done | cbn [length] in Hfuel'; lia]. }
  cbn [strip_from]. destruct text as [| b rest]; [done |].
  cbn [length] in Hfuel, Hfuel'.
  destruct (match_escape (b :: rest)) as [after |] eqn:Hmatch.
  - apply match_escape_shorter in Hmatch. cbn [length] in Hmatch.
    apply IH; lia.
  - f_equal. apply IH; lia.
Qed.

(** The equation of the substitution. *)
Lemma strip_ansi_codes_cons b rest :
  strip_ansi_codes (b :: rest)
    = match match_escape (b :: rest) with
      | Some after => strip_ansi_codes after
      | None => b :: strip_ansi_codes rest
      end.
Proof.
  unfold strip_ansi_codes. cbn [length strip_from].
  destruct (match_escape (b :: rest)) as [after |] eqn:Hmatch.
  - apply match_escape_shorter in Hmatch. cbn [length] in Hmatch.
    apply strip_from_enough; lia.
  - done.
Qed.

Lemma strip_ansi_codes_plain b rest :
  b ≠ ESC → strip_ansi_codes (b :: rest) = b :: strip_ansi_codes rest.
Proof.
  intros Hb. by rewrite strip_ansi_codes_cons, match_escape_head.
Qed.

Lemma strip_ansi_codes_escape run text :
  parameters run → strip_ansi_codes (escape run ++ text) = strip_ansi_codes text.
Proof.
  intros Hrun. pose proof (match_escape_escape run text Hrun) as Hmatch.
  unfold escape in *. cbn [app] in *.
  by rewrite strip_ansi_codes_cons, Hmatch.
Qed.

(** X15. [strip_ansi_codes] removes an escape sequence [ESC [ ... m]
    with any run of digits and semicolons, leaves every character up to the
    next ESC where it is, returns a text without ESC as it is, and only ever
    deletes: the result is a subsequence of the text. *)
Theorem strip_ansi_codes_removes_escapes :
  (∀ run text, parameters run →
     strip_ansi_codes (escape run ++ text) = strip_ansi_codes text)
  ∧ (∀ plain text, ESC ∉ plain →
       strip_ansi_codes (plain ++ text) = plain ++ strip_ansi_codes text)
  ∧ (∀ text, ESC ∉ text → strip_ansi_codes text = text)
  ∧ (∀ text, strip_ansi_codes text `sublist_of` text).
Proof.
  assert (Hplain : ∀ plain text, ESC ∉ plain →
            strip_ansi_codes (plain ++ text) = plain ++ strip_ansi_codes text).
  { intros plain text. induction plain as [| b plain IH]; intros Hno; [done |].
    apply not_elem_of_cons in Hno as [Hb Hno]. cbn [app].
    rewrite strip_ansi_codes_plain by done. by rewrite IH. }
  split; [apply strip_ansi_codes_escape |]. split; [exact Hplain |]. split.
  - intros text Hno. pose proof (Hplain text [] Hno) as Heq.
    by rewrite !app_nil_r in Heq.
  - intros text. remember (length text) as n eqn:Hn.
    revert text Hn. induction (lt_wf n) as [n _ IH]. intros text ->.
    destruct text as [| b rest]; [done |].
    rewrite strip_ansi_codes_cons.
    destruct (match_escape (b :: rest)) as [after |] eqn:Hmatch.
    + etrans; [| by apply match_escape_sublist].
      apply (IH (length after)); [by apply match_escape_shorter | done].
    + apply sublist_skip. apply (IH (length rest)); [cbn [length]; lia | done].
Qed.

(** X16. The substitution is a single pass from left to right: what it
    returns is not searched again.  An escape sequence that comes together
    only when an inner one is removed stays in the result, so stripping twice
    can remove more than stripping once. *)
Theorem strip_ansi_codes_single_pass run :
  parameters run →
  strip_ansi_codes ([ESC; BRACKET] ++ escape run ++ [LETTER_M]) = escape []
  ∧ strip_ansi_codes (strip_ansi_codes ([ESC; BRACKET] ++ escape run ++ [LETTER_M]))
    = [].
Proof.
  intros Hrun.
  assert (Hfirst :
    strip_ansi_codes ([ESC; BRACKET] ++ escape run ++ [LETTER_M]) = escape []).
  { cbn [app]. rewrite strip_ansi_codes_cons.
    assert (Hno : match_escape (ESC :: BRACKET :: escape run ++ [LETTER_M]) = None).
    { unfold match_escape, escape. cbn [app skip_parameters is_parameter ESC].
      by destruct (decide _). }
    rewrite Hno. rewrite strip_ansi_codes_plain by done.
    by rewrite strip_ansi_codes_escape. }
  split; [exact Hfirst |]. rewrite Hfirst.
  pose proof (strip_ansi_codes_escape [] [] ltac:(constructor)) as Hsecond.
  by rewrite app_nil_r in Hsecond.
Qed.

(** "ESC[31mERR ESC[0m": the colours go, the text stays. *)
Definition red_err : list Byte.byte :=
  escape [Byte.x33; Byte.x31] ++ [Byte.x45; Byte.x52; Byte.x52; Byte.x20]
  ++ escape [Byte.x30].

Example strip_red_err :
  strip_ansi_codes red_err = [Byte.x45; Byte.x52; Byte.x52; Byte.x20].
Proof. reflexivity. Qed.

Lemma strip_ansi_codes_scenario :
  strip_ansi_codes (escape [Byte.x33; Byte.x31] ++ [Byte.x45; Byte.x52])
    = strip_ansi_codes [Byte.x45; Byte.x52]
  ∧ strip_ansi_codes [Byte.x45; Byte.x52] = [Byte.x45; Byte.x52].
Proof.
  destruct strip_ansi_codes_removes_escapes as (Hescape & _ & Hplain & _).
  split.
  - apply Hescape. repeat constructor.
  - apply Hplain. intros Hin. by repeat (apply elem_of_cons in Hin as [? | Hin]; [done |]);
      apply elem_of_nil in Hin.
Defined.

Lemma strip_ansi_codes_single_pass_scenario :
  strip_ansi_codes ([ESC; BRACKET] ++ escape [Byte.x30] ++ [LETTER_M]) = escape []
  ∧ strip_ansi_codes (strip_ansi_codes ([ESC; BRACKET] ++ escape [Byte.x30] ++ [LETTER_M]))
    = [].
Proof. apply strip_ansi_codes_single_pass. repeat constructor. Defined.

End AgentUtils.

(** ** More on the agent's log endpoints ([talos/agent/routers/logs.py]) *)
Module AgentLogsFacts.
Import AgentLogs.

(** How [clear_service_logs] ends. *)
Inductive ClearOutcome :=
  | Cleared
  | ClearHTTPException (status_code : Z).

(** [clear_service_logs]: the log file after the request, and the
    outcome.  Opening the file for writing truncates it; [io_ok] says whether
    the file can be opened: when [open] raises the file is as it was and the
    answer is 500. *)
Definition clear_service_logs (log_file : option (list Byte.byte)) (io_ok : bool)
    : option (list Byte.byte) * ClearOutcome :=
  match log_file with
  | None => (None, ClearHTTPException 404)
  | Some content =>
      if io_ok then (Some [], Cleared)
      else (Some content, ClearHTTPException 500)
  end.

(** The log file after [ext] was written to it. *)
Definition append (log_file : option (list Byte.byte)) (ext : list Byte.byte)
    : option (list Byte.byte) :=
  match log_file with
  | Some content => Some (content ++ ext)
  | None => None
  end.

(** The size of the log file, 0 when there is none. *)
Definition file_size (log_file : option (list Byte.byte)) : Z :=
  Z.of_nat (length (default [] log_file)).

Section Facts.
Variable strip_ansi_codes : list Byte.byte → list Byte.byte.
Variable run_tail : Z → list Byte.byte → option (list Byte.byte).
Variable decode_step : Byte.byte → list Byte.byte → list Byte.byte * nat.

Local Abbreviation decode := (AgentLogs.decode decode_step).

(** The text of a response, stripped on request. *)
Definition shown (strip_ansi : bool) (logs : list Byte.byte) : list Byte.byte :=
  if strip_ansi then strip_ansi_codes logs else logs.

(** The answer to a cursor over an existing file that can be read. *)
Lemma get_service_logs_at (content : list Byte.byte) tail strip_ansi (c : Z) :
  get_service_logs strip_ansi_codes run_tail decode_step (Some content) true tail
    strip_ansi (Some c)
    = AgentReturned
        {| logs :=
             shown strip_ansi
               (decode
                  (drop (Z.to_nat (Z.min (Z.max 0 c) (Z.of_nat (length content))))
                     content));
           tail := None;
           cursor := Some (Z.of_nat (length content)) |}.
Proof.
  unfold get_service_logs, shown. cbn [negb]. cbv zeta.
  destruct (decide (c < 0)%Z) as [Hneg | Hnonneg].
  - destruct (decide (0 > Z.of_nat (length content))%Z) as [? | _]; [lia |].
    replace (Z.min (Z.max 0 c) (Z.of_nat (length content))) with 0%Z by lia.
    repeat f_equal. all: rewrite length_drop; lia.
  - destruct (decide (c > Z.of_nat (length content))%Z) as [Hbeyond | Hwithin].
    + replace (Z.min (Z.max 0 c) (Z.of_nat (length content)))
        with (Z.of_nat (length content)) by lia.
      repeat f_equal. all: rewrite length_drop; lia.
    + replace (Z.min (Z.max 0 c) (Z.of_nat (length content))) with c by lia.
      repeat f_equal. all: rewrite length_drop; lia.
Qed.

(** X17. Reading by cursor resumes where the last answer ended: with the
    cursor an answer returned, over the file grown by [ext] since, the agent
    returns the decoding of [ext], taken on its own, and the new size.  The
    cursor counts the bytes of the file, whatever they decode to and also when
    the text returned was stripped.  A cursor of zero or less gives the
    decoding of the whole file, one at the end or beyond gives nothing. *)
Theorem cursor_read_resumes (content : list Byte.byte) tail strip_ansi :
  (∀ ext,
     get_service_logs strip_ansi_codes run_tail decode_step (Some (content ++ ext))
       true tail strip_ansi (Some (Z.of_nat (length content)))
     = AgentReturned
         {| logs := shown strip_ansi (decode ext); tail := None;
            cursor := Some (Z.of_nat (length content) + Z.of_nat (length ext))%Z |})
  ∧ (∀ c, (c <= 0)%Z →
       get_service_logs strip_ansi_codes run_tail decode_step (Some content) true tail
         strip_ansi (Some c)
       = AgentReturned
           {| logs := shown strip_ansi (decode content); tail := None;
              cursor := Some (Z.of_nat (length content)) |})
  ∧ (∀ c, (Z.of_nat (length content) <= c)%Z →
       get_service_logs strip_ansi_codes run_tail decode_step (Some content) true tail
         strip_ansi (Some c)
       = AgentReturned
           {| logs := shown strip_ansi []; tail := None;
              cursor := Some (Z.of_nat (length content)) |}).
Proof.
  split; [| split].
  - intros ext. rewrite get_service_logs_at, length_app.
    replace (Z.min (Z.max 0 (Z.of_nat (length content)))
               (Z.of_nat (length content + length ext)))
      with (Z.of_nat (length content)) by lia.
    rewrite Nat2Z.id, drop_app_length. do 3 f_equal. lia.
  - intros c Hc. rewrite get_service_logs_at.
    by replace (Z.min (Z.max 0 c) (Z.of_nat (length content))) with 0%Z by lia.
  - intros c Hc. rewrite get_service_logs_at.
    replace (Z.min (Z.max 0 c) (Z.of_nat (length content)))
      with (Z.of_nat (length content)) by lia.
    by rewrite Nat2Z.id, drop_all.
Qed.


(** X19. [clear_service_logs] answers 404 for a missing file, which it
    leaves missing (where [get_service_logs] answers with empty logs), and
    500 when the file cannot be opened, which it leaves as it was; otherwise
    it empties the file.  After that every reader, whatever its cursor, is
    answered with cursor 0 and no text, and what is appended afterwards is
    read from its first byte. *)
Theorem clear_service_logs_resets_readers :
  (∀ io_ok, clear_service_logs None io_ok = (None, ClearHTTPException 404))
  ∧ (∀ content,
       clear_service_logs (Some content) false
         = (Some content, ClearHTTPException 500)
       ∧ (clear_service_logs (Some content) true).2 = Cleared
       ∧ file_size (clear_service_logs (Some content) true).1 = 0%Z
       ∧ clear_service_logs (clear_service_logs (Some content) true).1 true
         = clear_service_logs (Some content) true
       ∧ (∀ tail strip_ansi c,
            get_service_logs strip_ansi_codes run_tail decode_step
              (clear_service_logs (Some content) true).1 true tail strip_ansi (Some c)
            = AgentReturned
                {| logs := shown strip_ansi []; tail := None; cursor := Some 0%Z |})
       ∧ (∀ tail strip_ansi ext,
            get_service_logs strip_ansi_codes run_tail decode_step
              (append (clear_service_logs (Some content) true).1 ext) true tail
              strip_ansi (Some 0%Z)
            = AgentReturned
                {| logs := shown strip_ansi (decode ext); tail := None;
                   cursor := Some (Z.of_nat (length ext)) |})).
Proof.
  split; [done |]. intros content. cbn [clear_service_logs fst snd].
  split; [done |]. split; [done |]. split; [done |]. split; [done |]. split.
  - intros tail strip_ansi c. rewrite get_service_logs_at.
    by rewrite drop_nil.
  - intros tail strip_ansi ext. cbn [append app].
    rewrite get_service_logs_at.
    by replace (Z.min (Z.max 0 0) (Z.of_nat (length ext))) with 0%Z by lia.
Qed.

End Facts.


End AgentLogsFacts.

(** ** More on log sessions: failures, status, the first fetch *)
Module LogSessionFacts.
Import LogSession.

Section Facts.
Variable strip_ansi_codes : list Byte.byte → list Byte.byte.
Variable run_tail : Z → list Byte.byte → option (list Byte.byte).
Variable decode_step : Byte.byte → list Byte.byte → list Byte.byte * nat.

Local Abbreviation decode := (AgentLogs.decode decode_step).
Local Abbreviation iteration :=
  (log_poll_iteration strip_ansi_codes run_tail decode_step).
Local Abbreviation loop := (log_poll_loop strip_ansi_codes run_tail decode_step).

(** The session the loop of [websocket_service_logs] starts from. *)
Definition first_session (c : option Z) : Session :=
  {| cursor := c; fallback_logs_sent := false; last_service_status_check := 0;
     service_is_up := true; log_service_is_up := true |}.

(** Every answer of the agent carries a cursor, which is not negative. *)
Lemma client_get_service_logs_cursor agent_up log_file tail c response :
  client_get_service_logs strip_ansi_codes run_tail decode_step agent_up log_file tail c
    = Some response →
  ∃ z, AgentLogs.cursor response = Some z ∧ (0 <= z)%Z.
Proof.
  unfold client_get_service_logs. destruct agent_up; [| done].
  destruct log_file as [content |].
  - destruct c as [c |].
    + rewrite get_service_logs_cursor. intros [= <-].
      exists (Z.of_nat (length content)). split; [done | lia].
    + unfold AgentLogs.get_service_logs. cbn [negb].
      destruct (run_tail tail content) as [stdout |]; [| done].
      intros [= <-]. exists (Z.of_nat (length content)). split; [done | lia].
  - unfold AgentLogs.get_service_logs. intros [= <-]. by exists 0%Z.
Qed.

(** The status flags after an iteration are those of its status check. *)
Lemma log_poll_iteration_flags tick s :
  service_is_up (iteration tick s).1.1 = service_is_up (refresh_status tick s)
  ∧ log_service_is_up (iteration tick s).1.1
    = log_service_is_up (refresh_status tick s).
Proof.
  unfold log_poll_iteration. cbv zeta.
  destruct (cursor (refresh_status tick s)) as [c |].
  - destruct (client_get_service_logs _ _ _ _ _ _ _) as [r |]; [| done].
    destruct (decide _); [| done].
    by destruct (_send_websocket_logs _ _).1.
  - destruct (client_get_service_logs _ _ _ _ _ _ _) as [r |]; [| done].
    destruct (AgentLogs.cursor r); [| done]. cbn [fallback_logs_sent set_cursor].
    destruct (fallback_logs_sent (refresh_status tick s)); [done |].
    destruct (decide _); [| done].
    by destruct (_send_websocket_logs _ _).1.
Qed.

(** An iteration that starts with a cursor ends with one. *)
Lemma log_poll_iteration_keeps_cursor tick s c :
  cursor s = Some c → (0 <= c)%Z →
  (∃ c', cursor (iteration tick s).1.1 = Some c' ∧ (0 <= c')%Z)
  ∧ fallback_logs_sent (iteration tick s).1.1 = fallback_logs_sent s.
Proof.
  intros Hc Hpos.
  assert (Hsent : fallback_logs_sent (refresh_status tick s) = fallback_logs_sent s).
  { unfold refresh_status. by destruct (decide _). }
  unfold log_poll_iteration. cbv zeta. rewrite refresh_status_cursor, Hc.
  destruct (client_get_service_logs _ _ _ _ _ _ _) as [r |] eqn:Hget.
  - destruct (client_get_service_logs_cursor _ _ _ _ _ Hget) as (z & Hz & Hzpos).
    rewrite Hz. cbn [default from_option]. unfold id.
    destruct (decide _).
    + destruct (_send_websocket_logs _ _).1; cbn [fst snd set_cursor cursor
        fallback_logs_sent].
      * split; [by exists z | done].
      * rewrite refresh_status_cursor, Hc. split; [by exists c | done].
    + cbn [fst snd set_cursor cursor fallback_logs_sent]. split; [by exists z | done].
  - cbn [fst snd]. rewrite refresh_status_cursor, Hc. split; [by exists c | done].
Qed.

(** X20. A log session always has a cursor.  The first fetch, however it
    goes, hands the loop a cursor that is not negative, and no iteration
    loses it; so the loop of a session never takes its tail fallback, and
    [fallback_logs_sent] stays as it was. *)
Theorem log_session_cursor_always_set :
  (∀ env c frames,
     initial_fetch strip_ansi_codes run_tail decode_step env = Some (c, frames) →
     ∃ z, c = Some z ∧ (0 <= z)%Z)
  ∧ (∀ ticks s z,
       cursor s = Some z → (0 <= z)%Z →
       (∃ z', cursor (loop ticks s).1 = Some z' ∧ (0 <= z')%Z)
       ∧ fallback_logs_sent (loop ticks s).1 = fallback_logs_sent s).
Proof.
  split.
  - intros env c frames. unfold initial_fetch. cbv zeta.
    destruct (client_get_service_logs _ _ _ (initial_agent_up env) _ _ _)
      as [r |] eqn:Hfirst.
    + destruct (client_get_service_logs_cursor _ _ _ _ _ Hfirst) as (z & Hz & Hzpos).
      rewrite Hz.
      destruct (if decide (AgentLogs.logs r ≠ []) then _ else _).1; [| done].
      intros [= <- _].
      destruct (client_get_service_logs _ _ _ (refresh_agent_up env) _ _ _)
        as [r' |] eqn:Hrefresh.
      * destruct (client_get_service_logs_cursor _ _ _ _ _ Hrefresh)
          as (z' & Hz' & Hzpos').
        rewrite Hz'. by exists z'.
      * by exists z.
    + destruct (_send_websocket_error _ _).1; [| done].
      intros [= <- _]. by exists 0%Z.
  - intros ticks. induction ticks as [| tick ticks IH]; intros s z Hz Hzpos.
    { cbn [log_poll_loop fst]. split; [by exists z | done]. }
    cbn [log_poll_loop].
    destruct (log_poll_iteration_keeps_cursor tick s z Hz Hzpos)
      as [(z' & Hz' & Hzpos') Hsent].
    destruct (iteration tick s).2.
    + cbn [fst]. destruct (IH (iteration tick s).1.1 z' Hz' Hzpos') as [Hcursor Hsent'].
      split; [exact Hcursor | congruence].
    + cbn [fst]. split; [by exists z' | done].
Qed.

(** X21. A service without a log service loses no logs to the status
    check: when the status request for the log service raises, it counts as
    up.  From a session that counts it as up, over iterations at which that
    request always raises, the service or its log service counts as up at
    every iteration, whatever the service itself reports. *)
Theorem missing_log_service_counts_as_up ticks : ∀ s,
  log_service_is_up s = true →
  Forall (λ tick, tick_log_service_status tick = None) ticks →
  reported_up strip_ansi_codes run_tail decode_step ticks s
  ∧ log_service_is_up (loop ticks s).1 = true.
Proof.
  induction ticks as [| tick ticks IH]; intros s Hup Hticks; [done |].
  apply Forall_cons in Hticks as [Hnone Hticks].
  assert (Hrefreshed : log_service_is_up (refresh_status tick s) = true).
  { unfold refresh_status, _check_service_status. rewrite Hnone.
    by destruct (decide _). }
  destruct (log_poll_iteration_flags tick s) as [_ Hflag].
  rewrite Hrefreshed in Hflag.
  destruct (IH (iteration tick s).1.1 Hflag Hticks) as [Hreported Hlast].
  cbn [reported_up log_poll_loop]. split.
  - split; [by right | exact Hreported].
  - by destruct (iteration tick s).2.
Qed.

(** X22. Where the loop starts.  When the first fetch and the send of
    its logs succeed, the session has sent the output of [tail] (nothing when
    that is empty) and its cursor is the size of the file at the refresh
    request: a first iteration over that same file sends nothing.  When the
    refresh fails, the cursor is the size of the file at the first fetch. *)
Theorem initial_fetch_starts_at_refresh env content stdout :
  initial_agent_up env = true →
  initial_file env = Some content →
  run_tail INITIAL_LOG_TAIL content = Some stdout →
  connect_ws_ok env = true →
  (∀ refreshed,
     refresh_agent_up env = true → refresh_file env = Some refreshed →
     initial_fetch strip_ansi_codes run_tail decode_step env
       = Some (Some (Z.of_nat (length refreshed)),
               if decide (stdout ≠ []) then [LogsFrame stdout] else [])
     ∧ ∀ tick,
         tick_file tick = Some refreshed → tick_agent_up tick = true →
         (iteration tick (first_session (Some (Z.of_nat (length refreshed))))).1.2
           = [])
  ∧ (refresh_agent_up env = false →
       initial_fetch strip_ansi_codes run_tail decode_step env
         = Some (Some (Z.of_nat (length content)),
                 if decide (stdout ≠ []) then [LogsFrame stdout] else [])).
Proof.
  intros Hup Hfile Htail Hws.
  assert (Hfirst :
    client_get_service_logs strip_ansi_codes run_tail decode_step (initial_agent_up env)
      (initial_file env) INITIAL_LOG_TAIL None
    = Some {| AgentLogs.logs := stdout; AgentLogs.tail := Some INITIAL_LOG_TAIL;
              AgentLogs.cursor := Some (Z.of_nat (length content)) |}).
  { unfold client_get_service_logs, AgentLogs.get_service_logs.
    rewrite Hup, Hfile. cbn [negb]. by rewrite Htail. }
  split.
  - intros refreshed Hrefresh_up Hrefresh_file. split.
    + unfold initial_fetch. rewrite Hfirst. cbv zeta.
      cbn [AgentLogs.logs AgentLogs.cursor].
      unfold client_get_service_logs.
      rewrite Hrefresh_up, Hrefresh_file, get_service_logs_cursor.
      cbn [AgentLogs.cursor default from_option]. unfold id.
      unfold _send_websocket_logs. rewrite Hws.
      by destruct (decide (stdout ≠ [])).
    + intros tick Htick_file Htick_up.
      rewrite (log_poll_iteration_cursor strip_ansi_codes run_tail decode_step tick _
                 (Z.of_nat (length refreshed)) refreshed) by done.
      cbv zeta.
      replace (Z.min (Z.max 0 (Z.of_nat (length refreshed)))
                 (Z.of_nat (length refreshed)))
        with (Z.of_nat (length refreshed)) by lia.
      rewrite Nat2Z.id, drop_all, decode_nil.
      destruct (decide _) as [[? _] | _]; done.
  - intros Hrefresh_down.
    unfold initial_fetch. rewrite Hfirst. cbv zeta.
    cbn [AgentLogs.logs AgentLogs.cursor].
    unfold client_get_service_logs at 1. rewrite Hrefresh_down.
    unfold _send_websocket_logs. rewrite Hws.
    by destruct (decide (stdout ≠ [])).
Qed.

(** X23. Failed requests are retried.  When the first fetch fails, the
    session sends one error frame, with the text of the exception, and its
    loop starts from cursor 0, so that the first iteration that reaches the
    agent sends the decoding of the whole file.  An iteration whose request
    fails sends nothing, keeps the cursor and does not end the loop: after any
    number of them the loop goes on as it would have. *)
Theorem failed_fetch_retried :
  (∀ env,
     client_get_service_logs strip_ansi_codes run_tail decode_step (initial_agent_up env)
       (initial_file env) INITIAL_LOG_TAIL None = None →
     connect_ws_ok env = true →
     initial_fetch strip_ansi_codes run_tail decode_step env
       = Some (Some 0%Z,
               [ErrorFrame ("Failed to fetch initial logs: " +:+ initial_error env)])
     ∧ ∀ tick content,
         tick_file tick = Some content → decode content ≠ [] →
         tick_agent_up tick = true → tick_ws_ok tick = true →
         (service_is_up (refresh_status tick (first_session (Some 0%Z))) = true
          ∨ log_service_is_up (refresh_status tick (first_session (Some 0%Z))) = true) →
         (iteration tick (first_session (Some 0%Z))).1.2
           = [LogsFrame (decode content)])
  ∧ (∀ failed s,
       is_Some (cursor s) →
       Forall (λ tick, tick_agent_up tick = false) failed →
       (loop failed s).2 = []
       ∧ cursor (loop failed s).1 = cursor s
       ∧ ∀ rest, (loop (failed ++ rest) s).2 = (loop rest (loop failed s).1).2).
Proof.
  split.
  - intros env Hfailed Hws. split.
    + unfold initial_fetch. rewrite Hfailed. cbv zeta.
      unfold _send_websocket_error. by rewrite Hws.
    + intros tick content Hfile Hcontent Hup Hok Hreported.
      rewrite (log_poll_iteration_cursor strip_ansi_codes run_tail decode_step tick _ 0%Z content)
        by done.
      cbv zeta.
      replace (Z.min (Z.max 0 0) (Z.of_nat (length content))) with 0%Z by lia.
      cbn [Z.to_nat drop]. rewrite Hok.
      destruct (decide _) as [_ | Hno]; [done |].
      exfalso. apply Hno. by split.
  - intros failed. induction failed as [| tick failed IH]; intros s Hcursor Hfailed.
    { done. }
    apply Forall_cons in Hfailed as [Hdown Hfailed].
    destruct Hcursor as [c Hc].
    pose proof (log_poll_iteration_agent_down strip_ansi_codes run_tail decode_step tick s c
                  Hc Hdown) as Hstep.
    assert (Hnext : is_Some (cursor (refresh_status tick s))).
    { rewrite refresh_status_cursor, Hc. by eexists. }
    destruct (IH (refresh_status tick s) Hnext Hfailed) as (Hnil & Hkept & Hrest).
    cbn [log_poll_loop app]. rewrite Hstep. cbn [fst snd app].
    split; [exact Hnil |]. split.
    + by rewrite Hkept, refresh_status_cursor.
    + intros rest. by rewrite Hrest.
Qed.

(** X24. Clearing the log under a session.  The iteration after a
    [clear_service_logs] that succeeds sends nothing and takes cursor 0,
    whatever the cursor was; when the service or its log service counts as up,
    the iteration after that sends the decoding of what was appended since
    the clearing. *)
Theorem clear_restarts_delivery tick later s c content ext :
  cursor s = Some c →
  tick_file tick = (AgentLogsFacts.clear_service_logs (Some content) true).1 →
  tick_agent_up tick = true →
  iteration tick s = (set_cursor (refresh_status tick s) (Some 0%Z), [], true)
  ∧ (tick_file later = AgentLogsFacts.append (tick_file tick) ext →
     decode ext ≠ [] →
     tick_agent_up later = true →
     tick_ws_ok later = true →
     (service_is_up (refresh_status later (iteration tick s).1.1) = true
      ∨ log_service_is_up (refresh_status later (iteration tick s).1.1) = true) →
       (iteration later (iteration tick s).1.1).1.2 = [LogsFrame (decode ext)]
       ∧ cursor (iteration later (iteration tick s).1.1).1.1
         = Some (Z.of_nat (length ext))).
Proof.
  intros Hc Hfile Hup. cbn [AgentLogsFacts.clear_service_logs fst] in Hfile.
  assert (Hstep :
    iteration tick s = (set_cursor (refresh_status tick s) (Some 0%Z), [], true)).
  { rewrite (log_poll_iteration_cursor strip_ansi_codes run_tail decode_step tick s c []) by done.
    cbv zeta. rewrite drop_nil, decode_nil.
    destruct (decide _) as [[? _] | _]; done. }
  split; [exact Hstep |].
  intros Hlater Hext Hlater_up Hlater_ok Hreported.
  rewrite Hfile in Hlater. cbn [AgentLogsFacts.append app] in Hlater.
  rewrite Hstep in Hreported |- *. cbn [fst snd] in Hreported |- *.
  rewrite (log_poll_iteration_cursor strip_ansi_codes run_tail decode_step later _ 0%Z ext)
    by done.
  cbv zeta.
  replace (Z.min (Z.max 0 0) (Z.of_nat (length ext))) with 0%Z by lia.
  cbn [Z.to_nat drop]. rewrite Hlater_ok.
  destruct (decide _) as [_ | Hno]; [done |].
  exfalso. apply Hno. by split.
Qed.

End Facts.

(** *** Scenarios, with the agent's own [strip_ansi_codes] *)

(** An iteration at which the service is reported down and the status
    request for the log service raises, as for a service without one. *)
Definition no_log_service_tick (now : Q) (content : string) : LogTick :=
  {| tick_time := now; tick_file := Some (bytes content); tick_agent_up := true;
     tick_service_status := Some (Some false);
     tick_log_service_status := None;
     tick_ws_ok := true |}.

(** An iteration at which the agent does not answer. *)
Definition agent_down_tick (now : Q) : LogTick :=
  {| tick_time := now; tick_file := Some (bytes "abcde"); tick_agent_up := false;
     tick_service_status := None; tick_log_service_status := None;
     tick_ws_ok := true |}.

(** A connection accepted while the agent does not answer. *)
Definition failed_connect : ConnectEnv :=
  {| initial_file := Some (bytes "abc"); initial_agent_up := false;
     initial_error := "All connection attempts failed";
     fallback_file := Some (bytes "abc"); fallback_agent_up := false;
     refresh_file := Some (bytes "abc"); refresh_agent_up := false;
     connect_ws_ok := true |}.

(** The iteration that finds the log cleared, and the next one, after
    [new] was written. *)
Definition cleared_tick : LogTick :=
  {| tick_time := 1; tick_file := Some []; tick_agent_up := true;
     tick_service_status := Some (Some true);
     tick_log_service_status := Some (Some true);
     tick_ws_ok := true |}.

Lemma log_session_cursor_scenario :
  (∃ z, cursor (log_poll_loop AgentUtils.strip_ansi_codes demo_tail demo_decode_step
                  down_then_up_ticks session_at_3).1 = Some z ∧ (0 <= z)%Z)
  ∧ fallback_logs_sent (log_poll_loop AgentUtils.strip_ansi_codes demo_tail demo_decode_step
                          down_then_up_ticks session_at_3).1 = false.
Proof.
  destruct (log_session_cursor_always_set AgentUtils.strip_ansi_codes demo_tail demo_decode_step)
    as [_ Hloop].
  apply (Hloop down_then_up_ticks session_at_3 3%Z); [reflexivity | lia].
Defined.

Lemma missing_log_service_scenario :
  reported_up AgentUtils.strip_ansi_codes demo_tail demo_decode_step
    [no_log_service_tick 1 "abcde"; no_log_service_tick 2 "abcdef"] session_at_3
  ∧ log_service_is_up
      (log_poll_loop AgentUtils.strip_ansi_codes demo_tail demo_decode_step
         [no_log_service_tick 1 "abcde"; no_log_service_tick 2 "abcdef"]
         session_at_3).1 = true.
Proof.
  apply missing_log_service_counts_as_up; [reflexivity |].
  repeat (constructor; [reflexivity |]). constructor.
Defined.

Lemma initial_fetch_scenario :
  initial_fetch AgentUtils.strip_ansi_codes demo_tail demo_decode_step demo_connect
    = Some (Some 5%Z, [LogsFrame (bytes "abc")]).
Proof.
  destruct (initial_fetch_starts_at_refresh AgentUtils.strip_ansi_codes demo_tail demo_decode_step
              demo_connect (bytes "abc") (bytes "abc") eq_refl eq_refl eq_refl eq_refl)
    as [Hrefresh _].
  destruct (Hrefresh (bytes "abcXY") eq_refl eq_refl) as [Hfetch _].
  exact Hfetch.
Defined.

Lemma failed_fetch_scenario :
  initial_fetch AgentUtils.strip_ansi_codes demo_tail demo_decode_step failed_connect
    = Some (Some 0%Z,
            [ErrorFrame "Failed to fetch initial logs: All connection attempts failed"])
  ∧ (log_poll_loop AgentUtils.strip_ansi_codes demo_tail demo_decode_step
       [agent_down_tick 1; agent_down_tick 2] session_at_3).2 = [].
Proof.
  destruct (failed_fetch_retried AgentUtils.strip_ansi_codes demo_tail demo_decode_step)
    as [Hfirst Hloop].
  split.
  - destruct (Hfirst failed_connect eq_refl eq_refl) as [Hframe _]. exact Hframe.
  - apply (Hloop [agent_down_tick 1; agent_down_tick 2] session_at_3).
    + by eexists.
    + repeat (constructor; [reflexivity |]). constructor.
Defined.

Lemma clear_restarts_delivery_scenario :
  (log_poll_iteration AgentUtils.strip_ansi_codes demo_tail demo_decode_step cleared_tick
     session_at_500).1.2 = []
  ∧ (log_poll_iteration AgentUtils.strip_ansi_codes demo_tail demo_decode_step
       (log_tick 2 "new" true)
       (log_poll_iteration AgentUtils.strip_ansi_codes demo_tail demo_decode_step
          cleared_tick session_at_500).1.1).1.2
    = [LogsFrame (bytes "new")].
Proof.
  destruct (clear_restarts_delivery AgentUtils.strip_ansi_codes demo_tail demo_decode_step
              cleared_tick (log_tick 2 "new" true) session_at_500 500
              (replicate 100 Byte.x61) (bytes "new") eq_refl eq_refl eq_refl)
    as [Hcleared Hlater].
  split.
  - by rewrite Hcleared.
  - apply Hlater; [reflexivity | by vm_compute | reflexivity | reflexivity |].
    left. reflexivity.
Defined.

End LogSessionFacts.

(** ** More on the HTTP router: the topic list, errors, and the WebSocket *)
Module Ros2RouterFacts.
Import Ros2Router.

(** [ROS2TopicStatus] and [ROS2TopicsListResponse] of [talos/models.py]. *)
Record ROS2TopicStatus := {
  topic : string;
  msg_type : string;
  configured : bool;
  available : bool;
  subscribed : bool
}.

Record ROS2TopicsListResponse := {
  container : string;
  domain_id : Z;
  topics : list ROS2TopicStatus
}.

(** An item of the status dict as an entry of the list. *)
Definition topic_status (item : string * Subscriber.TopicStatus) : ROS2TopicStatus :=
  {| topic := item.1;
     msg_type := Subscriber.msg_type item.2;
     configured := Subscriber.configured item.2;
     available := Subscriber.available item.2;
     subscribed := Subscriber.subscribed item.2 |}.

(** [list_ros2_topics]; [now] is the clock reading of
    [get_all_topics_status].  The entries come in the order of the items of
    the status dict, which the map does not record. *)
Definition list_ros2_topics {Msg : Type} (st : State.AppState Msg)
    (container_name : string) (now : Q)
    : State.AppState Msg * Outcome ROS2TopicsListResponse :=
  match State._config st with
  | None => (st, HTTPException 503)
  | Some containers =>
      if decide (container_name ∉ containers) then (st, HTTPException 404)
      else
        match State.get_ros2_plugin st container_name with
        | None => (st, HTTPException 503)
        | Some plugin =>
            let topics_status := Subscriber.get_all_topics_status plugin now in
            (State.update_plugin st container_name topics_status.1,
             Returned {| container := container_name;
                         domain_id := Subscriber.domain_id topics_status.1;
                         topics := topic_status <$> map_to_list topics_status.2 |})
        end
  end.

(** The configuration is loaded and knows the container, which has no
    plugin. *)
Definition no_plugin {Msg : Type} (st : State.AppState Msg) (container_name : string)
    : Prop :=
  State._config st = None
  ∨ ∃ containers, State._config st = Some containers
                  ∧ container_name ∈ containers
                  ∧ State._ros2_plugins st !! container_name = None.

Definition unknown_container {Msg : Type} (st : State.AppState Msg)
    (container_name : string) : Prop :=
  ∃ containers, State._config st = Some containers ∧ container_name ∉ containers.

Section Facts.
Context {Msg Data : Type}.
Variable convert_message_to_dict : Msg → Data.
Variable hash_str : Data → Z.

Local Abbreviation plugin := (Subscriber.ROS2TopicSubscriber Msg).

Lemma get_ros2_plugin_cases (st : State.AppState Msg) container_name :
  match State.get_ros2_plugin st container_name with
  | Some p =>
      ∃ containers, State._config st = Some containers
                    ∧ container_name ∈ containers
                    ∧ State._ros2_plugins st !! container_name = Some p
  | None => no_plugin st container_name ∨ unknown_container st container_name
  end.
Proof.
  unfold State.get_ros2_plugin, no_plugin, unknown_container.
  destruct (State._config st) as [containers |]; [| by left; left].
  destruct (decide (container_name ∈ containers)) as [Hin | Hout].
  - destruct (State._ros2_plugins st !! container_name) as [p |] eqn:Hp.
    + by exists containers.
    + left. right. by exists containers.
  - right. by exists containers.
Qed.

Lemma get_ros2_plugin_update (st : State.AppState Msg) container_name (p p' : plugin) :
  State.get_ros2_plugin st container_name = Some p →
  State.get_ros2_plugin (State.update_plugin st container_name p') container_name
    = Some p'.
Proof.
  unfold State.get_ros2_plugin, State.update_plugin. cbn [State._config State._ros2_plugins].
  destruct (State._config st) as [containers |]; [| done].
  destruct (decide _); [| done]. intros _. by rewrite lookup_insert_eq.
Qed.

(** X25. The HTTP endpoint and the WebSocket agree.  When
    [get_ros2_topic_data] returns a response, a session opened for the same
    topic at the same clock readings, over a live connection, starts with a
    data frame that carries that very response; unless the response has no
    data and says available, in which case the session sends nothing at its
    start. *)
Theorem rest_and_websocket_agree (st : State.AppState Msg) container_name topic_name
    env ticks (p : plugin) response :
  State.get_ros2_plugin st container_name = Some p →
  (get_ros2_topic_data convert_message_to_dict st container_name topic_name
     (TopicSession.connect_get_time env) (TopicSession.connect_available_time env)).2
    = Returned response →
  TopicSession.connect_ws_ok env = true →
  (is_Some (Models.data response) ∨ Models.available response = false →
     ∃ rest,
       TopicSession.websocket_ros2_topic_data convert_message_to_dict hash_str st
         container_name topic_name env ticks
       = (TopicSession.connect_time env, TopicSession.DataFrame response) :: rest)
  ∧ (Models.data response = None → Models.available response = true →
       TopicSession.websocket_ros2_topic_data convert_message_to_dict hash_str st
         container_name topic_name env ticks
       = TopicSession.poll_loop convert_message_to_dict hash_str container_name p
           topic_name TopicSession.min_interval ticks 0 None).
Proof.
  intros Hplugin.
  unfold get_ros2_topic_data, TopicSession.websocket_ros2_topic_data.
  rewrite Hplugin.
  destruct (State._config st) as [containers |] eqn:Hcfg; [| done].
  destruct (decide (container_name ∉ containers)); [done |].
  destruct (decide (topic_name ∉ Subscriber.list_topics p)); [done |].
  cbv zeta.
  destruct (Subscriber.topics _ !! topic_name) as [ty |] eqn:Hty; [| done].
  intros [= <-] Hws. cbn [Models.data Models.available].
  assert (Htype :
    TopicSession._get_topic_msg_type
      (Subscriber.is_topic_available
         (Subscriber.get_topic_data convert_message_to_dict p topic_name
            (TopicSession.connect_get_time env)).1
         topic_name (TopicSession.connect_available_time env)).1 topic_name
    = Some ty).
  { unfold TopicSession._get_topic_msg_type. by rewrite Hty. }
  unfold TopicSession.initial_send. cbv zeta.
  unfold TopicSession.send_update, TopicSession._send_websocket_data.
  rewrite Htype, Hws. cbn [fst snd].
  destruct (Subscriber.get_topic_data convert_message_to_dict p topic_name
              (TopicSession.connect_get_time env)).2 as [cached_data |].
  - cbn [fmap option_fmap option_map list_fmap app]. split.
    + intros _. by eexists.
    + done.
  - destruct (Subscriber.is_topic_available _ _ _).2.
    + split; [by intros [[? ?] | ?] | done].
    + cbn [fmap option_fmap option_map list_fmap app]. split.
      * intros _. by eexists.
      * done.
Qed.

(** X26. The error answers of the two endpoints.  Both answer 503 exactly
    when the configuration is not loaded or the container has no plugin, and
    404 exactly when the container is not in the configuration or, for
    [get_ros2_topic_data], the topic is not in [list_topics].  An error answer
    leaves the registry as it was. *)
Theorem ros2_endpoints_errors (st : State.AppState Msg) container_name topic_name
    now t_get t_available :
  ((list_ros2_topics st container_name now).2 = HTTPException 503
     ↔ no_plugin st container_name)
  ∧ ((list_ros2_topics st container_name now).2 = HTTPException 404
       ↔ unknown_container st container_name)
  ∧ ((get_ros2_topic_data convert_message_to_dict st container_name topic_name
        t_get t_available).2 = HTTPException 503
       ↔ no_plugin st container_name)
  ∧ ((get_ros2_topic_data convert_message_to_dict st container_name topic_name
        t_get t_available).2 = HTTPException 404
       ↔ unknown_container st container_name
         ∨ ∃ p, State.get_ros2_plugin st container_name = Some p
                ∧ topic_name ∉ Subscriber.list_topics p)
  ∧ (∀ status_code,
       (list_ros2_topics st container_name now).2 = HTTPException status_code →
       (list_ros2_topics st container_name now).1 = st)
  ∧ (∀ status_code,
       (get_ros2_topic_data convert_message_to_dict st container_name topic_name
          t_get t_available).2 = HTTPException status_code →
       (get_ros2_topic_data convert_message_to_dict st container_name topic_name
          t_get t_available).1 = st).
Proof.
  pose proof (get_ros2_plugin_cases st container_name) as Hplugin.
  unfold list_ros2_topics, get_ros2_topic_data, no_plugin, unknown_container in *.
  destruct (State._config st) as [containers |] eqn:Hcfg.
  2: { repeat split; try done.
       - by left.
       - by intros (? & ? & _).
       - by left.
       - intros [(? & ? & _) | (p & Hp & _)]; [done |].
         unfold State.get_ros2_plugin in Hp. by rewrite Hcfg in Hp. }
  destruct (decide (container_name ∉ containers)) as [Hout | Hin].
  { repeat split; try done.
    - intros [? | (cs & [= <-] & ? & _)]; done.
    - intros _. by exists containers.
    - intros [? | (cs & [= <-] & ? & _)]; done.
    - intros _. left. by exists containers. }
  apply dec_stable in Hin.
  destruct (State.get_ros2_plugin st container_name) as [p |] eqn:Hget.
  - destruct Hplugin as (cs & [= <-] & _ & Hp).
    cbv zeta.
    assert (Hno503 : ¬ (Some containers = None
              ∨ ∃ cs, Some containers = Some cs ∧ container_name ∈ cs
                      ∧ State._ros2_plugins st !! container_name = None)).
    { intros [? | (cs & _ & _ & Hnone)]; [done | congruence]. }
    assert (Hno404 : ¬ ∃ cs, Some containers = Some cs ∧ container_name ∉ cs).
    { by intros (cs & [= <-] & ?). }
    destruct (decide (topic_name ∉ Subscriber.list_topics p)) as [Hunlisted | Hlisted].
    + repeat split; try done.
      intros _. right. by exists p.
    + destruct (Subscriber.topics _ !! topic_name).
      * repeat split; try done.
        intros [? | (p' & [= <-] & ?)]; done.
      * repeat split; try done.
        intros [? | (p' & [= <-] & ?)]; done.
  - assert (Hnone : State._ros2_plugins st !! container_name = None).
    { unfold State.get_ros2_plugin in Hget. rewrite Hcfg in Hget.
      by destruct (decide (container_name ∈ containers)). }
    repeat split; try done.
    + intros _. right. by exists containers.
    + by intros (cs & [= <-] & ?).
    + intros _. right. by exists containers.
    + intros [(cs & [= <-] & ?) | (p & ? & _)]; done.
Qed.

(** A record of the status dict says [configured], and [subscribed]
    exactly when the plugin holds a subscriber for its topic. *)
Lemma status_record_fields (p : plugin) now topic_name record :
  (Subscriber.get_all_topics_status p now).2 !! topic_name = Some record →
  Subscriber.configured record = true
  ∧ Subscriber.subscribed record
    = bool_decide (is_Some (Subscriber.subscribers p !! topic_name)).
Proof.
  unfold Subscriber.get_all_topics_status. cbn [snd]. intros Hrec.
  destruct (SubscriberFacts.foldl_status_records p (Subscriber.status_static p now)
              (SubscriberFacts.status_static_record p now)
              (Subscriber.static_topics p) _ _ _ _
              (λ t ty, proj1 (elem_of_map_to_list _ t ty)) Hrec)
    as [[Hold _] | (_ & ? & _ & ?)]; [| done].
  destruct (SubscriberFacts.foldl_status_records p (Subscriber.status_dynamic p now)
              (SubscriberFacts.status_dynamic_record p now)
              (Subscriber.topics p) _ _ _ _
              (λ t ty, proj1 (elem_of_map_to_list _ t ty)) Hold)
    as [[Hempty _] | (_ & ? & _ & ?)]; [| done].
  cbn [snd] in Hempty. by rewrite lookup_empty in Hempty.
Qed.

(** X27. For a container with a plugin, [list_ros2_topics] returns one
    entry for every topic of [list_topics] and for no other, no topic twice.
    Every entry says [configured]; it says [available] exactly when the cache
    holds an entry for the topic once the status pass is done, and
    [subscribed] exactly when the plugin holds a subscriber.  The registry
    then holds the plugin as the status pass left it. *)
Theorem list_ros2_topics_lists_configured (st : State.AppState Msg) containers
    container_name (p : plugin) now :
  State._config st = Some containers →
  container_name ∈ containers →
  State._ros2_plugins st !! container_name = Some p →
  ∃ response,
    (list_ros2_topics st container_name now).2 = Returned response
    ∧ State.get_ros2_plugin (list_ros2_topics st container_name now).1 container_name
      = Some (Subscriber.get_all_topics_status p now).1
    ∧ container response = container_name
    ∧ domain_id response = Subscriber.domain_id p
    ∧ NoDup (topic <$> topics response)
    ∧ (∀ t, t ∈ topic <$> topics response ↔ t ∈ Subscriber.list_topics p)
    ∧ (∀ entry, entry ∈ topics response →
         configured entry = true
         ∧ (available entry = true
              ↔ is_Some (Subscriber.msg_cache (Subscriber.get_all_topics_status p now).1
                           !! topic entry))
         ∧ (subscribed entry = true
              ↔ is_Some (Subscriber.subscribers p !! topic entry))).
Proof.
  intros Hcfg Hin Hp.
  assert (Hget : State.get_ros2_plugin st container_name = Some p).
  { unfold State.get_ros2_plugin. rewrite Hcfg.
    by destruct (decide (container_name ∈ containers)). }
  unfold list_ros2_topics. rewrite Hcfg, Hget.
  destruct (decide (container_name ∉ containers)) as [? | _]; [done |].
  cbv zeta. cbn [fst snd]. eexists. split; [done |].
  cbn [container domain_id topics].
  assert (Hnames :
    topic <$> (topic_status <$> map_to_list (Subscriber.get_all_topics_status p now).2)
    = (map_to_list (Subscriber.get_all_topics_status p now).2).*1).
  { rewrite <- list_fmap_compose. by apply list_fmap_ext. }
  split; [by apply (get_ros2_plugin_update st container_name p) |].
  split; [done |]. split; [done |]. rewrite Hnames. split; [| split].
  - apply NoDup_fst_map_to_list.
  - intros t. rewrite Subscriber.elem_of_keys, Subscriber.get_all_topics_status_keys.
    unfold Subscriber.list_topics. by rewrite elem_of_app, !Subscriber.elem_of_keys.
  - intros entry [[t record] [-> Hitem]]%list_elem_of_fmap.
    apply elem_of_map_to_list in Hitem. cbn [topic_status topic configured available
      subscribed fst snd].
    destruct (status_record_fields p now t record Hitem) as [Hconfigured Hsubscribed].
    split; [done |]. split.
    + by apply Subscriber.get_all_topics_status_sound.
    + rewrite Hsubscribed. apply bool_decide_eq_true.
Qed.

End Facts.

(** The warm counter plugin: the endpoint returns counter 7, and a
    session opened at the same time starts with the same response. *)
Lemma rest_and_websocket_scenario :
  ∃ rest,
    TopicSession.websocket_ros2_topic_data TopicSession.counter_convert
      TopicSession.counter_hash TopicSessionFacts.warm_state "robot" "/joint_states"
      TopicSession.counter_connect TopicSession.counter_ticks
    = (100%Q,
       TopicSession.DataFrame
         {| Models.container := "robot"; Models.topic := "/joint_states";
            Models.msg_type := "sensor_msgs/msg/JointState";
            Models.data := Some 7%nat; Models.available := true;
            Models.domain_id := 30 |}) :: rest.
Proof.
  destruct (rest_and_websocket_agree TopicSession.counter_convert
              TopicSession.counter_hash TopicSessionFacts.warm_state "robot"
              "/joint_states" TopicSession.counter_connect TopicSession.counter_ticks
              TopicSessionFacts.warm_plugin
              {| Models.container := "robot"; Models.topic := "/joint_states";
                 Models.msg_type := "sensor_msgs/msg/JointState";
                 Models.data := Some 7%nat; Models.available := true;
                 Models.domain_id := 30 |}
              eq_refl eq_refl eq_refl) as [Hframe _].
  apply Hframe. left. by eexists.
Defined.

(** The demo container lists its two topics, the static one included. *)
Lemma list_ros2_topics_scenario :
  ∃ response,
    (list_ros2_topics demo_state "robot" 1).2 = Returned response
    ∧ NoDup (topic <$> topics response)
    ∧ ∀ t, t ∈ topic <$> topics response
           ↔ t ∈ Subscriber.list_topics
                  (Subscriber.msg_callback Subscriber.demo_plugin "/b" "urdf" 0).
Proof.
  destruct (list_ros2_topics_lists_configured demo_state {[ "robot" ]} "robot"
              (Subscriber.msg_callback Subscriber.demo_plugin "/b" "urdf" 0) 1
              eq_refl (proj2 (elem_of_singleton "robot" "robot") eq_refl) eq_refl)
    as (response & Hresponse & _ & _ & _ & Hnodup & Hnames & _).
  exists response. split; [exact Hresponse |]. split; [exact Hnodup | exact Hnames].
Defined.

End Ros2RouterFacts.


(** ** Startup ([talos/lifespan.py]) *)
Module Lifespan.

(** [ROS2Config] and [ContainerConfig] of [talos/models.py] (the service
    labels are left out); [SystemConfig] is its [containers] dict. *)
Record ROS2Config := {
  domain_id : Z;
  topics : gmap string string;
  static_topics : gmap string string;
  router_ip : option string;
  router_port : option Z
}.

Record ContainerConfig := {
  socket_path : string;
  ros2 : option ROS2Config
}.

Abbreviation SystemConfig := (gmap string ContainerConfig).

(** The three environment variables that [lifespan] reads. *)
Record Environ := {
  ROS_DOMAIN_ID : option string;
  ZENOH_ROUTER_IP : option string;
  ZENOH_ROUTER_PORT : option string
}.

(** [topic] is configured with type [ty], as a dynamic or a static topic. *)
Definition configures (ros2_config : ROS2Config) (topic ty : string) : Prop :=
  topics ros2_config !! topic = Some ty ∨ static_topics ros2_config !! topic = Some ty.

Section Startup.
Context {Msg : Type}.

(** Whether [ROS2Subscriber] can be created, by container, topic and type. *)
Variable create_ok : string → string → string → bool.

(** Python's [int] on a string, [None] when it raises [ValueError]. *)
Variable int : string → option Z.

Variable environ : Environ.

Local Abbreviation plugin := (Subscriber.ROS2TopicSubscriber Msg).

(** [int(os.getenv("ROS_DOMAIN_ID", str(ros2_config.domain_id)))] *)
Definition plugin_domain_id (ros2_config : ROS2Config) : option Z :=
  match ROS_DOMAIN_ID environ with
  | Some value => int value
  | None => Some (domain_id ros2_config)
  end.

(** [os.getenv("ZENOH_ROUTER_IP") or ros2_config.router_ip] *)
Definition plugin_router_ip (ros2_config : ROS2Config) : option string :=
  match ZENOH_ROUTER_IP environ with
  | Some value => if decide (value = "") then router_ip ros2_config else Some value
  | None => router_ip ros2_config
  end.

(** [int(router_port_str) if router_port_str else ros2_config.router_port] *)
Definition plugin_router_port (ros2_config : ROS2Config) : option (option Z) :=
  match ZENOH_ROUTER_PORT environ with
  | Some value =>
      if decide (value = "") then Some (router_port ros2_config)
      else Some <$> int value
  | None => Some (router_port ros2_config)
  end.

(** The body of the [try] for one container: the started plugin, or
    [None] when [int] or [plugin.start()] raised. *)
Definition create_plugin (container_name : string) (ros2_config : ROS2Config)
    : option plugin :=
  match plugin_domain_id ros2_config with
  | None => None
  | Some domain_id =>
      let router_ip := plugin_router_ip ros2_config in
      match plugin_router_port ros2_config with
      | None => None
      | Some router_port =>
          let plugin :=
            Subscriber.init container_name (topics ros2_config)
              (Some (static_topics ros2_config)) domain_id router_ip router_port in
          let started := Subscriber.start (create_ok container_name) plugin in
          if Subscriber.raised started.2 then None else Some started.1
      end
  end.

(** One round of the loop over [config.containers.items()]. *)
Definition init_plugin (st : State.AppState Msg) (item : string * ContainerConfig)
    : State.AppState Msg :=
  match ros2 item.2 with
  | None => st
  | Some ros2_config =>
      match create_plugin item.1 ros2_config with
      | Some plugin => State.update_plugin st item.1 plugin
      | None => st
      end
  end.

(** The startup half of [lifespan], from [set_config] on: the state the
    application then serves from. *)
Definition startup (config : SystemConfig) : State.AppState Msg :=
  foldl init_plugin
    {| State._config := Some (dom config); State._ros2_plugins := ∅ |}
    (map_to_list config).

Lemma foldl_init_plugin_config items (st : State.AppState Msg) :
  State._config (foldl init_plugin st items) = State._config st.
Proof.
  revert st. induction items as [| item items IH]; intros st; [done |].
  cbn [foldl]. rewrite IH. unfold init_plugin.
  destruct (ros2 item.2) as [ros2_config |]; [| done].
  by destruct (create_plugin item.1 ros2_config).
Qed.

Lemma init_plugin_other (st : State.AppState Msg) item container_name :
  item.1 ≠ container_name →
  State._ros2_plugins (init_plugin st item) !! container_name
    = State._ros2_plugins st !! container_name.
Proof.
  intros Hne. unfold init_plugin.
  destruct (ros2 item.2) as [ros2_config |]; [| done].
  destruct (create_plugin item.1 ros2_config); [| done].
  cbn [State.update_plugin State._ros2_plugins]. by rewrite lookup_insert_ne.
Qed.

Lemma foldl_init_plugin_other items (st : State.AppState Msg) container_name :
  container_name ∉ items.*1 →
  State._ros2_plugins (foldl init_plugin st items) !! container_name
    = State._ros2_plugins st !! container_name.
Proof.
  revert st. induction items as [| item items IH]; intros st Hnot; [done |].
  rewrite fmap_cons in Hnot. apply not_elem_of_cons in Hnot as [Hne Hnot].
  cbn [foldl]. rewrite IH by done. by apply init_plugin_other.
Qed.

(** The loop visits each container once and writes only its entry. *)
Lemma foldl_init_plugin_lookup items (st : State.AppState Msg) container_name
    container_config :
  NoDup items.*1 →
  (container_name, container_config) ∈ items →
  State._ros2_plugins (foldl init_plugin st items) !! container_name
    = match ros2 container_config ≫= create_plugin container_name with
      | Some plugin => Some plugin
      | None => State._ros2_plugins st !! container_name
      end.
Proof.
  revert st. induction items as [| item items IH]; intros st Hnodup Hin.
  { by apply elem_of_nil in Hin. }
  rewrite fmap_cons in Hnodup. apply NoDup_cons in Hnodup as [Hfresh Hnodup].
  cbn [foldl]. apply elem_of_cons in Hin as [<- | Hin].
  - rewrite foldl_init_plugin_other by done.
    unfold init_plugin. cbn [fst snd].
    destruct (ros2 container_config) as [ros2_config |]; [| done].
    cbn [mbind option_bind].
    destruct (create_plugin container_name ros2_config); [| done].
    cbn [State.update_plugin State._ros2_plugins]. by rewrite lookup_insert_eq.
  - rewrite IH by done.
    assert (Hne : item.1 ≠ container_name).
    { intros Heq. apply Hfresh. rewrite Heq.
      apply list_elem_of_fmap. by exists (container_name, container_config). }
    by rewrite init_plugin_other.
Qed.

(** The registry after startup. *)
Lemma startup_plugins (config : SystemConfig) container_name :
  State.get_ros2_plugin (startup config) container_name
    = config !! container_name
        ≫= λ container_config, ros2 container_config ≫= create_plugin container_name.
Proof.
  unfold State.get_ros2_plugin, startup. rewrite foldl_init_plugin_config.
  cbn [State._config].
  destruct (config !! container_name) as [container_config |] eqn:Hconfig.
  - destruct (decide _) as [_ | Hout].
    2: { exfalso. apply Hout. apply elem_of_dom. by eexists. }
    rewrite (foldl_init_plugin_lookup _ _ container_name container_config).
    + cbn [mbind option_bind State._ros2_plugins]. rewrite lookup_empty.
      by destruct (ros2 container_config ≫= create_plugin container_name).
    + apply NoDup_fst_map_to_list.
    + by apply elem_of_map_to_list.
  - destruct (decide _) as [Hin | _]; [| done].
    apply elem_of_dom in Hin as [container_config Hsome]. congruence.
Qed.

(** After the two passes of [start] over a plugin without subscribers, a
    topic has a subscriber exactly when it is configured and its subscriber
    could be created. *)
Lemma subscribed_after (create : string → string → bool) (p : plugin) topic :
  Subscriber.subscribers p = ∅ →
  is_Some
    (Subscriber.subscribers
       (Subscriber.subscribe_all create
          (Subscriber.subscribe_all create (p, []) (map_to_list (Subscriber.topics p)))
          (map_to_list (Subscriber.static_topics p))).1 !! topic)
    ↔ ∃ ty, Subscriber.configured_as p topic ty ∧ create topic ty = true.
Proof.
  intros Hsubs. rewrite !Subscriber.subscribe_all_subscribers. cbn [fst].
  rewrite Hsubs, lookup_empty. unfold Subscriber.configured_as. split.
  - intros [[[? ?] | (ty & Hin & Hok)] | (ty & Hin & Hok)]; [done | |].
    + exists ty. split; [left; by apply elem_of_map_to_list | done].
    + exists ty. split; [right; by apply elem_of_map_to_list | done].
  - intros (ty & [Hin | Hin] & Hok).
    + left. right. exists ty. split; [by apply elem_of_map_to_list | done].
    + right. exists ty. split; [by apply elem_of_map_to_list | done].
Qed.

(** What a successful [start] of a fresh plugin leaves. *)
Lemma start_fresh (create : string → string → bool) (p : plugin) :
  Subscriber.is_running p = false →
  Subscriber.subscribers p = ∅ →
  Subscriber.raised (Subscriber.start create p).2 = false →
  Subscriber.is_running (Subscriber.start create p).1 = true
  ∧ Subscriber.container_name (Subscriber.start create p).1
    = Subscriber.container_name p
  ∧ Subscriber.topics (Subscriber.start create p).1 = Subscriber.topics p
  ∧ Subscriber.static_topics (Subscriber.start create p).1
    = Subscriber.static_topics p
  ∧ (∀ topic,
       is_Some (Subscriber.subscribers (Subscriber.start create p).1 !! topic)
         ↔ ∃ ty, Subscriber.configured_as p topic ty ∧ create topic ty = true)
  ∧ (Subscriber.topics p ≠ ∅ ∨ Subscriber.static_topics p ≠ ∅ →
       Subscriber.subscribers (Subscriber.start create p).1 ≠ ∅).
Proof.
  intros Hrunning Hsubs.
  pose proof (λ topic, subscribed_after create p topic Hsubs) as Hsubscribed.
  unfold Subscriber.start. rewrite Hrunning. cbv zeta.
  set (after_dynamic :=
         Subscriber.subscribe_all create (p, []) (map_to_list (Subscriber.topics p)))
    in *.
  set (after_static :=
         Subscriber.subscribe_all create after_dynamic
           (map_to_list (Subscriber.static_topics p))) in *.
  assert (Hframe : Subscriber.topics after_static.1 = Subscriber.topics p
            ∧ Subscriber.static_topics after_static.1 = Subscriber.static_topics p).
  { destruct (Subscriber.subscribe_all_frame create
                (map_to_list (Subscriber.static_topics p)) after_dynamic)
      as (Ht & Hs & _).
    destruct (Subscriber.subscribe_all_frame create
                (map_to_list (Subscriber.topics p)) (p, []))
      as (Ht' & Hs' & _).
    fold after_dynamic in Ht', Hs'. fold after_static in Ht, Hs.
    cbn [fst] in Ht', Hs'. split; congruence. }
  assert (Hname : Subscriber.container_name after_static.1
            = Subscriber.container_name p).
  { destruct (SubscriberFacts.subscribe_all_only_subscribers create
                (map_to_list (Subscriber.static_topics p)) after_dynamic)
      as [subs Heq].
    destruct (SubscriberFacts.subscribe_all_only_subscribers create
                (map_to_list (Subscriber.topics p)) (p, []))
      as [subs' Heq'].
    fold after_dynamic in Heq'. fold after_static in Heq.
    cbn [fst] in Heq'. by rewrite Heq, Heq'. }
  destruct (decide _) as [Hnone | Hsome]; [done |]. intros _.
  cbn [fst Subscriber.set_running Subscriber.is_running Subscriber.container_name
       Subscriber.topics Subscriber.static_topics Subscriber.subscribers].
  destruct Hframe as [Ht Hs].
  split; [done |]. split; [done |]. split; [done |]. split; [done |].
  split; [exact Hsubscribed |].
  intros Hconfigured Hempty. apply Hsome. split; [done |].
  destruct Hconfigured as [Hne | Hne].
  - apply map_size_non_empty_iff in Hne. lia.
  - apply map_size_non_empty_iff in Hne. lia.
Qed.

(** [start] of a fresh plugin returns exactly when nothing is configured
    or some subscriber could be created. *)
Lemma start_fresh_returns (create : string → string → bool) (p : plugin) :
  Subscriber.is_running p = false →
  Subscriber.subscribers p = ∅ →
  Subscriber.raised (Subscriber.start create p).2 = false
    ↔ (Subscriber.topics p = ∅ ∧ Subscriber.static_topics p = ∅)
      ∨ ∃ topic ty, Subscriber.configured_as p topic ty ∧ create topic ty = true.
Proof.
  intros Hrunning Hsubs.
  pose proof (λ topic, subscribed_after create p topic Hsubs) as Hsubscribed.
  unfold Subscriber.start. rewrite Hrunning. cbv zeta.
  set (after_static :=
         Subscriber.subscribe_all create
           (Subscriber.subscribe_all create (p, []) (map_to_list (Subscriber.topics p)))
           (map_to_list (Subscriber.static_topics p))) in *.
  destruct (decide _) as [[Hempty Hpos] | Hno]; cbn [snd Subscriber.raised].
  - split; [done |]. intros [[Ht Hs] | (topic & ty & Hcfg & Hok)].
    + rewrite Ht, Hs, !map_size_empty in Hpos. lia.
    + assert (Hsome : is_Some (Subscriber.subscribers after_static.1 !! topic)).
      { apply Hsubscribed. by exists ty. }
      rewrite Hempty, lookup_empty in Hsome. by destruct Hsome.
  - split; [| done]. intros _.
    destruct (decide (Subscriber.subscribers after_static.1 = ∅)) as [Hempty | Hne].
    + left.
      assert (Hzero : (size (Subscriber.topics p)
                       + size (Subscriber.static_topics p) = 0)%nat).
      { destruct (decide (0 < size (Subscriber.topics p)
                              + size (Subscriber.static_topics p))%nat) as [Hpos | ?];
          [| lia].
        exfalso. apply Hno. by split. }
      split; apply map_size_empty_inv; lia.
    + right. apply map_choose in Hne as (topic & h & Hh).
      destruct (proj1 (Hsubscribed topic) (mk_is_Some _ _ Hh)) as (ty & Hcfg & Hok).
      by exists topic, ty.
Qed.

(** X28. After startup the registry holds a plugin for a container
    exactly when the container has a ROS2 configuration and its plugin could
    be started.  A plugin in the registry is running, carries the container's
    name and configured topics, holds a subscriber for exactly the configured
    topics whose subscriber could be created, and at least one when any topic
    is configured.  A container with a ROS2 configuration has a plugin
    exactly when the environment variables parse and either no topic is
    configured or some subscriber could be created. *)
Theorem startup_registers_started_plugins (config : SystemConfig) container_name :
  (∀ p,
     State.get_ros2_plugin (startup config) container_name = Some p →
     ∃ container_config ros2_config,
       config !! container_name = Some container_config
       ∧ ros2 container_config = Some ros2_config
       ∧ create_plugin container_name ros2_config = Some p
       ∧ Subscriber.is_running p = true
       ∧ Subscriber.container_name p = container_name
       ∧ Subscriber.topics p = topics ros2_config
       ∧ Subscriber.static_topics p = static_topics ros2_config
       ∧ (∀ topic,
            is_Some (Subscriber.subscribers p !! topic)
              ↔ ∃ ty, configures ros2_config topic ty
                      ∧ create_ok container_name topic ty = true)
       ∧ (topics ros2_config ≠ ∅ ∨ static_topics ros2_config ≠ ∅ →
            Subscriber.subscribers p ≠ ∅))
  ∧ (config !! container_name = None
     ∨ (∃ container_config,
          config !! container_name = Some container_config
          ∧ ros2 container_config = None) →
       State.get_ros2_plugin (startup config) container_name = None)
  ∧ (∀ container_config ros2_config,
       config !! container_name = Some container_config →
       ros2 container_config = Some ros2_config →
       (is_Some (State.get_ros2_plugin (startup config) container_name)
          ↔ is_Some (plugin_domain_id ros2_config)
            ∧ is_Some (plugin_router_port ros2_config)
            ∧ ((topics ros2_config = ∅ ∧ static_topics ros2_config = ∅)
               ∨ ∃ topic ty, configures ros2_config topic ty
                             ∧ create_ok container_name topic ty = true))).
Proof.
  rewrite startup_plugins.
  assert (Hcreated : ∀ ros2_config p,
    create_plugin container_name ros2_config = Some p →
    Subscriber.is_running p = true
    ∧ Subscriber.container_name p = container_name
    ∧ Subscriber.topics p = topics ros2_config
    ∧ Subscriber.static_topics p = static_topics ros2_config
    ∧ (∀ topic,
         is_Some (Subscriber.subscribers p !! topic)
           ↔ ∃ ty, configures ros2_config topic ty
                   ∧ create_ok container_name topic ty = true)
    ∧ (topics ros2_config ≠ ∅ ∨ static_topics ros2_config ≠ ∅ →
         Subscriber.subscribers p ≠ ∅)).
  { intros ros2_config p. unfold create_plugin.
    destruct (plugin_domain_id ros2_config) as [d |]; [| done].
    destruct (plugin_router_port ros2_config) as [port |]; [| done].
    cbv zeta.
    destruct (Subscriber.raised _) eqn:Hraised; [done |].
    intros [= <-].
    by apply (start_fresh (create_ok container_name)
                (Subscriber.init container_name (topics ros2_config)
                   (Some (static_topics ros2_config)) d
                   (plugin_router_ip ros2_config) port)). }
  split; [| split].
  - intros p.
    destruct (config !! container_name) as [container_config |]; [| done].
    cbn [mbind option_bind].
    destruct (ros2 container_config) as [ros2_config |] eqn:Hros2; [| done].
    cbn [mbind option_bind]. intros Hp.
    exists container_config, ros2_config.
    split; [done |]. split; [done |]. split; [done |]. by apply Hcreated.
  - intros [-> | (container_config & -> & Hnone)]; [done |].
    cbn [mbind option_bind]. by rewrite Hnone.
  - intros container_config ros2_config -> Hros2.
    cbn [mbind option_bind]. rewrite Hros2. cbn [mbind option_bind].
    unfold create_plugin.
    destruct (plugin_domain_id ros2_config) as [d |].
    2: { split; [by intros [? ?] | by intros ([? ?] & _)]. }
    destruct (plugin_router_port ros2_config) as [port |].
    2: { split; [by intros [? ?] | by intros (_ & [? ?] & _)]. }
    cbv zeta.
    pose proof (start_fresh_returns (create_ok container_name)
                  (Subscriber.init container_name (topics ros2_config)
                     (Some (static_topics ros2_config)) d
                     (plugin_router_ip ros2_config) port) eq_refl eq_refl)
      as Hreturns.
    destruct (Subscriber.raised _).
    + split; [by intros [? ?] |]. intros (_ & _ & Hok).
      by apply Hreturns in Hok.
    + split; [| by eexists]. intros _.
      split; [by eexists |]. split; [by eexists |]. by apply Hreturns.
Qed.

End Startup.

(** Two containers: [robot], whose dynamic topic can be subscribed and
    whose static one cannot, and [arm], whose only topic cannot. *)
Definition demo_config : SystemConfig :=
  {[ "robot" :=
       {| socket_path := "/agents/robot/s6_agent.sock";
          ros2 := Some {| domain_id := 30;
                          topics := {[ "/joint_states" := "sensor_msgs/msg/JointState" ]};
                          static_topics := {[ "/robot_description" := "std_msgs/msg/String" ]};
                          router_ip := None; router_port := None |} |};
     "arm" :=
       {| socket_path := "/agents/arm/s6_agent.sock";
          ros2 := Some {| domain_id := 30;
                          topics := {[ "/tf" := "tf2_msgs/msg/TFMessage" ]};
                          static_topics := ∅;
                          router_ip := None; router_port := None |} |} ]}.

Definition demo_create_ok (container_name topic ty : string) : bool :=
  bool_decide (topic = "/joint_states").

Definition demo_int (value : string) : option Z := None.

Definition demo_environ : Environ :=
  {| ROS_DOMAIN_ID := None; ZENOH_ROUTER_IP := None; ZENOH_ROUTER_PORT := None |}.

Definition arm_ros2 : ROS2Config :=
  {| domain_id := 30;
     topics := {[ "/tf" := "tf2_msgs/msg/TFMessage" ]};
     static_topics := ∅;
     router_ip := None; router_port := None |}.

(** The plugin of [arm] could not be started: the container has none. *)
Lemma startup_scenario :
  State.get_ros2_plugin
    (startup (Msg := nat) demo_create_ok demo_int demo_environ demo_config) "arm"
  = None.
Proof.
  destruct (startup_registers_started_plugins (Msg := nat) demo_create_ok demo_int
              demo_environ demo_config "arm") as (_ & _ & Hexactly).
  apply eq_None_not_Some. intros Hsome.
  apply (Hexactly {| socket_path := "/agents/arm/s6_agent.sock"; ros2 := Some arm_ros2 |}
           arm_ros2 eq_refl eq_refl) in Hsome
    as (_ & _ & [[Hempty _] | (topic & ty & [Hty | Hty] & Hok)]).
  - exact (map_non_empty_singleton _ _ Hempty).
  - cbn [topics arm_ros2] in Hty. apply lookup_singleton_Some in Hty as [<- _].
    discriminate Hok.
  - cbn [static_topics arm_ros2] in Hty. by rewrite lookup_empty in Hty.
Defined.

Example startup_registers_robot :
  Subscriber.is_running
    <$> State.get_ros2_plugin
          (startup (Msg := nat) demo_create_ok demo_int demo_environ demo_config) "robot"
  = Some true.
Proof. by vm_compute. Qed.

End Lifespan.

(** ** Message conversion ([_convert_message_to_dict] of the plugin) *)
Module MessageConversion.

(** The Python values the conversion tells apart: [None], the four
    primitive types, a value with [tolist] and [shape] (a numpy array or
    scalar), lists and tuples, an object with a [__dict__] (given by its
    items, in order), a dict (its items, in order), and anything else
    (bytes, a set, ...). *)
#[warnings="-register-all"]
Inductive PyValue (Array Opaque : Type) :=
  | PyNone
  | PyStr (s : string)
  | PyInt (z : Z)
  | PyFloat (q : Q)
  | PyBool (b : bool)
  | PyArray (a : Array)
  | PyList (items : list (PyValue Array Opaque))
  | PyTuple (items : list (PyValue Array Opaque))
  | PyObject (attrs : list (string * PyValue Array Opaque))
  | PyDict (items : list (PyValue Array Opaque * PyValue Array Opaque))
  | PyOther (o : Opaque).
Arguments PyNone {Array Opaque}.
Arguments PyStr {Array Opaque} _.
Arguments PyInt {Array Opaque} _.
Arguments PyFloat {Array Opaque} _.
Arguments PyBool {Array Opaque} _.
Arguments PyArray {Array Opaque} _.
Arguments PyList {Array Opaque} _.
Arguments PyTuple {Array Opaque} _.
Arguments PyObject {Array Opaque} _.
Arguments PyDict {Array Opaque} _.
Arguments PyOther {Array Opaque} _.

(** What the conversion returns: [None] and primitive values, a list or a
    dict it built, the list an array's [tolist()] returned, or a value it
    stored as it is. *)
#[warnings="-register-all"]
Inductive Converted (Array Opaque : Type) :=
  | CNone
  | CStr (s : string)
  | CInt (z : Z)
  | CFloat (q : Q)
  | CBool (b : bool)
  | CList (items : list (Converted Array Opaque))
  | CDict (items : list (string * Converted Array Opaque))
  | CTolist (a : Array)
  | CKept (v : PyValue Array Opaque).
Arguments CNone {Array Opaque}.
Arguments CStr {Array Opaque} _.
Arguments CInt {Array Opaque} _.
Arguments CFloat {Array Opaque} _.
Arguments CBool {Array Opaque} _.
Arguments CList {Array Opaque} _.
Arguments CDict {Array Opaque} _.
Arguments CTolist {Array Opaque} _.
Arguments CKept {Array Opaque} _.

(** [key.startswith('_')] *)
Definition startswith_underscore (key : string) : bool := String.prefix "_" key.

(** The loop over [__dict__.items()]: it skips the private attributes and
    stores [convert value] under every other key; [None] when a conversion
    raises. *)
Definition convert_items {A B : Type} (convert : A → option B)
    : list (string * A) → option (list (string * B)) :=
  fix go (items : list (string * A)) : option (list (string * B)) :=
    match items with
    | [] => Some []
    | (key, value) :: items' =>
        if startswith_underscore key then go items'
        else
          match convert value with
          | None => None
          | Some converted =>
              match go items' with
              | None => None
              | Some rest => Some ((key, converted) :: rest)
              end
          end
    end.

(** [[convert(item) for item in obj]]; [None] when a conversion raises. *)
Definition convert_list {A B : Type} (convert : A → option B)
    : list A → option (list B) :=
  fix go (items : list A) : option (list B) :=
    match items with
    | [] => Some []
    | item :: items' =>
        match convert item with
        | None => None
        | Some converted =>
            match go items' with
            | None => None
            | Some rest => Some (converted :: rest)
            end
        end
    end.

Section Conversion.
Context {Array Opaque : Type}.

Local Abbreviation value := (PyValue Array Opaque).
Local Abbreviation converted := (Converted Array Opaque).

(** Python's [str] on a value, [None] when it raises. *)
Variable str : value → option string.

(** Whether [tolist()] returns (it may raise). *)
Variable tolist_ok : Array → bool.

(** Whether handling a value at a depth of nesting raises before it is
    converted: the recursion limit is reached, or looking at it ([hasattr])
    raises.  The message is at depth 0. *)
Variable raises : nat → value → bool.

(** The [try: value.tolist() except Exception: str(value)] of both
    functions. *)
Definition convert_array (a : Array) : option converted :=
  if tolist_ok a then Some (CTolist a) else CStr <$> str (PyArray a).

(** [_convert_nested_obj_to_dict], called at depth [depth]; [None] when
    it raises. *)
Fixpoint _convert_nested_obj_to_dict (depth : nat) (obj : value) : option converted :=
  if raises depth obj then None
  else
    match obj with
    | PyNone => Some CNone
    | PyStr s => Some (CStr s)
    | PyInt z => Some (CInt z)
    | PyFloat q => Some (CFloat q)
    | PyBool b => Some (CBool b)
    | PyArray a => convert_array a
    | PyList items | PyTuple items =>
        CList <$> convert_list (_convert_nested_obj_to_dict (S depth)) items
    | PyObject attrs =>
        CDict <$> convert_items (_convert_nested_obj_to_dict (S depth)) attrs
    | PyDict _ | PyOther _ => CStr <$> str obj
    end.

(** What [_convert_message_to_dict] stores for an attribute: an array is
    converted, an object, a list or a tuple goes through
    [_convert_nested_obj_to_dict], and anything else is stored as it is. *)
Definition convert_attribute (v : value) : option converted :=
  if raises 1 v then None
  else
    match v with
    | PyArray a => convert_array a
    | PyObject _ | PyList _ | PyTuple _ => _convert_nested_obj_to_dict 1 v
    | PyNone => Some CNone
    | PyStr s => Some (CStr s)
    | PyInt z => Some (CInt z)
    | PyFloat q => Some (CFloat q)
    | PyBool b => Some (CBool b)
    | PyDict _ | PyOther _ => Some (CKept v)
    end.

(** The [try] block of [_convert_message_to_dict]. *)
Definition convert_message_body (msg : value) : option converted :=
  if raises 0 msg then None
  else
    match msg with
    | PyObject attrs => CDict <$> convert_items convert_attribute attrs
    | _ => CStr <$> str msg
    end.

(** [_convert_message_to_dict]: whatever the [try] block raises, the
    handler returns [str(msg)]; [None] when that raises too. *)
Definition _convert_message_to_dict (msg : value) : option converted :=
  match msg with
  | PyNone => Some CNone
  | _ =>
      match convert_message_body msg with
      | Some result => Some result
      | None => CStr <$> str msg
      end
  end.





(** Induction on values, through the lists they hold. *)
Section Induction.
Variable P : value → Prop.
Hypothesis HNone : P PyNone.
Hypothesis HStr : ∀ s, P (PyStr s).
Hypothesis HInt : ∀ z, P (PyInt z).
Hypothesis HFloat : ∀ q, P (PyFloat q).
Hypothesis HBool : ∀ b, P (PyBool b).
Hypothesis HArray : ∀ a, P (PyArray a).
Hypothesis HList : ∀ items, Forall P items → P (PyList items).
Hypothesis HTuple : ∀ items, Forall P items → P (PyTuple items).
Hypothesis HObject : ∀ attrs, Forall (λ item, P item.2) attrs → P (PyObject attrs).
Hypothesis HDict : ∀ items, P (PyDict items).
Hypothesis HOther : ∀ o, P (PyOther o).


End Induction.








End Conversion.

(** Scenarios.  [str] of the demo values is a fixed text, and nothing
    raises unless said. *)
Definition demo_str (v : PyValue unit string) : option string :=
  match v with
  | PyOther o => Some o
  | _ => Some "<value>"
  end.

Definition demo_tolist_ok (a : unit) : bool := true.

Definition never_raises (depth : nat) (v : PyValue unit string) : bool := false.

(** A message with a header object, a private field, a tuple, raw bytes
    and a dict that has a private key. *)
Definition demo_msg : PyValue unit string :=
  PyObject
    [("header", PyObject [("frame_id", PyStr "base"); ("_stamp", PyInt 7)]);
     ("_check_fields", PyBool true);
     ("position", PyTuple [PyInt 1; PyInt 2]);
     ("raw", PyOther "b'0'");
     ("meta", PyDict [(PyStr "_id", PyInt 3)])].

(** The private attributes go, at both levels; the tuple becomes a list;
    the bytes and the dict are stored as they are, the dict with its private
    key. *)
Example convert_demo_msg :
  _convert_message_to_dict demo_str demo_tolist_ok never_raises demo_msg
  = Some (CDict [("header", CDict [("frame_id", CStr "base")]);
                 ("position", CList [CInt 1; CInt 2]);
                 ("raw", CKept (PyOther "b'0'"));
                 ("meta", CKept (PyDict [(PyStr "_id", PyInt 3)]))]).
Proof. reflexivity. Qed.

(** When the conversion of an attribute raises, here that of the header,
    the result is [str(msg)]. *)
Example convert_demo_msg_raising :
  _convert_message_to_dict demo_str demo_tolist_ok
    (λ depth v, bool_decide (depth = 1%nat)) demo_msg
  = Some (CStr "<value>").
Proof. reflexivity. Qed.


End MessageConversion.
